(** * Qualitative-research knowledge graph: storage engine and derived views

    A shallow embedding of [KnowledgeGraphManager] (index.ts) and of the
    helpers it calls, together with the properties of the mutation
    engine, the status/priority subsystem, the substring search and the
    analytical views.

    Strings are sequences of 8-bit code units read as Latin-1, which is
    closed under [toLowerCase], [trim] and the [\s] class of the source's
    regular expression. A JavaScript [Set] that is only ever queried with
    [has] is a [gset string]; the insertion-ordered [Map] of the
    co-occurrence tally is an association list; arrays are lists. *)

From Stdlib Require Import ZArith List String Ascii Bool Lia.
From Stdlib Require Import Sorting.Sorted Sorting.Permutation.
From stdpp Require Import base decidable option list strings gmap sorting.

Open Scope string_scope.
Open Scope list_scope.

(** ** Strings *)

Module Str.

Definition code (c : ascii) : N := N_of_ascii c.

(** [\s] restricted to code units below 256: TAB, LF, VT, FF, CR, SPACE
    and NBSP. *)
Definition isSpace (c : ascii) : bool :=
  let n := code c in
  ((9 <=? n) && (n <=? 13) || (n =? 32) || (n =? 160))%N.

(** One code unit of [String.prototype.toLowerCase]: A-Z and the
    Latin-1 capitals U+00C0-U+00DE (except the multiplication sign). *)
Definition lowerChar (c : ascii) : ascii :=
  let n := code c in
  if ((65 <=? n) && (n <=? 90) ||
      (192 <=? n) && (n <=? 222) && negb (n =? 215))%N
  then ascii_of_N (n + 32) else c.

Fixpoint toLowerCase (s : string) : string :=
  match s with
  | EmptyString => EmptyString
  | String c r => String (lowerChar c) (toLowerCase r)
  end.

(** [s.startsWith(p)] *)
Fixpoint startsWith (p s : string) : bool :=
  match p, s with
  | EmptyString, _ => true
  | String a p', String b s' => if Ascii.eqb a b then startsWith p' s' else false
  | String _ _, EmptyString => false
  end.

(** [s.includes(t)] *)
Fixpoint includes (t s : string) : bool :=
  startsWith t s ||
  match s with
  | EmptyString => false
  | String _ r => includes t r
  end.

(** [s.split(/\s+/)]: [cur] is the piece being read and [inWs] tells
    whether the previous code unit belonged to a separator run. *)
Fixpoint splitWsFrom (inWs : bool) (cur : string) (s : string) : list string :=
  match s with
  | EmptyString => [cur]
  | String c r =>
      if isSpace c
      then (if inWs then splitWsFrom true cur r
            else cur :: splitWsFrom true EmptyString r)
      else splitWsFrom false (cur +:+ String c EmptyString) r
  end.

Definition splitWs (s : string) : list string := splitWsFrom false EmptyString s.

(** [s.split(':')] *)
Fixpoint splitOnFrom (sep : ascii) (cur : string) (s : string) : list string :=
  match s with
  | EmptyString => [cur]
  | String c r =>
      if Ascii.eqb c sep
      then cur :: splitOnFrom sep EmptyString r
      else splitOnFrom sep (cur +:+ String c EmptyString) r
  end.

Definition splitOn (sep : ascii) (s : string) : list string :=
  splitOnFrom sep EmptyString s.

Fixpoint trimStart (s : string) : string :=
  match s with
  | EmptyString => EmptyString
  | String c r => if isSpace c then trimStart r else s
  end.

Fixpoint trimEnd (s : string) : string :=
  match s with
  | EmptyString => EmptyString
  | String c r =>
      match trimEnd r with
      | EmptyString => if isSpace c then EmptyString else String c EmptyString
      | r' => String c r'
      end
  end.

(** [t] occurs in [s]. *)
Definition occursIn (t s : string) : Prop :=
  exists pre post, s = pre +:+ t +:+ post.

(** Only separator code units. *)
Fixpoint allSpace (s : string) : bool :=
  match s with
  | EmptyString => true
  | String c r => isSpace c && allSpace r
  end.

(** [s.trim()] *)
Definition trim (s : string) : string := trimEnd (trimStart s).

End Str.

(** ** Data model *)

Record Entity := mkEntity {
  name : string;
  entityType : string;
  observations : list string
}.

Record Relation := mkRelation {
  from : string;
  to : string;
  relationType : string
}.

Record KnowledgeGraph := mkGraph {
  entities : list Entity;
  relations : list Relation
}.

#[global] Instance Entity_eq_dec : EqDecision Entity.
Proof. solve_decision. Defined.

#[global] Instance Relation_eq_dec : EqDecision Relation.
Proof. solve_decision. Defined.

#[global] Instance KnowledgeGraph_eq_dec : EqDecision KnowledgeGraph.
Proof. solve_decision. Defined.

Definition emptyGraph : KnowledgeGraph := mkGraph [] [].

Definition VALID_ENTITY_TYPES : list string :=
  ["project"; "participant"; "interview"; "observation"; "document";
   "code"; "codeGroup"; "memo"; "theme"; "quote"; "literature";
   "researchQuestion"; "finding"; "status"; "priority"].

Definition VALID_RELATION_TYPES : list string :=
  ["participated_in"; "codes"; "contains"; "supports"; "contradicts";
   "answers"; "cites"; "followed_by"; "related_to"; "reflects_on";
   "compares"; "conducted_by"; "transcribed_by"; "part_of";
   "derived_from"; "collected_on"; "analyzes"; "triangulates_with";
   "has_status"; "has_priority"; "precedes"].

Definition VALID_STATUS_VALUES : list string :=
  ["planning"; "data_collection"; "analysis"; "writing"; "complete";
   "scheduled"; "conducted"; "transcribed"; "coded"; "analyzed";
   "planned"; "documented";
   "initial"; "revised"; "final";
   "emerging"; "developing"; "established";
   "preliminary"; "draft";
   "active"; "in_progress"; "not_started"].

Definition VALID_PRIORITY_VALUES : list string := ["high"; "low"].

(** [xs.includes(x)] on an array of strings *)
Definition arrIncludes (xs : list string) (x : string) : bool :=
  bool_decide (x ∈ xs).

Definition validateEntityType (t : string) : bool := arrIncludes VALID_ENTITY_TYPES t.
Definition validateRelationType (t : string) : bool := arrIncludes VALID_RELATION_TYPES t.

(** ** The store file and the error monad of the manager *)

(** What [fs.readFile(MEMORY_FILE_PATH)] followed by [JSON.parse] can
    meet: no file (ENOENT), a file that cannot be read (any other I/O
    error), a file whose text is not JSON, or the JSON of a graph. A file
    that holds JSON of another shape is outside this model. *)
Inductive store :=
| FileAbsent
| FileUnreadable
| FileCorrupt
| FileGraph (g : KnowledgeGraph).

(** The exceptions of the source, one constructor per message. *)
Inductive error :=
| InvalidEntityType (t : string)
| InvalidRelationType (t : string)
| InvalidStatusValue (v : string)
| InvalidPriorityValue (v : string)
| EntityNotFound (n : string)
| ProjectNotFound (n : string)
| CodeNotFound (n : string)
| ENOENT
| IOError
| SyntaxError.

Inductive errorKind := ValidationError | NotFoundError | StorageError.

Definition kindOf (e : error) : errorKind :=
  match e with
  | InvalidEntityType _ | InvalidRelationType _
  | InvalidStatusValue _ | InvalidPriorityValue _ => ValidationError
  | EntityNotFound _ | ProjectNotFound _ | CodeNotFound _ => NotFoundError
  | ENOENT | IOError | SyntaxError => StorageError
  end.

Inductive result (A : Type) :=
| Ok (a : A)
| Err (e : error).
Arguments Ok {A} a.
Arguments Err {A} e.

(** A computation reads and writes the store file and may throw; the
    store it leaves behind is part of the outcome in both cases. *)
Definition M (A : Type) : Type := store -> result A * store.

Definition ret {A} (a : A) : M A := fun s => (Ok a, s).
Definition throw {A} (e : error) : M A := fun s => (Err e, s).
Definition bind {A B} (m : M A) (k : A -> M B) : M B :=
  fun s => match m s with
           | (Ok a, s') => k a s'
           | (Err e, s') => (Err e, s')
           end.

Notation "'let!' x ':=' m 'in' k" := (bind m (fun x => k))
  (at level 10, x name, m at level 100, k at level 200).
Notation "'do!' m 'in' k" := (bind m (fun _ => k))
  (at level 10, m at level 100, k at level 200).

(** [array.forEach(f)] with a callback that may throw. *)
Fixpoint forEach {A} (f : A -> M unit) (xs : list A) : M unit :=
  match xs with
  | [] => ret tt
  | x :: r => do! f x in forEach f r
  end.

(** The body of the [try] block of [loadGraph]. *)
Definition readAndParse (s : store) : result KnowledgeGraph :=
  match s with
  | FileAbsent => Err ENOENT
  | FileUnreadable => Err IOError
  | FileCorrupt => Err SyntaxError
  | FileGraph g => Ok g
  end.

(** [loadGraph]: the [catch] clause does not look at the exception. *)
Definition loadGraphOf (s : store) : KnowledgeGraph :=
  match readAndParse s with
  | Ok g => g
  | Err _ => emptyGraph
  end.

Definition loadGraph : M KnowledgeGraph := fun s => (Ok (loadGraphOf s), s).

(** [saveGraph]: the whole file is replaced; the write is taken to
    succeed. *)
Definition saveGraph (g : KnowledgeGraph) : M unit := fun _ => (Ok tt, FileGraph g).

(** [for (const x of array)] over a loop state that the body replaces,
    with a body that may throw. *)
Fixpoint forOf {A S} (f : S -> A -> M S) (xs : list A) (st : S) : M S :=
  match xs with
  | [] => ret st
  | x :: r => let! st' := f st x in forOf f r st'
  end.

(** [set.has(x)] *)
Definition has (S : gset string) (x : string) : bool := bool_decide (x ∈ S).

(** The contract of the store as the specification words it, and as
    [loadSessionStates] implements it for the session file: only a
    missing file is recovered as an empty graph; every other failure of
    the read is rethrown. *)
Definition loadGraphEnoentOnly : M KnowledgeGraph :=
  fun s => match readAndParse s with
           | Ok g => (Ok g, s)
           | Err ENOENT => (Ok emptyGraph, s)
           | Err e => (Err e, s)
           end.

(** [new Set(graph.entities.map(e => e.name))] *)
Definition nameSet (es : list Entity) : gset string := list_to_set (name <$> es).

(** [array.find(p)] *)
Definition arrFind {A} (P : A -> Prop) `{forall x, Decision (P x)} (l : list A) : option A :=
  snd <$> list_find P l.

(** [array.some(p)] *)
Definition arrSome {A} (P : A -> Prop) `{forall x, Decision (P x)} (l : list A) : bool :=
  bool_decide (Exists P l).

(** ** Mutation engine *)

Definition createEntities (es : list Entity) : M (list Entity) :=
  let! graph := loadGraph in
  let existingEntityNames := nameSet (entities graph) in
  do! forEach (fun entity =>
        if validateEntityType (entityType entity) then ret tt
        else throw (InvalidEntityType (entityType entity))) es in
  let newEntities := filter (fun entity => has existingEntityNames (name entity) = false) es in
  do! saveGraph (mkGraph (entities graph ++ newEntities) (relations graph)) in
  ret newEntities.

(** The template string [`${r.from}:${r.to}:${r.relationType}`]. *)
Definition relationKey (r : Relation) : string :=
  from r +:+ ":" +:+ to r +:+ ":" +:+ relationType r.

Definition createRelations (rs : list Relation) : M (list Relation) :=
  let! graph := loadGraph in
  let existingEntityNames := nameSet (entities graph) in
  do! forEach (fun relation =>
        if negb (has existingEntityNames (from relation))
        then throw (EntityNotFound (from relation))
        else if negb (has existingEntityNames (to relation))
        then throw (EntityNotFound (to relation))
        else if negb (validateRelationType (relationType relation))
        then throw (InvalidRelationType (relationType relation))
        else ret tt) rs in
  let existingRelations : gset string := list_to_set (relationKey <$> relations graph) in
  let newRelations := filter (fun r => has existingRelations (relationKey r) = false) rs in
  do! saveGraph (mkGraph (entities graph) (relations graph ++ newRelations)) in
  ret newRelations.

Record ObservationInput := mkObsInput {
  entityName : string;
  contents : list string
}.

Record ObservationResult := mkObsResult {
  resultEntityName : string;
  addedObservations : list string
}.

Record ObservationDeletion := mkObsDeletion {
  deletionEntityName : string;
  deletionObservations : list string
}.

#[global] Instance ObservationInput_eq_dec : EqDecision ObservationInput.
Proof. solve_decision. Defined.

#[global] Instance ObservationResult_eq_dec : EqDecision ObservationResult.
Proof. solve_decision. Defined.

#[global] Instance ObservationDeletion_eq_dec : EqDecision ObservationDeletion.
Proof. solve_decision. Defined.

Definition setObservations (e : Entity) (obs : list string) : Entity :=
  mkEntity (name e) (entityType e) obs.

(** One turn of the loop of [addObservations]: the entity found is an
    element of [graph.entities], so pushing to its observations changes
    the graph at the index where it was found. *)
Definition addObservationsStep
    (st : KnowledgeGraph * list ObservationResult) (observation : ObservationInput)
  : M (KnowledgeGraph * list ObservationResult) :=
  let '(graph, results) := st in
  match list_find (fun e => name e = entityName observation) (entities graph) with
  | None => throw (EntityNotFound (entityName observation))
  | Some (i, entity) =>
      let existingObservations : gset string := list_to_set (observations entity) in
      let newObservations :=
        filter (fun o => has existingObservations o = false) (contents observation) in
      let entity' := setObservations entity (observations entity ++ newObservations) in
      ret (mkGraph (<[i := entity']> (entities graph)) (relations graph),
           results ++ [mkObsResult (entityName observation) newObservations])
  end.

Definition addObservations (obs : list ObservationInput) : M (list ObservationResult) :=
  let! graph := loadGraph in
  let! st := forOf addObservationsStep obs (graph, []) in
  do! saveGraph (fst st) in
  ret (snd st).

Definition deleteEntities (entityNames : list string) : M unit :=
  let! graph := loadGraph in
  let entities' := filter (fun e => arrIncludes entityNames (name e) = false) (entities graph) in
  let relations' :=
    filter (fun r => arrIncludes entityNames (from r) = false /\
                     arrIncludes entityNames (to r) = false) (relations graph) in
  saveGraph (mkGraph entities' relations').

Definition deleteObservationsStep (graph : KnowledgeGraph) (deletion : ObservationDeletion)
  : KnowledgeGraph :=
  match list_find (fun e => name e = deletionEntityName deletion) (entities graph) with
  | None => graph
  | Some (i, entity) =>
      let entity' := setObservations entity
        (filter (fun o => arrIncludes (deletionObservations deletion) o = false)
                (observations entity)) in
      mkGraph (<[i := entity']> (entities graph)) (relations graph)
  end.

Definition deleteObservations (deletions : list ObservationDeletion) : M unit :=
  let! graph := loadGraph in
  saveGraph (fold_left deleteObservationsStep deletions graph).

Definition deleteRelations (rs : list Relation) : M unit :=
  let! graph := loadGraph in
  let relations' :=
    filter (fun r => arrSome (fun toDelete =>
                        from r = from toDelete /\ to r = to toDelete /\
                        relationType r = relationType toDelete) rs = false)
           (relations graph) in
  saveGraph (mkGraph (entities graph) relations').

Definition readGraph : M KnowledgeGraph := loadGraph.

(** ** Status and priority subsystem *)

Definition statusName (v : string) : string := "status:" +:+ v.
Definition priorityName (v : string) : string := "priority:" +:+ v.

Definition ensureStatusEntity (es : list Entity) (statusValue : string) : list Entity :=
  if arrSome (fun e => name e = statusName statusValue /\ entityType e = "status") es
  then es
  else es ++ [mkEntity (statusName statusValue) "status"
                       ["A " +:+ statusValue +:+ " status value"]].

Definition ensurePriorityEntity (es : list Entity) (priorityValue : string) : list Entity :=
  if arrSome (fun e => name e = priorityName priorityValue /\ entityType e = "priority") es
  then es
  else es ++ [mkEntity (priorityName priorityValue) "priority"
                       ["A " +:+ priorityValue +:+ " priority value"]].

Definition initializeStatusAndPriority : M unit :=
  let! graph := loadGraph in
  let es1 := fold_left ensureStatusEntity VALID_STATUS_VALUES (entities graph) in
  let es2 := fold_left ensurePriorityEntity VALID_PRIORITY_VALUES es1 in
  saveGraph (mkGraph es2 (relations graph)).

(** What a getter hands back: a string, [null], or [undefined] when
    [split(':')] has no element of index 1. *)
Inductive jsString :=
| JNull
| JUndefined
| JStr (s : string).

Definition valueSegment (target : string) : jsString :=
  match Str.splitOn ":" target !! 1%nat with
  | Some v => JStr v
  | None => JUndefined
  end.

Definition outgoing (entityName relType : string) (r : Relation) : Prop :=
  from r = entityName /\ relationType r = relType.

#[global] Instance outgoing_dec n t r : Decision (outgoing n t r).
Proof. unfold outgoing. apply _. Defined.

Definition getEntityStatus (entityName : string) : M jsString :=
  let! graph := loadGraph in
  match arrFind (outgoing entityName "has_status") (relations graph) with
  | Some statusRelation => ret (valueSegment (to statusRelation))
  | None => ret JNull
  end.

Definition getEntityPriority (entityName : string) : M jsString :=
  let! graph := loadGraph in
  match arrFind (outgoing entityName "has_priority") (relations graph) with
  | Some priorityRelation => ret (valueSegment (to priorityRelation))
  | None => ret JNull
  end.

Definition setEntityStatus (entityName statusValue : string) : M unit :=
  if negb (arrIncludes VALID_STATUS_VALUES statusValue)
  then throw (InvalidStatusValue statusValue)
  else
    let! graph := loadGraph in
    let kept := filter (fun r => ~ outgoing entityName "has_status" r) (relations graph) in
    saveGraph (mkGraph (entities graph)
                 (kept ++ [mkRelation entityName (statusName statusValue) "has_status"])).

Definition setEntityPriority (entityName priorityValue : string) : M unit :=
  if negb (arrIncludes VALID_PRIORITY_VALUES priorityValue)
  then throw (InvalidPriorityValue priorityValue)
  else
    let! graph := loadGraph in
    let kept := filter (fun r => ~ outgoing entityName "has_priority" r) (relations graph) in
    saveGraph (mkGraph (entities graph)
                 (kept ++ [mkRelation entityName (priorityName priorityValue) "has_priority"])).

(** ** Search and lookup *)

Definition termMatches (entity : Entity) (term : string) : bool :=
  Str.includes term (Str.toLowerCase (name entity)) ||
  Str.includes term (Str.toLowerCase (entityType entity)) ||
  existsb (fun observation => Str.includes term (Str.toLowerCase observation))
          (observations entity).

Definition matchesAllTerms (terms : list string) (entity : Entity) : bool :=
  forallb (termMatches entity) terms.

Definition searchNodes (query : string) : M KnowledgeGraph :=
  let! graph := loadGraph in
  let terms := Str.splitWs (Str.toLowerCase query) in
  let matchingEntityNames : gset string :=
    list_to_set (name <$> filter (fun e => matchesAllTerms terms e = true) (entities graph)) in
  let matchingRelations :=
    filter (fun r => has matchingEntityNames (from r) = true /\
                     has matchingEntityNames (to r) = true) (relations graph) in
  ret (mkGraph (filter (fun e => has matchingEntityNames (name e) = true) (entities graph))
               matchingRelations).

Definition openNodes (names : list string) : M KnowledgeGraph :=
  let! graph := loadGraph in
  ret (mkGraph (filter (fun e => arrIncludes names (name e) = true) (entities graph))
               (filter (fun r => arrIncludes names (from r) = true /\
                                 arrIncludes names (to r) = true) (relations graph))).

(** ** Sorting *)

(** [Array.prototype.sort] is stable, so for a comparator that orders by
    a key its result is the one of any stable sort; insertion from the
    right is one. [cmp a b <= 0] keeps [a] before [b]. *)
Section Sort.
Context {A : Type} (cmp : A -> A -> Z).

Fixpoint insertSorted (x : A) (l : list A) : list A :=
  match l with
  | [] => [x]
  | y :: r => if (cmp x y <=? 0)%Z then x :: y :: r else y :: insertSorted x r
  end.

Definition sortWith (l : list A) : list A := foldr insertSorted [] l.
End Sort.

(** ** Analytical views *)

(** The entities pushed by a loop over [graph.relations] that keeps the
    relations satisfying [P] and looks up an entity for each. *)
Definition collectVia (g : KnowledgeGraph) (P : Relation -> Prop) `{forall r, Decision (P r)}
    (lookup : Relation -> option Entity) : list Entity :=
  omap (fun relation => if decide (P relation) then lookup relation else None) (relations g).

Record TimelineItem := mkTimelineItem {
  date : Z;
  entity : Entity;
  quotes : list Entity
}.

Record ChronologicalData := mkChronologicalData {
  project : Entity;
  timeline : list TimelineItem
}.

Definition isDateObservation (o : string) : bool :=
  Str.startsWith "Date:" o || Str.startsWith "Collected on:" o || Str.startsWith "Created:" o.

(** [if (dataType)]: an absent argument and the empty string are both
    falsy. *)
Definition truthy (dataType : option string) : option string :=
  match dataType with
  | Some EmptyString => None
  | other => other
  end.

Definition wantedType (dataType : option string) (e : Entity) : Prop :=
  match truthy dataType with
  | Some t => entityType e = t
  | None => entityType e = "interview" \/ entityType e = "observation" \/
            entityType e = "document"
  end.

#[global] Instance wantedType_dec dataType e : Decision (wantedType dataType e).
Proof. unfold wantedType. destruct (truthy dataType); apply _. Defined.

Definition dataEntities (g : KnowledgeGraph) (projectName : string)
    (dataType : option string) : list Entity :=
  collectVia g (fun relation => relationType relation = "part_of" /\ to relation = projectName)
    (fun relation =>
       arrFind (fun e => name e = from relation /\ wantedType dataType e) (entities g)).

Definition quotesContainedIn (g : KnowledgeGraph) (n : string) : list Entity :=
  collectVia g (fun relation => relationType relation = "contains" /\ from relation = n)
    (fun relation =>
       arrFind (fun e => name e = to relation /\ entityType e = "quote") (entities g)).

Section Chronology.
(** [new Date(text).getTime()] of the host: milliseconds since the
    epoch, or [None] for an invalid date (NaN). *)
Variable parseDate : string -> option Z.

(** The date of one entity. An observation found by the three prefixes
    contains a colon, so [split(':')] has an element of index 1 (see
    [dateObservation_has_segment]); the last branch is never taken. *)
Definition entityDate (e : Entity) : Z :=
  match List.find isDateObservation (observations e) with
  | Some dateObs =>
      match Str.splitOn ":" dateObs !! 1%nat with
      | Some segment =>
          match parseDate (Str.trim segment) with
          | Some parsed => parsed
          | None => 0%Z
          end
      | None => 0%Z
      end
  | None => 0%Z
  end.

Definition byDate (a b : Entity * Z) : Z := (snd a - snd b)%Z.

Definition getChronologicalData (projectName : string) (dataType : option string)
  : M ChronologicalData :=
  let! graph := loadGraph in
  match arrFind (fun e => name e = projectName /\ entityType e = "project") (entities graph) with
  | None => throw (ProjectNotFound projectName)
  | Some project =>
      let dataWithDates :=
        (fun e => (e, entityDate e)) <$> dataEntities graph projectName dataType in
      let sorted := sortWith byDate dataWithDates in
      ret (mkChronologicalData project
             ((fun item => mkTimelineItem (snd item) (fst item)
                             (quotesContainedIn graph (name (fst item)))) <$> sorted))
  end.
End Chronology.

(** A host date parser for the ECMAScript date-only form [YYYY-MM-DD],
    read as midnight UTC; every other text is an invalid date here. *)
Module IsoDate.

Definition digit (c : ascii) : option Z :=
  let n := Z.of_N (N_of_ascii c) in
  if ((48 <=? n) && (n <=? 57))%Z then Some (n - 48)%Z else None.

Fixpoint number (acc : Z) (cs : list ascii) : option Z :=
  match cs with
  | [] => Some acc
  | c :: r => match digit c with
              | Some d => number (10 * acc + d)%Z r
              | None => None
              end
  end.

Definition daysFromCivil (y m d : Z) : Z :=
  let y' := (if m <=? 2 then y - 1 else y)%Z in
  let era := (y' / 400)%Z in
  let yoe := (y' - era * 400)%Z in
  let doy := ((153 * (if m >? 2 then m - 3 else m + 9) + 2) / 5 + d - 1)%Z in
  let doe := (yoe * 365 + yoe / 4 - yoe / 100 + doy)%Z in
  (era * 146097 + doe - 719468)%Z.

Definition parse (s : string) : option Z :=
  match list_ascii_of_string s with
  | [y1; y2; y3; y4; "-"%char; m1; m2; "-"%char; d1; d2] =>
      match number 0 [y1; y2; y3; y4], number 0 [m1; m2], number 0 [d1; d2] with
      | Some y, Some m, Some d =>
          if ((1 <=? m) && (m <=? 12) && (1 <=? d) && (d <=? 31))%Z
          then Some (daysFromCivil y m d * 86400000)%Z
          else None
      | _, _, _ => None
      end
  | _ => None
  end.

End IsoDate.

Record Occurrence := mkOccurrence {
  occCode : Entity;
  count : nat;
  occQuotes : list Entity
}.

Record Cooccurrence := mkCooccurrence {
  code : Entity;
  quotesCount : nat;
  cooccurringCodes : list Occurrence
}.

(** The [Map] of the tally keeps its keys in insertion order; an update
    of a present key changes its value in place. *)
Fixpoint tally (key : string) (otherCode quote : Entity)
    (m : list (string * Occurrence)) : list (string * Occurrence) :=
  match m with
  | [] => [(key, mkOccurrence otherCode 1 [quote])]
  | (k, occurrence) :: r =>
      if decide (k = key)
      then (k, mkOccurrence (occCode occurrence) (S (count occurrence))
                  (occQuotes occurrence ++ [quote])) :: r
      else (k, occurrence) :: tally key otherCode quote r
  end.

Definition quotesCodedBy (g : KnowledgeGraph) (codeName : string) : list Entity :=
  collectVia g (fun relation => relationType relation = "codes" /\ from relation = codeName)
    (fun relation =>
       arrFind (fun e => name e = to relation /\ entityType e = "quote") (entities g)).

(** The inner loop of the tally, for one quote. *)
Definition tallyQuote (g : KnowledgeGraph) (codeName : string)
    (m : list (string * Occurrence)) (quote : Entity) : list (string * Occurrence) :=
  fold_left (fun m relation =>
    if decide (relationType relation = "codes" /\ from relation <> codeName /\
               to relation = name quote)
    then match arrFind (fun e => name e = from relation /\ entityType e = "code") (entities g) with
         | Some otherCode => tally (name otherCode) otherCode quote m
         | None => m
         end
    else m) (relations g) m.

Definition byCountDesc (a b : Occurrence) : Z := (Z.of_nat (count b) - Z.of_nat (count a))%Z.

Definition getCodeCooccurrence (codeName : string) : M Cooccurrence :=
  let! graph := loadGraph in
  match arrFind (fun e => name e = codeName /\ entityType e = "code") (entities graph) with
  | None => throw (CodeNotFound codeName)
  | Some code =>
      let quotes := quotesCodedBy graph codeName in
      let codeOccurrences := fold_left (tallyQuote graph codeName) quotes [] in
      ret (mkCooccurrence code (length quotes) (sortWith byCountDesc (snd <$> codeOccurrences)))
  end.

(** ** Reading the delta of [addObservations] back *)

(** The observations of the entity that [find] reaches under a name. *)
Definition observationsOf (g : KnowledgeGraph) (n : string) : list string :=
  match list_find (fun e => name e = n) (entities g) with
  | Some (_, e) => observations e
  | None => []
  end.

(** Appending [xs] to the observations of the entity named [n]. *)
Definition appendObservations (n : string) (xs : list string) (g : KnowledgeGraph)
  : KnowledgeGraph :=
  match list_find (fun e => name e = n) (entities g) with
  | Some (i, e) =>
      mkGraph (<[i := setObservations e (observations e ++ xs)]> (entities g)) (relations g)
  | None => g
  end.

(** The graph obtained by appending, result after result, what a call of
    [addObservations] reported as added. *)
Definition appendAdded (res : list ObservationResult) (g : KnowledgeGraph) : KnowledgeGraph :=
  fold_left (fun g r => appendObservations (resultEntityName r) (addedObservations r) g) res g.

(** The observations a turn of the loop adds for one input. *)
Definition freshObservations (g : KnowledgeGraph) (o : ObservationInput) : list string :=
  filter (fun x => x ∉ observationsOf g (entityName o)) (contents o).

(** [covers g o]: everything [o] asks to add is already on its entity. *)
Definition covers (g : KnowledgeGraph) (o : ObservationInput) : Prop :=
  forall x, x ∈ contents o -> x ∈ observationsOf g (entityName o).

(** [grows g g']: same names, and no observation lost. *)
Definition grows (g g' : KnowledgeGraph) : Prop :=
  name <$> entities g' = name <$> entities g /\
  forall m x, x ∈ observationsOf g m -> x ∈ observationsOf g' m.

(** What one input contributes to the delta, read against the graph [g]
    the call started from. *)
Definition deltaFor (g : KnowledgeGraph) (o : ObservationInput) (r : ObservationResult) : Prop :=
  resultEntityName r = entityName o /\
  sublist (addedObservations r) (contents o) /\
  forall x, x ∈ observationsOf g (entityName o) -> x ∉ addedObservations r.

(** ** Sequences of status and priority updates *)

(** The edges of type [relType] that leave the entity named [n]. *)
Definition edgesFrom (n relType : string) (g : KnowledgeGraph) : list Relation :=
  filter (outgoing n relType) (relations g).

Definition statusEdges (n : string) (g : KnowledgeGraph) : list Relation :=
  edgesFrom n "has_status" g.

Definition priorityEdges (n : string) (g : KnowledgeGraph) : list Relation :=
  edgesFrom n "has_priority" g.

Inductive setterCall :=
| SetStatus (entityName statusValue : string)
| SetPriority (entityName priorityValue : string).

(** The store a setter leaves behind, whether it returned or raised. *)
Definition runSetter (s : store) (c : setterCall) : store :=
  match c with
  | SetStatus n v => snd (setEntityStatus n v s)
  | SetPriority n v => snd (setEntityPriority n v s)
  end.

Definition runSetters (calls : list setterCall) (s : store) : store :=
  fold_left runSetter calls s.

Definition singleValued (g : KnowledgeGraph) : Prop :=
  forall n, length (statusEdges n g) <= 1 /\ length (priorityEdges n g) <= 1.

(** ** Reachable states *)

(** No two entities share a name and no relation dangles. *)
Definition wellFormed (g : KnowledgeGraph) : Prop :=
  NoDup (name <$> entities g) /\
  forall r, r ∈ relations g ->
    (from r ∈ (name <$> entities g)) /\ (to r ∈ (name <$> entities g)).

(** The public operations that write the store. *)
Inductive operation :=
| CreateEntities (es : list Entity)
| CreateRelations (rs : list Relation)
| AddObservations (obs : list ObservationInput)
| DeleteEntities (names : list string)
| DeleteObservations (deletions : list ObservationDeletion)
| DeleteRelations (rs : list Relation)
| InitializeStatusAndPriority
| SetEntityStatus (entityName statusValue : string)
| SetEntityPriority (entityName priorityValue : string).

(** The store an operation leaves behind, whether it returned or raised. *)
Definition perform (op : operation) (s : store) : store :=
  match op with
  | CreateEntities es => snd (createEntities es s)
  | CreateRelations rs => snd (createRelations rs s)
  | AddObservations obs => snd (addObservations obs s)
  | DeleteEntities names => snd (deleteEntities names s)
  | DeleteObservations deletions => snd (deleteObservations deletions s)
  | DeleteRelations rs => snd (deleteRelations rs s)
  | InitializeStatusAndPriority => snd (initializeStatusAndPriority s)
  | SetEntityStatus n v => snd (setEntityStatus n v s)
  | SetEntityPriority n v => snd (setEntityPriority n v s)
  end.

Inductive reachable : store -> Prop :=
| reachable_empty s : loadGraphOf s = emptyGraph -> reachable s
| reachable_step s op : reachable s -> reachable (perform op s).

(** Every entity that bears a reserved [status:<value>] or
    [priority:<value>] name has the reserved type. *)
Definition reservedNamesTyped (es : list Entity) : Prop :=
  forall e, e ∈ es ->
    (forall v, v ∈ VALID_STATUS_VALUES -> name e = statusName v -> entityType e = "status") /\
    (forall v, v ∈ VALID_PRIORITY_VALUES -> name e = priorityName v ->
               entityType e = "priority").

(** The calls under which the operations keep the graph well formed:
    a batch of entities with pairwise distinct names, an initialisation
    over a graph whose reserved names have the reserved types, and a
    setter whose entity and whose value entity both exist. *)
Definition admissible (g : KnowledgeGraph) (op : operation) : Prop :=
  match op with
  | CreateEntities es => NoDup (name <$> es)
  | InitializeStatusAndPriority => reservedNamesTyped (entities g)
  | SetEntityStatus n v =>
      (n ∈ (name <$> entities g)) /\ (statusName v ∈ (name <$> entities g))
  | SetEntityPriority n v =>
      (n ∈ (name <$> entities g)) /\ (priorityName v ∈ (name <$> entities g))
  | _ => True
  end.

Inductive reachableAdmissibly : store -> Prop :=
| admissibly_empty s : loadGraphOf s = emptyGraph -> reachableAdmissibly s
| admissibly_step s op :
    reachableAdmissibly s -> admissible (loadGraphOf s) op ->
    reachableAdmissibly (perform op s).

(** ** What a search is asked for *)

(** The token [t] occurs in the lower-cased name, type, or one
    observation of [e]. *)
Definition tokenIn (t : string) (e : Entity) : Prop :=
  Str.occursIn t (Str.toLowerCase (name e)) \/
  Str.occursIn t (Str.toLowerCase (entityType e)) \/
  exists o, o ∈ observations e /\ Str.occursIn t (Str.toLowerCase o).

(** The tokens of a query. *)
Definition tokens (query : string) : list string :=
  Str.splitWs (Str.toLowerCase query).

(** Every token of the query occurs in [e]. *)
Definition answers (query : string) (e : Entity) : Prop :=
  forall t, t ∈ tokens query -> tokenIn t e.

(** The names [searchNodes] collects for a list of terms. *)
Definition matchedNames (terms : list string) (g : KnowledgeGraph) : list string :=
  name <$> filter (fun e => matchesAllTerms terms e = true) (entities g).

(** The scenario of three interviews, one dated 2024-01-05, one dated
    2024-01-01 and one without a date, linked to the project in the
    order [rels]. *)
Definition chronologyScenario (rels : list Relation) : KnowledgeGraph :=
  mkGraph [mkEntity "Study" "project" [];
           mkEntity "I1" "interview" ["Date: 2024-01-05"];
           mkEntity "I2" "interview" ["Date: 2024-01-01"];
           mkEntity "I3" "interview" ["Notes: pilot"]]
          rels.

Definition timelineNames (r : result ChronologicalData * store) : option (list (string * Z)) :=
  match fst r with
  | Ok data => Some ((fun item => (name (entity item), date item)) <$> timeline data)
  | Err _ => None
  end.

(** ** What a co-occurrence report is asked for *)

(** The code named [c] is applied to the quote named [q]. *)
Definition codesLink (g : KnowledgeGraph) (c q : string) : Prop :=
  mkRelation c q "codes" ∈ relations g.

#[global] Instance codesLink_dec g c q : Decision (codesLink g c q).
Proof. unfold codesLink. apply _. Defined.

(** Some entity of type [t] is named [n]. *)
Definition named (g : KnowledgeGraph) (t n : string) : Prop :=
  Exists (fun e => name e = n /\ entityType e = t) (entities g).

#[global] Instance named_dec g t n : Decision (named g t n).
Proof. unfold named. apply _. Defined.

(** The names of the quotes of the graph, each once. *)
Definition quoteNames (g : KnowledgeGraph) : list string :=
  remove_dups (name <$> filter (fun e => entityType e = "quote") (entities g)).

(** The quotes to which both codes are applied. *)
Definition sharedQuotes (g : KnowledgeGraph) (c c' : string) : list string :=
  filter (fun q => codesLink g c q /\ codesLink g c' q) (quoteNames g).

(** The pairs (other code, quote) in the order in which the two nested
    loops of the tally meet them. *)
Definition eventsFor (g : KnowledgeGraph) (codeName : string) (quote : Entity)
  : list (Entity * Entity) :=
  omap (fun relation =>
          if decide (relationType relation = "codes" /\ from relation <> codeName /\
                     to relation = name quote)
          then (fun otherCode => (otherCode, quote)) <$>
               arrFind (fun e => name e = from relation /\ entityType e = "code") (entities g)
          else None) (relations g).

Definition tallyEvent (m : list (string * Occurrence)) (ev : Entity * Entity)
  : list (string * Occurrence) :=
  tally (name (fst ev)) (fst ev) (snd ev) m.

Definition bump (quote : Entity) (o : Occurrence) : Occurrence :=
  mkOccurrence (occCode o) (S (count o)) (occQuotes o ++ [quote]).

(** What the tally holds after the events [evs]: one entry per name of
    an other code met, whose count is the number of events of that
    name. *)
Definition tallied (m : list (string * Occurrence)) (evs : list (Entity * Entity)) : Prop :=
  NoDup (fst <$> m) /\
  (forall k o, (k, o) ∈ m ->
     name (occCode o) = k /\
     count o = length (filter (fun ev => name (fst ev) = k) evs) /\
     exists ev, (ev ∈ evs) /\ fst ev = occCode o) /\
  (forall ev, ev ∈ evs -> name (fst ev) ∈ (fst <$> m)).

(** The scenario of two codes applied to one quote. *)
Definition cooccurrenceScenario : KnowledgeGraph :=
  mkGraph [mkEntity "C1" "code" []; mkEntity "C2" "code" []; mkEntity "Q1" "quote" []]
          [mkRelation "C1" "Q1" "codes"; mkRelation "C2" "Q1" "codes"].

Definition reportOf (r : result Cooccurrence * store) : option (list (string * nat)) :=
  match fst r with
  | Ok res => Some ((fun o => (name (occCode o), count o)) <$> cooccurringCodes res)
  | Err _ => None
  end.

(** ** Validation outcomes *)

(** The first exception a validating callback raises over an array. *)
Fixpoint firstError {A} (chk : A -> option error) (xs : list A) : option error :=
  match xs with
  | [] => None
  | x :: r => match chk x with
              | Some e => Some e
              | None => firstError chk r
              end
  end.

Definition entityTypeError (entity : Entity) : option error :=
  if validateEntityType (entityType entity) then None
  else Some (InvalidEntityType (entityType entity)).

Definition relationError (names : gset string) (relation : Relation) : option error :=
  if negb (has names (from relation)) then Some (EntityNotFound (from relation))
  else if negb (has names (to relation)) then Some (EntityNotFound (to relation))
  else if negb (validateRelationType (relationType relation))
       then Some (InvalidRelationType (relationType relation))
       else None.


(** ** Further analytical views *)

(** [graph.entities.find(e => e.name === n)] and
    [graph.entities.find(e => e.name === n && e.entityType === t)] *)
Definition findNamed (g : KnowledgeGraph) (n : string) : option Entity :=
  arrFind (fun e => name e = n) (entities g).

Definition findTyped (g : KnowledgeGraph) (t n : string) : option Entity :=
  arrFind (fun e => name e = n /\ entityType e = t) (entities g).

(** The loop that keeps the relations of type [relType] whose [to] is
    [target] and pushes the entity of type [t] named by their [from]. *)
Definition sourcesOf (g : KnowledgeGraph) (relType target t : string) : list Entity :=
  collectVia g (fun relation => relationType relation = relType /\ to relation = target)
    (fun relation => findTyped g t (from relation)).

(** The loop that keeps the relations of type [relType] whose [from] is
    [source] and pushes the entity of type [t] named by their [to]. *)
Definition targetsOf (g : KnowledgeGraph) (relType source t : string) : list Entity :=
  collectVia g (fun relation => relationType relation = relType /\ from relation = source)
    (fun relation => findTyped g t (to relation)).

(** One of the three arrays filled by the data-source loop of
    [getProjectOverview]: the entity is looked up by name alone and only
    then sorted by its type. *)
Definition partsByName (g : KnowledgeGraph) (projectName t : string) : list Entity :=
  collectVia g (fun relation => relationType relation = "part_of" /\ to relation = projectName)
    (fun relation =>
       match findNamed g (from relation) with
       | Some e => if decide (entityType e = t) then Some e else None
       | None => None
       end).

(** [o.toLowerCase().includes(k1) || o.toLowerCase().includes(k2) || ...] *)
Definition mentionsAny (keywords : list string) (o : string) : bool :=
  existsb (fun k => Str.includes k (Str.toLowerCase o)) keywords.

Module ProjectOverview.
Record t := mk {
  project : Entity;
  researchQuestions : list Entity;
  methodology : list string;
  participants : nat;
  interviews : nat;
  observations : nat;
  documents : nat;
  participantsList : list Entity;
  interviewsList : list Entity;
  observationsList : list Entity;
  documentsList : list Entity;
  themes : nat;
  themesList : list Entity;
  findings : list Entity
}.
End ProjectOverview.

Definition getProjectOverview (projectName : string) : M ProjectOverview.t :=
  let! graph := loadGraph in
  match findTyped graph "project" projectName with
  | None => throw (ProjectNotFound projectName)
  | Some project =>
      let methodologyObs :=
        filter (fun o => mentionsAny ["method"; "approach"] o = true) (observations project) in
      let researchQuestions := sourcesOf graph "part_of" projectName "researchQuestion" in
      let participants := sourcesOf graph "part_of" projectName "participant" in
      let interviews := partsByName graph projectName "interview" in
      let observations := partsByName graph projectName "observation" in
      let documents := partsByName graph projectName "document" in
      let findings := sourcesOf graph "part_of" projectName "finding" in
      let themes := sourcesOf graph "part_of" projectName "theme" in
      ret (ProjectOverview.mk project researchQuestions methodologyObs
             (length participants) (length interviews) (length observations)
             (length documents) participants interviews observations documents
             (length themes) themes findings)
  end.

Module MethodologyDetails.
Record t := mk {
  project : Entity;
  methodology : list string;
  participants : nat;
  interviews : nat;
  observations : nat;
  documents : nat;
  memos : list Entity;
  literature : list Entity
}.
End MethodologyDetails.

(** The memos pushed by the loop of [getMethodologyDetails]: found by
    name and type, and kept when one of their observations mentions a
    keyword. *)
Definition methodologyMemos (g : KnowledgeGraph) (projectName : string) : list Entity :=
  collectVia g (fun relation => relationType relation = "reflects_on" /\ to relation = projectName)
    (fun relation =>
       match findTyped g "memo" (from relation) with
       | Some memo =>
           if existsb (mentionsAny ["method"; "approach"; "sampling"; "analysis"])
                      (observations memo)
           then Some memo else None
       | None => None
       end).

Definition getMethodologyDetails (projectName : string) : M MethodologyDetails.t :=
  let! graph := loadGraph in
  match findTyped graph "project" projectName with
  | None => throw (ProjectNotFound projectName)
  | Some project =>
      let methodologyObs :=
        filter (fun o => mentionsAny ["method"; "approach"; "sampling"; "analysis";
                                      "validity"; "reliability"] o = true)
               (observations project) in
      let memos := methodologyMemos graph projectName in
      let interviews := sourcesOf graph "part_of" projectName "interview" in
      let observations := sourcesOf graph "part_of" projectName "observation" in
      let documents := sourcesOf graph "part_of" projectName "document" in
      let participants := sourcesOf graph "part_of" projectName "participant" in
      let literature := targetsOf graph "cites" projectName "literature" in
      ret (MethodologyDetails.mk project methodologyObs
             (length participants) (length interviews) (length observations)
             (length documents) memos literature)
  end.

Module ThematicAnalysis.
Record codeData := mkCodeData {
  code : Entity;
  quotes : list Entity
}.
Record themeData := mkThemeData {
  theme : Entity;
  status : string;
  supportingData : list codeData;
  codes : list Entity;
  memos : list Entity
}.
Record t := mk {
  project : Entity;
  themes : list themeData
}.
End ThematicAnalysis.

(** [statusObs ? statusObs.split(':')[1].trim() : 'unknown']. An
    observation that starts with [Status:] contains a colon, so the
    split has an element of index 1 (see [statusObservation_has_segment]);
    the branch without one is never taken. *)
Definition themeStatus (theme : Entity) : string :=
  match List.find (Str.startsWith "Status:") (observations theme) with
  | Some statusObs =>
      match Str.splitOn ":" statusObs !! 1%nat with
      | Some segment => Str.trim segment
      | None => "unknown"
      end
  | None => "unknown"
  end.

Definition themeAnalysis (g : KnowledgeGraph) (theme : Entity) : ThematicAnalysis.themeData :=
  let supportingCodes := sourcesOf g "supports" (name theme) "code" in
  let codeData :=
    (fun code => ThematicAnalysis.mkCodeData code (targetsOf g "codes" (name code) "quote"))
      <$> supportingCodes in
  let memos := sourcesOf g "reflects_on" (name theme) "memo" in
  ThematicAnalysis.mkThemeData theme (themeStatus theme) codeData supportingCodes memos.

Definition getThematicAnalysis (projectName : string) : M ThematicAnalysis.t :=
  let! graph := loadGraph in
  match findTyped graph "project" projectName with
  | None => throw (ProjectNotFound projectName)
  | Some project =>
      let themes := sourcesOf graph "part_of" projectName "theme" in
      ret (ThematicAnalysis.mk project (themeAnalysis graph <$> themes))
  end.

Module CodedData.
Record t := mk {
  code : Entity;
  codeGroups : list Entity;
  quotes : list Entity;
  sourceCount : nat;
  sources : list Entity;
  themes : list Entity;
  memos : list Entity
}.
End CodedData.

(** [map.set(k, v)] on a [Map] kept in insertion order: a present key
    keeps its place and takes the new value. *)
Fixpoint mapSet (k : string) (v : Entity) (m : list (string * Entity))
  : list (string * Entity) :=
  match m with
  | [] => [(k, v)]
  | (k', v') :: r =>
      if decide (k' = k) then (k', v) :: r else (k', v') :: mapSet k v r
  end.

(** The inner loop over the relations, for one quote, of the search for
    the sources of a code's quotes. *)
Definition sourcesOfQuote (g : KnowledgeGraph) (codeName : string)
    (m : list (string * Entity)) (quote : Entity) : list (string * Entity) :=
  fold_left (fun m relation =>
    if decide (relationType relation = "contains" /\ from relation <> codeName /\
               to relation = name quote)
    then match findNamed g (from relation) with
         | Some source => mapSet (name source) source m
         | None => m
         end
    else m) (relations g) m.

Definition getCodedData (codeName : string) : M CodedData.t :=
  let! graph := loadGraph in
  match findTyped graph "code" codeName with
  | None => throw (CodeNotFound codeName)
  | Some code =>
      let codeGroups := sourcesOf graph "contains" codeName "codeGroup" in
      let quotes := targetsOf graph "codes" codeName "quote" in
      let sources := fold_left (sourcesOfQuote graph codeName) quotes [] in
      let themes := targetsOf graph "supports" codeName "theme" in
      let memos := sourcesOf graph "reflects_on" codeName "memo" in
      ret (CodedData.mk code codeGroups quotes (length sources) (snd <$> sources)
             themes memos)
  end.

Module QuestionAnalysis.
Record questionData := mkQuestionData {
  question : Entity;
  findings : list Entity;
  themes : list Entity;
  quotes : list Entity
}.
Record t := mk {
  project : Entity;
  researchQuestions : list questionData
}.
End QuestionAnalysis.

Definition questionAnalysis (g : KnowledgeGraph) (question : Entity)
  : QuestionAnalysis.questionData :=
  QuestionAnalysis.mkQuestionData question
    (sourcesOf g "answers" (name question) "finding")
    (sourcesOf g "answers" (name question) "theme")
    (sourcesOf g "answers" (name question) "quote").

Definition getResearchQuestionAnalysis (projectName : string) : M QuestionAnalysis.t :=
  let! graph := loadGraph in
  match findTyped graph "project" projectName with
  | None => throw (ProjectNotFound projectName)
  | Some project =>
      let researchQuestions := sourcesOf graph "part_of" projectName "researchQuestion" in
      ret (QuestionAnalysis.mk project (questionAnalysis graph <$> researchQuestions))
  end.

Module MemosByFocus.
Record t := mk {
  entity : Entity;
  memos : list Entity
}.
End MemosByFocus.

Definition isMemoDateObservation (o : string) : bool :=
  Str.startsWith "Date:" o || Str.startsWith "Created:" o.

Section MemoDates.
(** [new Date(text).getTime()] of the host, as for the chronology. *)
Variable parseDate : string -> option Z.

(** The date of a memo; as in [entityDate], the branch without a second
    segment is never taken. *)
Definition memoDate (memo : Entity) : Z :=
  match List.find isMemoDateObservation (observations memo) with
  | Some dateObs =>
      match Str.splitOn ":" dateObs !! 1%nat with
      | Some segment =>
          match parseDate (Str.trim segment) with
          | Some parsed => parsed
          | None => 0%Z
          end
      | None => 0%Z
      end
  | None => 0%Z
  end.

Definition byDateDesc (a b : Entity * Z) : Z := (snd b - snd a)%Z.

Definition getMemosByFocus (entityName : string) : M MemosByFocus.t :=
  let! graph := loadGraph in
  match findNamed graph entityName with
  | None => throw (EntityNotFound entityName)
  | Some entity =>
      let memos := sourcesOf graph "reflects_on" entityName "memo" in
      let memosWithDates := (fun memo => (memo, memoDate memo)) <$> memos in
      ret (MemosByFocus.mk entity (fst <$> sortWith byDateDesc memosWithDates))
  end.
End MemoDates.

(** ** Names without a colon *)

(** No code unit of [s] is a colon. *)
Fixpoint colonFree (s : string) : bool :=
  match s with
  | EmptyString => true
  | String c r => negb (Ascii.eqb c ":") && colonFree r
  end.

(** ** The map of the sources of a code's quotes *)

(** The map holds, under each key, the entity that [find] reaches under
    that name. *)
Definition keyedByName (g : KnowledgeGraph) (m : list (string * Entity)) : Prop :=
  NoDup (fst <$> m) /\ forall k v, (k, v) ∈ m -> findNamed g k = Some v.

(** The test of the inner loop: a [contains] relation to the quote that
    does not start at the code. *)
Definition sourceLink (codeName : string) (quote : Entity) (r : Relation) : Prop :=
  relationType r = "contains" /\ from r <> codeName /\ to r = name quote.

(** ** Types within the enumerations *)

(** Every stored entity and relation has a type of its enumeration. *)
Definition typesValid (g : KnowledgeGraph) : Prop :=
  Forall (fun e => validateEntityType (entityType e) = true) (entities g) /\
  Forall (fun r => validateRelationType (relationType r) = true) (relations g).

(** ** A date with a time of day *)

(** An interview of 5 January, 10:30, and one of 1 January. *)
Definition timestampScenario : KnowledgeGraph :=
  mkGraph [mkEntity "Study" "project" [];
           mkEntity "I1" "interview" ["Date: 2024-01-05T10:30:00Z"];
           mkEntity "I2" "interview" ["Date: 2024-01-01"]]
          [mkRelation "I1" "Study" "part_of"; mkRelation "I2" "Study" "part_of"].
(** ** Worked examples *)

Example createEntities_ex :
  createEntities [mkEntity "A" "code" []; mkEntity "B" "code" ["x"]]
    (FileGraph (mkGraph [mkEntity "A" "theme" []] []))
  = (Ok [mkEntity "B" "code" ["x"]],
     FileGraph (mkGraph [mkEntity "A" "theme" []; mkEntity "B" "code" ["x"]] [])).
Proof. vm_compute. reflexivity. Qed.

Example setEntityStatus_ex :
  (do! setEntityStatus "X" "draft" in do! setEntityStatus "X" "final" in getEntityStatus "X")
    FileAbsent
  = (Ok (JStr "final"), FileGraph (mkGraph [] [mkRelation "X" "status:final" "has_status"])).
Proof. vm_compute. reflexivity. Qed.

Example addObservations_ex :
  addObservations [mkObsInput "A" ["x"; "y"; "x"]; mkObsInput "A" ["y"; "z"]]
    (FileGraph (mkGraph [mkEntity "A" "theme" ["y"]] []))
  = (Ok [mkObsResult "A" ["x"; "x"]; mkObsResult "A" ["z"]],
     FileGraph (mkGraph [mkEntity "A" "theme" ["y"; "x"; "x"; "z"]] [])).
Proof. vm_compute. reflexivity. Qed.

Example splitWs_ex :
  Str.splitWs " Alpha  beta " = [""; "Alpha"; "beta"; ""] /\ Str.splitWs "" = [""]
  /\ Str.splitWs "  " = [""; ""].
Proof. vm_compute. auto. Qed.

Example isoDate_ex :
  IsoDate.parse "2024-01-01" = Some 1704067200000%Z /\
  IsoDate.parse "2024-01-05" = Some 1704412800000%Z /\
  IsoDate.parse "1970-01-01" = Some 0%Z /\ IsoDate.parse "soon" = None.
Proof. vm_compute. auto. Qed.

Example searchNodes_ex :
  searchNodes "alpha beta"
    (FileGraph (mkGraph [mkEntity "Alpha" "code" ["mentions beta"]; mkEntity "Beta" "code" []] []))
  = (Ok (mkGraph [mkEntity "Alpha" "code" ["mentions beta"]] []),
     FileGraph (mkGraph [mkEntity "Alpha" "code" ["mentions beta"]; mkEntity "Beta" "code" []] [])).
Proof. vm_compute. reflexivity. Qed.

(** ** Membership tests *)

Lemma has_true (S : gset string) x : has S x = true <-> x ∈ S.
Proof. unfold has. apply bool_decide_eq_true. Qed.

Lemma has_false (S : gset string) x : has S x = false <-> x ∉ S.
Proof. unfold has. apply bool_decide_eq_false. Qed.

Lemma in_nameSet es n : n ∈ nameSet es <-> n ∈ name <$> es.
Proof. unfold nameSet. apply elem_of_list_to_set. Qed.

Lemma arrIncludes_true xs x : arrIncludes xs x = true <-> x ∈ xs.
Proof. unfold arrIncludes. apply bool_decide_eq_true. Qed.

Lemma arrIncludes_false xs x : arrIncludes xs x = false <-> x ∉ xs.
Proof. unfold arrIncludes. apply bool_decide_eq_false. Qed.

Lemma arrSome_true {A} (P : A -> Prop) `{forall x, Decision (P x)} l :
  arrSome P l = true <-> exists x, x ∈ l /\ P x.
Proof. unfold arrSome. rewrite bool_decide_eq_true. apply Exists_exists. Qed.

Lemma arrSome_false {A} (P : A -> Prop) `{forall x, Decision (P x)} l :
  arrSome P l = false <-> forall x, x ∈ l -> ~ P x.
Proof.
  unfold arrSome. rewrite bool_decide_eq_false, <- Forall_Exists_neg.
  apply Forall_forall.
Qed.

(** ** Loops that only validate *)

Lemma firstError_None {A} (chk : A -> option error) xs :
  firstError chk xs = None <-> forall x, x ∈ xs -> chk x = None.
Proof.
  induction xs as [|x r IH]; simpl.
  - split; [intros _ y Hy; inversion Hy | reflexivity].
  - destruct (chk x) eqn:E.
    + split; [discriminate|]. intros Hall.
      rewrite <- E. apply Hall. left.
    + rewrite IH. split.
      * intros Hr y Hy. apply elem_of_cons in Hy as [->|Hy]; auto.
      * intros Hall y Hy. apply Hall. now right.
Qed.

Lemma firstError_Some {A} (chk : A -> option error) xs e :
  firstError chk xs = Some e -> exists x, x ∈ xs /\ chk x = Some e.
Proof.
  induction xs as [|x r IH]; simpl; [discriminate|].
  destruct (chk x) eqn:E.
  - intros [= <-]. exists x. split; [left | assumption].
  - intros Hr. destruct (IH Hr) as (y & Hy & Hc). exists y. split; [now right | assumption].
Qed.

Lemma forEach_validate {A} (chk : A -> option error) (f : A -> M unit) xs s :
  (forall x s, f x s = match chk x with None => (Ok tt, s) | Some e => (Err e, s) end) ->
  forEach f xs s = match firstError chk xs with
                   | None => (Ok tt, s)
                   | Some e => (Err e, s)
                   end.
Proof.
  intros Hf. induction xs as [|x r IH]; simpl; [reflexivity|].
  unfold bind. rewrite Hf. destruct (chk x); [reflexivity | apply IH].
Qed.

Lemma relationError_None names r :
  relationError names r = None <->
  from r ∈ names /\ to r ∈ names /\ validateRelationType (relationType r) = true.
Proof.
  unfold relationError.
  destruct (has names (from r)) eqn:E1; simpl.
  2:{ apply has_false in E1. split; [discriminate | tauto]. }
  destruct (has names (to r)) eqn:E2; simpl.
  2:{ apply has_false in E2. split; [discriminate | tauto]. }
  apply has_true in E1, E2.
  destruct (validateRelationType (relationType r)); simpl; split; auto.
  - discriminate.
  - intros (_ & _ & ?); discriminate.
Qed.

(** What the three create operations compute, with the validation loop
    replaced by its outcome. *)
Lemma createEntities_unfold es s :
  createEntities es s =
  let graph := loadGraphOf s in
  match firstError entityTypeError es with
  | Some e => (Err e, s)
  | None =>
      let newEntities :=
        filter (fun entity => has (nameSet (entities graph)) (name entity) = false) es in
      (Ok newEntities, FileGraph (mkGraph (entities graph ++ newEntities) (relations graph)))
  end.
Proof.
  unfold createEntities, bind, loadGraph; simpl.
  rewrite (forEach_validate entityTypeError).
  - destruct (firstError entityTypeError es); reflexivity.
  - intros x s0. unfold entityTypeError.
    destruct (validateEntityType (entityType x)); reflexivity.
Qed.

Lemma createRelations_unfold rs s :
  createRelations rs s =
  let graph := loadGraphOf s in
  match firstError (relationError (nameSet (entities graph))) rs with
  | Some e => (Err e, s)
  | None =>
      let existingRelations : gset string := list_to_set (relationKey <$> relations graph) in
      let newRelations := filter (fun r => has existingRelations (relationKey r) = false) rs in
      (Ok newRelations, FileGraph (mkGraph (entities graph) (relations graph ++ newRelations)))
  end.
Proof.
  unfold createRelations, bind, loadGraph; simpl.
  rewrite (forEach_validate (relationError (nameSet (entities (loadGraphOf s))))).
  - destruct (firstError _ rs); reflexivity.
  - intros x s0. unfold relationError.
    destruct (has _ (from x)); simpl; [|reflexivity].
    destruct (has _ (to x)); simpl; [|reflexivity].
    destruct (validateRelationType (relationType x)); reflexivity.
Qed.

(** The loop of [addObservations] never touches the store file. *)
Lemma addObservationsStep_store st o s : snd (addObservationsStep st o s) = s.
Proof.
  unfold addObservationsStep. destruct st as [g res].
  destruct (list_find _ (entities g)) as [[i e]|]; reflexivity.
Qed.

Lemma forOf_store {A S} (f : S -> A -> M S) xs st s :
  (forall st x s, snd (f st x s) = s) -> snd (forOf f xs st s) = s.
Proof.
  intros Hf. revert st. induction xs as [|x r IH]; intros st; simpl; [reflexivity|].
  unfold bind. specialize (Hf st x s). destruct (f st x s) as [[st'|e] s']; simpl in *; subst.
  - apply IH.
  - reflexivity.
Qed.

Lemma addObservations_unfold obs s :
  addObservations obs s =
  match fst (forOf addObservationsStep obs (loadGraphOf s, []) s) with
  | Ok st => (Ok (snd st), FileGraph (fst st))
  | Err e => (Err e, s)
  end.
Proof.
  unfold addObservations, bind, loadGraph; simpl.
  pose proof (forOf_store addObservationsStep obs (loadGraphOf s, []) s addObservationsStep_store) as Hs.
  destruct (forOf addObservationsStep obs (loadGraphOf s, []) s) as [[st|e] s']; simpl in *; subst;
    reflexivity.
Qed.

(** ** Deleting entities *)

Lemma filter_all {A} (P : A -> Prop) `{forall x, Decision (P x)} (l : list A) :
  (forall x, x ∈ l -> P x) -> filter P l = l.
Proof.
  induction l as [|x r IH]; intros Hall; [reflexivity|].
  rewrite filter_cons_True by (apply Hall; left).
  f_equal. apply IH. intros y Hy. apply Hall. now right.
Qed.

Lemma filter_ext_elem {A} (P Q : A -> Prop)
    `{forall x, Decision (P x)} `{forall x, Decision (Q x)} (l : list A) :
  (forall x, x ∈ l -> (P x <-> Q x)) -> filter P l = filter Q l.
Proof.
  induction l as [|x r IH]; intros Hall; [reflexivity|].
  assert (Hr : filter P r = filter Q r).
  { apply IH. intros y Hy. apply Hall. now right. }
  rewrite !filter_cons, Hr.
  destruct (decide (P x)) as [HP|HP], (decide (Q x)) as [HQ|HQ]; try reflexivity;
    exfalso; apply (Hall x (list_elem_of_here _ _)) in HP || apply HP, (Hall x (list_elem_of_here _ _)); tauto.
Qed.

Lemma deleteEntities_unfold names s :
  deleteEntities names s =
  (Ok tt, FileGraph (mkGraph
     (filter (fun e => name e ∉ names) (entities (loadGraphOf s)))
     (filter (fun r => (from r ∉ names) /\ (to r ∉ names)) (relations (loadGraphOf s))))).
Proof.
  unfold deleteEntities, bind, loadGraph, saveGraph; simpl.
  do 3 f_equal.
  - apply list_filter_iff. intros e. apply arrIncludes_false.
  - apply list_filter_iff. intros r. now rewrite !arrIncludes_false.
Qed.

(** C3, as the code has it. [deleteEntities] never raises; it keeps, unchanged and in order,
    exactly the entities whose name is not listed and exactly the
    relations neither of whose endpoints is listed. Names borne by no
    entity change nothing among the entities (they can be dropped from
    the list), and nothing at all exactly when no relation has one of
    them as an endpoint, as in every graph without dangling
    relations. *)
Theorem deleteEntities_cascade (names : list string) (s : store) :
  let g := loadGraphOf s in
  exists g',
    deleteEntities names s = (Ok tt, FileGraph g') /\
    entities g' = filter (fun e => name e ∉ names) (entities g) /\
    relations g' = filter (fun r => (from r ∉ names) /\ (to r ∉ names)) (relations g) /\
    (forall e, e ∈ entities g' <-> (e ∈ entities g) /\ (name e ∉ names)) /\
    (forall r, r ∈ relations g' <->
               (r ∈ relations g) /\ (from r ∉ names) /\ (to r ∉ names)) /\
    sublist (entities g') (entities g) /\
    (forall unknown,
        (forall n, n ∈ unknown -> n ∉ (name <$> entities g)) ->
        exists g'',
          deleteEntities (names ++ unknown) s = (Ok tt, FileGraph g'') /\
          entities g'' = entities g' /\
          ((forall r, r ∈ relations g -> (from r ∉ unknown) /\ (to r ∉ unknown)) -> g'' = g')) /\
    ((forall n, n ∈ names -> n ∉ (name <$> entities g)) ->
     entities g' = entities g /\
     ((forall r, r ∈ relations g ->
                 (from r ∈ (name <$> entities g)) /\ (to r ∈ (name <$> entities g))) ->
      g' = g) /\
     ((forall r, r ∈ relations g -> (from r ∉ names) /\ (to r ∉ names)) <-> g' = g)).
Proof.
  intros g. eexists. split; [apply deleteEntities_unfold|]. fold g. simpl.
  split; [reflexivity|]. split; [reflexivity|].
  split; [intros e; rewrite list_elem_of_filter; tauto|].
  split; [intros r; rewrite list_elem_of_filter; tauto|].
  split; [apply sublist_filter|].
  split.
  - intros unknown Hunk. eexists. split; [apply deleteEntities_unfold|]. fold g. simpl.
    assert (He : filter (fun e => name e ∉ names ++ unknown) (entities g)
                 = filter (fun e => name e ∉ names) (entities g)).
    { apply filter_ext_elem. intros e He. rewrite not_elem_of_app.
      split; [tauto|]. intros Hn. split; [exact Hn|].
      intros Hu. apply (Hunk _ Hu). apply list_elem_of_fmap. now exists e. }
    split; [exact He|].
    intros Hrel. rewrite He. f_equal.
    apply filter_ext_elem. intros r Hr. rewrite !not_elem_of_app.
    destruct (Hrel r Hr). tauto.
  - intros Hnone.
    assert (He : filter (fun e => name e ∉ names) (entities g) = entities g).
    { apply filter_all. intros e He Hn. apply (Hnone _ Hn).
      apply list_elem_of_fmap. now exists e. }
    split; [exact He|]. split.
    + intros Hwf. rewrite He.
      rewrite filter_all; [now destruct g|].
      intros r Hr. destruct (Hwf r Hr) as [Hf Ht].
      split; intros Hn; eapply Hnone; eauto.
    + rewrite He. split.
      * intros Hfree. rewrite filter_all by exact Hfree. now destruct g.
      * intros Hsame r Hr.
        assert (Hrels : filter (fun r => (from r ∉ names) /\ (to r ∉ names)) (relations g)
                        = relations g) by now rewrite <- Hsame at 2.
        rewrite <- Hrels in Hr. now apply list_elem_of_filter in Hr as [Hok _].
Qed.

Lemma deleteEntities_cascade_witness :
  let g := mkGraph [mkEntity "A" "code" ["a1"]; mkEntity "B" "quote" ["b1"; "b2"]]
                   [mkRelation "A" "B" "codes"] in
  deleteEntities ["A"] (FileGraph g)
    = (Ok tt, FileGraph (mkGraph [mkEntity "B" "quote" ["b1"; "b2"]] [])) /\
  deleteEntities ["Ghost"] (FileGraph g) = (Ok tt, FileGraph g).
Proof.
  intros g. split.
  - destruct (deleteEntities_cascade ["A"] (FileGraph g)) as (g' & Hrun & He & Hr & _).
    rewrite Hrun. destruct g' as [es rs]. simpl in He, Hr. rewrite He, Hr.
    vm_compute. reflexivity.
  - destruct (deleteEntities_cascade ["Ghost"] (FileGraph g))
      as (g' & Hrun & _ & _ & _ & _ & _ & _ & Hnoop).
    destruct Hnoop as (_ & Hsame & _).
    + apply Forall_forall. repeat constructor. compute_done.
    + rewrite Hrun, Hsame; [reflexivity|].
      apply Forall_forall. repeat constructor; compute_done.
Defined.

(** C3, as stated, fails on a graph with a dangling relation: a name
    that no entity bears takes with it the relation that ends on it. *)
Lemma deleteEntities_unknown_name_removes_relation :
  ~ (forall s names,
       (forall n, n ∈ names -> n ∉ (name <$> entities (loadGraphOf s))) ->
       loadGraphOf (snd (deleteEntities names s)) = loadGraphOf s).
Proof.
  intros Hall.
  specialize (Hall (perform (SetEntityStatus "Ghost" "draft") FileAbsent) ["Ghost"]).
  assert (Hunknown : forall n, n ∈ ["Ghost"] ->
            n ∉ (name <$> entities (loadGraphOf
                                      (perform (SetEntityStatus "Ghost" "draft") FileAbsent)))).
  { intros n _ Hn. vm_compute in Hn. inversion Hn. }
  specialize (Hall Hunknown). vm_compute in Hall. discriminate Hall.
Qed.

(** ** Loading the store *)

(** C9. [loadGraph] absorbs every failure of the read, not only a
    missing file: a corrupt or unreadable store file is answered with
    the empty graph, where the contract of the store, and the sibling
    [loadSessionStates], rethrow. *)
Theorem loadGraph_absorbs_every_read_failure :
  loadGraph FileAbsent = (Ok emptyGraph, FileAbsent) /\
  loadGraph FileCorrupt = (Ok emptyGraph, FileCorrupt) /\
  loadGraph FileUnreadable = (Ok emptyGraph, FileUnreadable) /\
  loadGraphEnoentOnly FileCorrupt = (Err SyntaxError, FileCorrupt) /\
  loadGraphEnoentOnly FileUnreadable = (Err IOError, FileUnreadable) /\
  kindOf SyntaxError = StorageError /\ kindOf IOError = StorageError /\
  (forall s, exists g, loadGraph s = (Ok g, s)).
Proof.
  repeat split; try reflexivity.
  intros s. exists (loadGraphOf s). reflexivity.
Qed.

(** ** Rejected batches *)

Lemma entityTypeError_kind x e : entityTypeError x = Some e -> kindOf e = ValidationError.
Proof.
  unfold entityTypeError. destruct (validateEntityType _); [discriminate|].
  now intros [= <-].
Qed.

Lemma relationError_kind names x e :
  relationError names x = Some e -> kindOf e = NotFoundError \/ kindOf e = ValidationError.
Proof.
  unfold relationError.
  destruct (negb (has names (from x))); [intros [= <-]; now left|].
  destruct (negb (has names (to x))); [intros [= <-]; now left|].
  destruct (negb (validateRelationType _)); [intros [= <-]; now right | discriminate].
Qed.

Lemma forOf_addObservations_missing obs st s n :
  n ∈ (entityName <$> obs) -> n ∉ (name <$> entities (fst st)) ->
  exists m, fst (forOf addObservationsStep obs st s) = Err (EntityNotFound m).
Proof.
  revert st. induction obs as [|o r IH]; intros [g res] Hin Hmiss; simpl in *.
  - inversion Hin.
  - unfold bind, addObservationsStep at 1.
    destruct (list_find _ (entities g)) as [[i e]|] eqn:Hfind; simpl.
    + apply elem_of_cons in Hin as [->|Hin].
      * exfalso. apply list_find_Some in Hfind as (Hi & Hn & _).
        apply Hmiss. apply list_elem_of_fmap. exists e.
        split; [now symmetry | eapply list_elem_of_lookup_2; eauto].
      * apply IH; [assumption|]. simpl.
        rewrite list_fmap_insert. simpl.
        apply list_find_Some in Hfind as (Hi & Hn & _).
        rewrite list_insert_id; [assumption|].
        rewrite list_lookup_fmap, Hi. reflexivity.
    + eexists. reflexivity.
Qed.

Lemma forOf_addObservations_error obs st s e :
  fst (forOf addObservationsStep obs st s) = Err e -> kindOf e = NotFoundError.
Proof.
  revert st. induction obs as [|o r IH]; intros st; simpl; [discriminate|].
  unfold bind, addObservationsStep at 1. destruct st as [g0 res].
  destruct (list_find _ (entities g0)) as [[i x]|]; simpl.
  - apply IH.
  - now intros [= <-].
Qed.

(** C4. A create or add operation that raises leaves the store file as
    it was: [createEntities] raises a validation error exactly when some
    entity type is outside the enumeration, [createRelations] a
    not-found or validation error exactly when some endpoint is missing
    or some relation type is outside the enumeration, [addObservations]
    a not-found error whenever some target entity is missing, wherever
    in the batch; and nothing was written in any of these cases. *)
Theorem rejected_batch_leaves_store_unchanged (s : store) :
  let g := loadGraphOf s in
  (forall es e s', createEntities es s = (Err e, s') ->
      s' = s /\ kindOf e = ValidationError) /\
  (forall es, (exists x, x ∈ es /\ validateEntityType (entityType x) = false) ->
      exists e, createEntities es s = (Err e, s) /\ kindOf e = ValidationError) /\
  (forall rs e s', createRelations rs s = (Err e, s') ->
      s' = s /\ (kindOf e = NotFoundError \/ kindOf e = ValidationError)) /\
  (forall rs, (exists r, r ∈ rs /\
                 (from r ∉ (name <$> entities g) \/ to r ∉ (name <$> entities g) \/
                  validateRelationType (relationType r) = false)) ->
      exists e, createRelations rs s = (Err e, s) /\
                (kindOf e = NotFoundError \/ kindOf e = ValidationError)) /\
  (forall obs e s', addObservations obs s = (Err e, s') ->
      s' = s /\ kindOf e = NotFoundError) /\
  (forall obs, (exists o, o ∈ obs /\ entityName o ∉ (name <$> entities g)) ->
      exists e, addObservations obs s = (Err e, s) /\ kindOf e = NotFoundError).
Proof.
  intros g. repeat split.
  - rewrite createEntities_unfold in H. simpl in H.
    destruct (firstError entityTypeError es); now inversion H.
  - rewrite createEntities_unfold in H. simpl in H.
    destruct (firstError entityTypeError es) eqn:E; inversion H; subst.
    apply firstError_Some in E as (x & _ & Hx). eapply entityTypeError_kind; eauto.
  - intros es (x & Hx & Hbad). rewrite createEntities_unfold. simpl.
    destruct (firstError entityTypeError es) eqn:E.
    + eexists. split; [reflexivity|].
      apply firstError_Some in E as (y & _ & Hy). eapply entityTypeError_kind; eauto.
    + exfalso. rewrite firstError_None in E. specialize (E x Hx).
      unfold entityTypeError in E. rewrite Hbad in E. discriminate.
  - rewrite createRelations_unfold in H. simpl in H.
    destruct (firstError _ rs); now inversion H.
  - rewrite createRelations_unfold in H. simpl in H.
    destruct (firstError _ rs) eqn:E; inversion H; subst.
    apply firstError_Some in E as (x & _ & Hx). eapply relationError_kind; eauto.
  - intros rs (r & Hr & Hbad). rewrite createRelations_unfold. simpl.
    destruct (firstError _ rs) eqn:E.
    + eexists. split; [reflexivity|].
      apply firstError_Some in E as (y & _ & Hy). eapply relationError_kind; eauto.
    + exfalso. rewrite firstError_None in E. specialize (E r Hr).
      apply relationError_None in E as (Hf & Ht & Hv).
      rewrite in_nameSet in Hf, Ht. fold g in Hf, Ht.
      destruct Hbad as [Hb|[Hb|Hb]]; [tauto | tauto | congruence].
  - rewrite addObservations_unfold in H.
    destruct (fst (forOf _ _ _ _)); now inversion H.
  - rewrite addObservations_unfold in H.
    destruct (fst (forOf addObservationsStep obs (loadGraphOf s, []) s)) eqn:E;
      inversion H; subst e0.
    eapply forOf_addObservations_error; eauto.
  - intros obs (o & Ho & Hmiss). rewrite addObservations_unfold.
    destruct (forOf_addObservations_missing obs (loadGraphOf s, []) s (entityName o))
      as [m Hm]; [apply list_elem_of_fmap; now exists o | exact Hmiss |].
    rewrite Hm. eexists. split; reflexivity.
Qed.

Lemma rejected_batch_leaves_store_unchanged_witness :
  let s := FileGraph (mkGraph [mkEntity "Alpha" "code" []] []) in
  (exists e, createEntities [mkEntity "B" "code" []; mkEntity "C" "gadget" []] s = (Err e, s)
             /\ kindOf e = ValidationError) /\
  (exists e, createRelations [mkRelation "Ghost" "Alpha" "related_to"] s = (Err e, s)
             /\ (kindOf e = NotFoundError \/ kindOf e = ValidationError)) /\
  (exists e, addObservations [mkObsInput "Alpha" ["x"]; mkObsInput "Ghost" ["y"]] s = (Err e, s)
             /\ kindOf e = NotFoundError).
Proof.
  intros s.
  destruct (rejected_batch_leaves_store_unchanged s) as (_ & H1 & _ & H2 & _ & H3).
  split; [|split].
  - apply H1. exists (mkEntity "C" "gadget" []). split; [compute_done | reflexivity].
  - apply H2. exists (mkRelation "Ghost" "Alpha" "related_to").
    split; [compute_done|]. left. compute_done.
  - apply H3. exists (mkObsInput "Ghost" ["y"]). split; compute_done.
Defined.

(** ** Insert-if-absent *)

Lemma list_find_insert_same {A} (P : A -> Prop) `{forall x, Decision (P x)}
    (l : list A) i (e e' : A) :
  l !! i = Some e -> (P e <-> P e') ->
  list_find P (<[i := e']> l) =
  (fun p => (fst p, if decide (fst p = i) then e' else snd p)) <$> list_find P l.
Proof.
  revert i. induction l as [|x r IH]; intros i Hi Hiff; [discriminate|].
  destruct i as [|i]; simpl in *.
  - injection Hi as ->.
    destruct (decide (P e)) as [HP|HP], (decide (P e')) as [HP'|HP'];
      try tauto; simpl; try reflexivity.
    destruct (list_find P r) as [[j y]|]; reflexivity.
  - destruct (decide (P x)); simpl; [reflexivity|].
    rewrite (IH i Hi Hiff).
    destruct (list_find P r) as [[j y]|]; simpl; [|reflexivity].
    destruct (decide (j = i)), (decide (S j = S i)); try reflexivity; lia.
Qed.

Lemma filter_none {A} (P : A -> Prop) `{forall x, Decision (P x)} (l : list A) :
  (forall x, x ∈ l -> ~ P x) -> filter P l = [].
Proof.
  induction l as [|x r IH]; intros Hall; [reflexivity|].
  rewrite filter_cons_False by (apply Hall; left).
  apply IH. intros y Hy. apply Hall. now right.
Qed.

Lemma forOf_cons {A S} (f : S -> A -> M S) x r st s :
  forOf f (x :: r) st s =
  match f st x s with
  | (Ok st', s') => forOf f r st' s'
  | (Err e, s') => (Err e, s')
  end.
Proof. reflexivity. Qed.


Lemma appendObservations_names n xs g :
  name <$> entities (appendObservations n xs g) = name <$> entities g.
Proof.
  unfold appendObservations.
  destruct (list_find _ (entities g)) as [[i e]|] eqn:Hfind; [|reflexivity]. simpl.
  apply list_find_Some in Hfind as (Hi & _ & _).
  rewrite list_fmap_insert. simpl. apply list_insert_id.
  now rewrite list_lookup_fmap, Hi.
Qed.

Lemma appendObservations_relations n xs g :
  relations (appendObservations n xs g) = relations g.
Proof.
  unfold appendObservations. now destruct (list_find _ (entities g)) as [[i e]|].
Qed.

Lemma observationsOf_append n xs g m :
  n ∈ (name <$> entities g) ->
  observationsOf (appendObservations n xs g) m =
  if decide (m = n) then observationsOf g n ++ xs else observationsOf g m.
Proof.
  intros Hin. unfold observationsOf, appendObservations.
  destruct (list_find (fun e => name e = n) (entities g)) as [[i e]|] eqn:Hfind.
  2:{ exfalso. apply list_find_None in Hfind.
      apply list_elem_of_fmap in Hin as (x & -> & Hx).
      rewrite Forall_forall in Hfind. now apply (Hfind x Hx). }
  simpl. pose proof Hfind as Hf. apply list_find_Some in Hf as (Hi & Hn & Hfirst).
  rewrite (list_find_insert_same _ _ i e) by (simpl; tauto || assumption).
  destruct (decide (m = n)) as [->|Hne].
  - rewrite Hfind. simpl. now rewrite decide_True.
  - destruct (list_find (fun e0 => name e0 = m) (entities g)) as [[j y]|] eqn:Hm;
      simpl; [|reflexivity].
    destruct (decide (j = i)) as [->|]; [|reflexivity].
    exfalso. apply list_find_Some in Hm as (Hj & Hy & _). congruence.
Qed.


Lemma addObservationsStep_ok g res o s :
  entityName o ∈ (name <$> entities g) ->
  addObservationsStep (g, res) o s =
  (Ok (appendObservations (entityName o) (freshObservations g o) g,
       res ++ [mkObsResult (entityName o) (freshObservations g o)]), s).
Proof.
  intros Hin.
  unfold addObservationsStep, appendObservations, freshObservations, observationsOf.
  destruct (list_find _ (entities g)) as [[i e]|] eqn:Hfind.
  - assert (Heq : filter (fun o0 => has (list_to_set (observations e)) o0 = false) (contents o)
                  = filter (fun x => x ∉ observations e) (contents o)).
    { apply list_filter_iff. intros x. rewrite has_false. now rewrite elem_of_list_to_set. }
    rewrite Heq. reflexivity.
  - exfalso. apply list_find_None in Hfind.
    apply list_elem_of_fmap in Hin as (x & Hx & Hxin).
    rewrite Forall_forall in Hfind. now apply (Hfind x Hxin).
Qed.

Lemma grows_refl g : grows g g.
Proof. split; auto. Qed.

Lemma grows_trans g1 g2 g3 : grows g1 g2 -> grows g2 g3 -> grows g1 g3.
Proof. intros [H1 H2] [H3 H4]. split; [congruence | auto]. Qed.

Lemma grows_append n xs g :
  n ∈ (name <$> entities g) -> grows g (appendObservations n xs g).
Proof.
  intros Hin. split; [apply appendObservations_names|].
  intros m x Hx. rewrite observationsOf_append by assumption.
  destruct (decide (m = n)) as [->|]; [|assumption].
  apply elem_of_app. now left.
Qed.

Lemma covers_after_step g o :
  entityName o ∈ (name <$> entities g) ->
  covers (appendObservations (entityName o) (freshObservations g o) g) o.
Proof.
  intros Hin x Hx. rewrite observationsOf_append by assumption.
  rewrite decide_True by reflexivity. apply elem_of_app.
  destruct (decide (x ∈ observationsOf g (entityName o))) as [Hold|Hnew]; [now left|].
  right. apply list_elem_of_filter. split; assumption.
Qed.


Lemma forOf_addObservations_ok obs g res s :
  (forall o, o ∈ obs -> entityName o ∈ (name <$> entities g)) ->
  exists delta,
    forOf addObservationsStep obs (g, res) s = (Ok (appendAdded delta g, res ++ delta), s) /\
    Forall2 (deltaFor g) obs delta /\
    grows g (appendAdded delta g) /\
    Forall (covers (appendAdded delta g)) obs.
Proof.
  revert g res. induction obs as [|o r IH]; intros g res Hin.
  - exists []. simpl. rewrite app_nil_r. repeat split; auto.
  - assert (Ho : entityName o ∈ (name <$> entities g)) by (apply Hin; left).
    set (g1 := appendObservations (entityName o) (freshObservations g o) g).
    assert (Hg1 : grows g g1) by (apply grows_append; exact Ho).
    destruct (IH g1 (res ++ [mkObsResult (entityName o) (freshObservations g o)]))
      as (delta & Hrun & Hdelta & Hgrow & Hcov).
    { intros o' Ho'. destruct Hg1 as [-> _]. apply Hin. now right. }
    exists (mkObsResult (entityName o) (freshObservations g o) :: delta).
    change (appendAdded (mkObsResult (entityName o) (freshObservations g o) :: delta) g)
      with (appendAdded delta g1).
    split; [|split; [|split]].
    + rewrite forOf_cons, addObservationsStep_ok by exact Ho. fold g1.
      rewrite Hrun. now rewrite <- app_assoc.
    + constructor.
      * split; [reflexivity|]. split; [apply sublist_filter|].
        intros x Hx Hadd. simpl in Hadd. apply list_elem_of_filter in Hadd. tauto.
      * eapply Forall2_impl; [exact Hdelta|].
        intros o' r' (Hn & Hsub & Hskip). split; [exact Hn|]. split; [exact Hsub|].
        intros x Hx. apply Hskip. now apply Hg1.
    + eapply grows_trans; eauto.
    + constructor; [|exact Hcov].
      intros x Hx. apply Hgrow. now apply (covers_after_step g o Ho).
Qed.


Lemma absent_names_filter ents (es : list Entity) :
  filter (fun entity => has (nameSet ents) (name entity) = false) es =
  filter (fun x => name x ∉ (name <$> ents)) es.
Proof.
  apply list_filter_iff. intros x. now rewrite has_false, in_nameSet.
Qed.

Lemma absent_keys_filter rels (rs : list Relation) :
  filter (fun r => has (list_to_set (relationKey <$> rels)) (relationKey r) = false) rs =
  filter (fun r => relationKey r ∉ (relationKey <$> rels)) rs.
Proof.
  apply list_filter_iff. intros x. now rewrite has_false, elem_of_list_to_set.
Qed.

Lemma entityTypes_valid es :
  (forall x, x ∈ es -> validateEntityType (entityType x) = true) ->
  firstError entityTypeError es = None.
Proof.
  intros Hv. apply firstError_None. intros x Hx. unfold entityTypeError.
  now rewrite (Hv x Hx).
Qed.

(** ** Status and priority *)

Lemma arrFind_head {A} (P : A -> Prop) `{forall x, Decision (P x)} (l : list A) :
  arrFind P l = head (filter P l).
Proof.
  unfold arrFind. induction l as [|x r IH]; [reflexivity|].
  rewrite filter_cons. simpl. destruct (decide (P x)); [reflexivity|].
  rewrite <- IH. now destruct (list_find P r) as [[i y]|].
Qed.

Lemma edges_after_replace n t x m u rels :
  filter (outgoing m u) (filter (fun r => ~ outgoing n t r) rels ++ [mkRelation n x t]) =
  if decide (m = n /\ u = t) then [mkRelation n x t] else filter (outgoing m u) rels.
Proof.
  rewrite filter_app, list_filter_filter.
  destruct (decide (m = n /\ u = t)) as [[-> ->]|Hne].
  - rewrite filter_none by (intros r _ [? ?]; tauto).
    now rewrite filter_cons_True by (split; reflexivity).
  - rewrite filter_cons_False by (unfold outgoing; simpl; intros [? ?]; apply Hne; split; congruence).
    rewrite filter_nil, app_nil_r.
    apply list_filter_iff. intros r. unfold outgoing. split; [tauto|].
    intros [Hf Ht]. split; [tauto|]. intros [Hf' Ht']. apply Hne. split; congruence.
Qed.

Lemma setEntityStatus_unfold n v s :
  setEntityStatus n v s =
  if decide (v ∈ VALID_STATUS_VALUES)
  then (Ok tt, FileGraph (mkGraph (entities (loadGraphOf s))
          (filter (fun r => ~ outgoing n "has_status" r) (relations (loadGraphOf s))
           ++ [mkRelation n (statusName v) "has_status"])))
  else (Err (InvalidStatusValue v), s).
Proof.
  unfold setEntityStatus, arrIncludes.
  destruct (decide (v ∈ VALID_STATUS_VALUES)) as [Hv|Hv].
  - now rewrite bool_decide_eq_true_2.
  - now rewrite bool_decide_eq_false_2.
Qed.

Lemma setEntityPriority_unfold n v s :
  setEntityPriority n v s =
  if decide (v ∈ VALID_PRIORITY_VALUES)
  then (Ok tt, FileGraph (mkGraph (entities (loadGraphOf s))
          (filter (fun r => ~ outgoing n "has_priority" r) (relations (loadGraphOf s))
           ++ [mkRelation n (priorityName v) "has_priority"])))
  else (Err (InvalidPriorityValue v), s).
Proof.
  unfold setEntityPriority, arrIncludes.
  destruct (decide (v ∈ VALID_PRIORITY_VALUES)) as [Hv|Hv].
  - now rewrite bool_decide_eq_true_2.
  - now rewrite bool_decide_eq_false_2.
Qed.

Lemma getEntityStatus_unfold n s :
  getEntityStatus n s =
  (Ok match statusEdges n (loadGraphOf s) with
      | [] => JNull
      | r :: _ => valueSegment (to r)
      end, s).
Proof.
  unfold getEntityStatus, bind, loadGraph, statusEdges, edgesFrom. simpl.
  rewrite arrFind_head.
  now destruct (filter _ (relations (loadGraphOf s))).
Qed.

Lemma getEntityPriority_unfold n s :
  getEntityPriority n s =
  (Ok match priorityEdges n (loadGraphOf s) with
      | [] => JNull
      | r :: _ => valueSegment (to r)
      end, s).
Proof.
  unfold getEntityPriority, bind, loadGraph, priorityEdges, edgesFrom. simpl.
  rewrite arrFind_head.
  now destruct (filter _ (relations (loadGraphOf s))).
Qed.

Lemma status_value_segment v :
  v ∈ VALID_STATUS_VALUES -> valueSegment (statusName v) = JStr v.
Proof.
  revert v. apply Forall_forall. repeat (constructor; [reflexivity|]). constructor.
Qed.

Lemma priority_value_segment v :
  v ∈ VALID_PRIORITY_VALUES -> valueSegment (priorityName v) = JStr v.
Proof.
  revert v. apply Forall_forall. repeat (constructor; [reflexivity|]). constructor.
Qed.

Lemma runSetter_singleValued s c :
  singleValued (loadGraphOf s) -> singleValued (loadGraphOf (runSetter s c)).
Proof.
  intros Hsv m. destruct (Hsv m) as [Hst Hpr].
  unfold statusEdges, priorityEdges, edgesFrom in *.
  destruct c as [n v|n v]; simpl.
  - rewrite setEntityStatus_unfold.
    destruct (decide (v ∈ VALID_STATUS_VALUES)); simpl; [|split; assumption].
    rewrite !edges_after_replace.
    split.
    + destruct (decide (m = n /\ "has_status" = "has_status")); [simpl; lia | assumption].
    + rewrite decide_False by (intros [_ ?]; discriminate). assumption.
  - rewrite setEntityPriority_unfold.
    destruct (decide (v ∈ VALID_PRIORITY_VALUES)); simpl; [|split; assumption].
    rewrite !edges_after_replace.
    split.
    + rewrite decide_False by (intros [_ ?]; discriminate). assumption.
    + destruct (decide (m = n /\ "has_priority" = "has_priority")); [simpl; lia | assumption].
Qed.

Lemma runSetters_singleValued calls s :
  singleValued (loadGraphOf s) -> singleValued (loadGraphOf (runSetters calls s)).
Proof.
  revert s. induction calls as [|c r IH]; intros s Hsv; [exact Hsv|].
  simpl. apply IH. now apply runSetter_singleValued.
Qed.

Lemma runSetter_edges s c m u :
  edgesFrom m u (loadGraphOf (runSetter s c)) = edgesFrom m u (loadGraphOf s) \/
  exists x, edgesFrom m u (loadGraphOf (runSetter s c)) = [mkRelation m x u].
Proof.
  unfold edgesFrom. destruct c as [n v|n v]; simpl.
  - rewrite setEntityStatus_unfold.
    destruct (decide (v ∈ VALID_STATUS_VALUES)); simpl; [|now left].
    rewrite edges_after_replace.
    destruct (decide (m = n /\ u = "has_status")) as [[-> ->]|]; [right; eauto | now left].
  - rewrite setEntityPriority_unfold.
    destruct (decide (v ∈ VALID_PRIORITY_VALUES)); simpl; [|now left].
    rewrite edges_after_replace.
    destruct (decide (m = n /\ u = "has_priority")) as [[-> ->]|]; [right; eauto | now left].
Qed.

Lemma runSetters_keep_one calls s m u :
  length (edgesFrom m u (loadGraphOf s)) = 1 ->
  length (edgesFrom m u (loadGraphOf (runSetters calls s))) = 1.
Proof.
  revert s. induction calls as [|c r IH]; intros s Hone; [exact Hone|].
  simpl. apply IH. destruct (runSetter_edges s c m u) as [->|[x ->]]; [exact Hone | reflexivity].
Qed.

Lemma runSetters_status_set calls s n v :
  SetStatus n v ∈ calls -> v ∈ VALID_STATUS_VALUES ->
  length (statusEdges n (loadGraphOf (runSetters calls s))) = 1.
Proof.
  revert s. induction calls as [|c r IH]; intros s Hin Hv; [inversion Hin|].
  apply elem_of_cons in Hin as [<-|Hin]; [|now apply IH].
  change (runSetters (SetStatus n v :: r) s)
    with (runSetters r (runSetter s (SetStatus n v))).
  apply runSetters_keep_one. unfold edgesFrom, runSetter.
  rewrite setEntityStatus_unfold, decide_True by exact Hv. simpl.
  now rewrite edges_after_replace, decide_True.
Qed.

Lemma runSetters_priority_set calls s n v :
  SetPriority n v ∈ calls -> v ∈ VALID_PRIORITY_VALUES ->
  length (priorityEdges n (loadGraphOf (runSetters calls s))) = 1.
Proof.
  revert s. induction calls as [|c r IH]; intros s Hin Hv; [inversion Hin|].
  apply elem_of_cons in Hin as [<-|Hin]; [|now apply IH].
  change (runSetters (SetPriority n v :: r) s)
    with (runSetters r (runSetter s (SetPriority n v))).
  apply runSetters_keep_one. unfold edgesFrom, runSetter.
  rewrite setEntityPriority_unfold, decide_True by exact Hv. simpl.
  now rewrite edges_after_replace, decide_True.
Qed.

(** C5. A setter called with a value outside its enumeration raises a
    validation error and writes nothing; otherwise it drops every
    outgoing edge of its type from the entity and appends the one edge to
    [status:<value>] (resp. [priority:<value>]), after which the entity
    has exactly that edge and the getter returns the value. The getter
    returns the value segment of the first such edge, or [null] when
    there is none. Hence, from a graph where every entity has at most one
    edge of each kind (the empty graph is one), every sequence of setter
    calls leads to such a graph; and from any graph, an entity whose
    status (resp. priority) was set validly in the sequence ends with
    exactly one such edge. *)
Theorem setters_keep_status_single_valued (s : store) (n : string) :
  let g := loadGraphOf s in
  (forall v, v ∉ VALID_STATUS_VALUES ->
      setEntityStatus n v s = (Err (InvalidStatusValue v), s) /\
      kindOf (InvalidStatusValue v) = ValidationError) /\
  (forall v, v ∉ VALID_PRIORITY_VALUES ->
      setEntityPriority n v s = (Err (InvalidPriorityValue v), s) /\
      kindOf (InvalidPriorityValue v) = ValidationError) /\
  (forall v, v ∈ VALID_STATUS_VALUES ->
      let edge := mkRelation n (statusName v) "has_status" in
      let s' := FileGraph (mkGraph (entities g)
                  (filter (fun r => ~ outgoing n "has_status" r) (relations g) ++ [edge])) in
      setEntityStatus n v s = (Ok tt, s') /\
      statusEdges n (loadGraphOf s') = [edge] /\
      getEntityStatus n s' = (Ok (JStr v), s')) /\
  (forall v, v ∈ VALID_PRIORITY_VALUES ->
      let edge := mkRelation n (priorityName v) "has_priority" in
      let s' := FileGraph (mkGraph (entities g)
                  (filter (fun r => ~ outgoing n "has_priority" r) (relations g) ++ [edge])) in
      setEntityPriority n v s = (Ok tt, s') /\
      priorityEdges n (loadGraphOf s') = [edge] /\
      getEntityPriority n s' = (Ok (JStr v), s')) /\
  getEntityStatus n s =
    (Ok match statusEdges n g with [] => JNull | r :: _ => valueSegment (to r) end, s) /\
  getEntityPriority n s =
    (Ok match priorityEdges n g with [] => JNull | r :: _ => valueSegment (to r) end, s) /\
  (forall calls, singleValued g -> singleValued (loadGraphOf (runSetters calls s))) /\
  (forall calls, singleValued (loadGraphOf (runSetters calls FileAbsent))) /\
  (forall calls v, SetStatus n v ∈ calls -> v ∈ VALID_STATUS_VALUES ->
     length (statusEdges n (loadGraphOf (runSetters calls s))) = 1) /\
  (forall calls v, SetPriority n v ∈ calls -> v ∈ VALID_PRIORITY_VALUES ->
     length (priorityEdges n (loadGraphOf (runSetters calls s))) = 1).
Proof.
  intros g.
  split; [|split; [|split; [|split; [|split; [|split; [|split; [|split; [|split]]]]]]]];
    [intros v Hv; split; [|reflexivity]
    |intros v Hv; split; [|reflexivity]
    |intros v Hv; cbv zeta; split; [|split]
    |intros v Hv; cbv zeta; split; [|split]
    | | |intros calls Hsv m|intros calls m
    |intros calls v Hin Hv|intros calls v Hin Hv].
  - rewrite setEntityStatus_unfold. now rewrite decide_False.
  - rewrite setEntityPriority_unfold. now rewrite decide_False.
  - rewrite setEntityStatus_unfold. now rewrite decide_True.
  - unfold statusEdges, edgesFrom. simpl. rewrite edges_after_replace.
    now rewrite decide_True.
  - rewrite getEntityStatus_unfold. unfold statusEdges, edgesFrom. simpl.
    rewrite edges_after_replace, decide_True by (split; reflexivity).
    simpl. now rewrite status_value_segment.
  - rewrite setEntityPriority_unfold. now rewrite decide_True.
  - unfold priorityEdges, edgesFrom. simpl. rewrite edges_after_replace.
    now rewrite decide_True.
  - rewrite getEntityPriority_unfold. unfold priorityEdges, edgesFrom. simpl.
    rewrite edges_after_replace, decide_True by (split; reflexivity).
    simpl. now rewrite priority_value_segment.
  - apply getEntityStatus_unfold.
  - apply getEntityPriority_unfold.
  - now apply (runSetters_singleValued calls s).
  - apply (runSetters_singleValued calls FileAbsent). intros k. split; simpl; lia.
  - now apply (runSetters_status_set calls s n v).
  - now apply (runSetters_priority_set calls s n v).
Qed.

Lemma setters_keep_status_single_valued_witness :
  let s := FileGraph (mkGraph [] [mkRelation "X" "status:draft" "has_status"]) in
  let s' := FileGraph (mkGraph [] [mkRelation "X" "status:final" "has_status"]) in
  setEntityStatus "X" "draft" FileAbsent = (Ok tt, s) /\
  setEntityStatus "X" "final" s = (Ok tt, s') /\
  statusEdges "X" (loadGraphOf s') = [mkRelation "X" "status:final" "has_status"] /\
  getEntityStatus "X" s' = (Ok (JStr "final"), s') /\
  setEntityStatus "X" "done" s' = (Err (InvalidStatusValue "done"), s') /\
  singleValued (loadGraphOf (runSetters [SetStatus "X" "draft"; SetPriority "X" "high";
                                         SetStatus "X" "final"] FileAbsent)).
Proof.
  intros s s'.
  destruct (setters_keep_status_single_valued FileAbsent "X")
    as (_ & _ & H0 & _ & _ & _ & _ & Hseq & _).
  destruct (setters_keep_status_single_valued s "X") as (Hbad & _ & H1 & _).
  destruct (setters_keep_status_single_valued s' "X") as (Hbad' & _).
  destruct (H0 "draft") as (Ha & _); [compute_done|].
  destruct (H1 "final") as (Hb & Hc & Hd); [compute_done|].
  destruct (Hbad' "done") as (He & _); [compute_done|].
  repeat split; try assumption; apply Hseq.
Defined.

(** ** Well-formedness of reachable graphs *)

Lemma wellFormed_same g g' :
  name <$> entities g' = name <$> entities g -> relations g' = relations g ->
  wellFormed g -> wellFormed g'.
Proof. unfold wellFormed. intros -> ->. exact id. Qed.

Lemma createEntities_wellFormed es s :
  NoDup (name <$> es) -> wellFormed (loadGraphOf s) ->
  wellFormed (loadGraphOf (snd (createEntities es s))).
Proof.
  intros Hnd [Hnames Hrels]. rewrite createEntities_unfold. cbv zeta.
  destruct (firstError entityTypeError es); [split; assumption|].
  simpl. rewrite absent_names_filter. split; simpl.
  - rewrite fmap_app. apply NoDup_app. split; [exact Hnames|]. split.
    + intros n Hn Hc. apply list_elem_of_fmap in Hc as (x & -> & Hx).
      apply list_elem_of_filter in Hx. tauto.
    + eapply sublist_NoDup; [exact Hnd|]. apply fmap_sublist, sublist_filter.
  - intros r Hr. rewrite fmap_app, !elem_of_app. destruct (Hrels r Hr). tauto.
Qed.

Lemma createRelations_wellFormed rs s :
  wellFormed (loadGraphOf s) -> wellFormed (loadGraphOf (snd (createRelations rs s))).
Proof.
  intros [Hnames Hrels]. rewrite createRelations_unfold. cbv zeta.
  destruct (firstError _ rs) eqn:E; [split; assumption|].
  simpl. split; simpl; [exact Hnames|].
  intros r Hr. apply elem_of_app in Hr as [Hr|Hr]; [now apply Hrels|].
  apply list_elem_of_filter in Hr as [_ Hr].
  rewrite firstError_None in E. specialize (E r Hr).
  apply relationError_None in E as (Hf & Ht & _). rewrite !in_nameSet in *. tauto.
Qed.

Lemma forOf_addObservations_shape obs g res s st s' :
  forOf addObservationsStep obs (g, res) s = (Ok st, s') ->
  name <$> entities (fst st) = name <$> entities g /\ relations (fst st) = relations g.
Proof.
  revert g res. induction obs as [|o r IH]; intros g res.
  - simpl. unfold ret. intros [= <- _]. split; reflexivity.
  - rewrite forOf_cons. unfold addObservationsStep at 1.
    destruct (list_find _ (entities g)) as [[i e]|] eqn:Hfind; [|discriminate].
    unfold ret. intros Hrun. apply IH in Hrun as [Hn Hr]. simpl in Hn, Hr.
    split; [|exact Hr]. rewrite Hn.
    apply list_find_Some in Hfind as (Hi & _ & _).
    rewrite list_fmap_insert. simpl. apply list_insert_id.
    now rewrite list_lookup_fmap, Hi.
Qed.

Lemma addObservations_wellFormed obs s :
  wellFormed (loadGraphOf s) -> wellFormed (loadGraphOf (snd (addObservations obs s))).
Proof.
  intros Hwf. rewrite addObservations_unfold.
  destruct (forOf addObservationsStep obs (loadGraphOf s, []) s) as [[st|e] s'] eqn:Hrun;
    simpl; [|exact Hwf].
  apply forOf_addObservations_shape in Hrun as [Hn Hr].
  eapply wellFormed_same; eauto.
Qed.

Lemma deleteEntities_wellFormed names s :
  wellFormed (loadGraphOf s) -> wellFormed (loadGraphOf (snd (deleteEntities names s))).
Proof.
  intros [Hnames Hrels]. rewrite deleteEntities_unfold. simpl. split; simpl.
  - eapply sublist_NoDup; [exact Hnames|]. apply fmap_sublist, sublist_filter.
  - intros r Hr. apply list_elem_of_filter in Hr as [[Hf Ht] Hr].
    destruct (Hrels r Hr) as [Hfrom Hto].
    apply list_elem_of_fmap in Hfrom as (x & Hx & Hxin).
    apply list_elem_of_fmap in Hto as (y & Hy & Hyin).
    split; apply list_elem_of_fmap; [exists x | exists y];
      (split; [assumption|]); apply list_elem_of_filter; split; congruence.
Qed.

Lemma deleteObservationsStep_shape g d :
  name <$> entities (deleteObservationsStep g d) = name <$> entities g /\
  relations (deleteObservationsStep g d) = relations g.
Proof.
  unfold deleteObservationsStep.
  destruct (list_find _ (entities g)) as [[i e]|] eqn:Hfind; [|split; reflexivity].
  simpl. split; [|reflexivity].
  apply list_find_Some in Hfind as (Hi & _ & _).
  rewrite list_fmap_insert. simpl. apply list_insert_id.
  now rewrite list_lookup_fmap, Hi.
Qed.

Lemma deleteObservations_wellFormed ds s :
  wellFormed (loadGraphOf s) -> wellFormed (loadGraphOf (snd (deleteObservations ds s))).
Proof.
  unfold deleteObservations, bind, loadGraph, saveGraph. simpl.
  generalize (loadGraphOf s). induction ds as [|d r IH]; intros g Hwf; [exact Hwf|].
  simpl. apply IH. destruct (deleteObservationsStep_shape g d) as [Hn Hr].
  eapply wellFormed_same; eauto.
Qed.

Lemma deleteRelations_wellFormed rs s :
  wellFormed (loadGraphOf s) -> wellFormed (loadGraphOf (snd (deleteRelations rs s))).
Proof.
  intros [Hnames Hrels]. unfold deleteRelations, bind, loadGraph, saveGraph. simpl.
  split; simpl; [exact Hnames|].
  intros r Hr. apply list_elem_of_filter in Hr as [_ Hr]. now apply Hrels.
Qed.

Lemma ensureStatusEntity_ok es v :
  v ∈ VALID_STATUS_VALUES -> reservedNamesTyped es -> NoDup (name <$> es) ->
  reservedNamesTyped (ensureStatusEntity es v) /\
  NoDup (name <$> ensureStatusEntity es v) /\
  (forall n, n ∈ (name <$> es) -> n ∈ (name <$> ensureStatusEntity es v)).
Proof.
  intros Hv Hres Hnd. unfold ensureStatusEntity.
  destruct (arrSome _ es) eqn:E; [auto|].
  rewrite arrSome_false in E. split; [|split].
  - intros e He. apply elem_of_app in He as [He|He]; [now apply Hres|].
    apply list_elem_of_singleton in He as ->. simpl. split; [reflexivity|].
    intros w _ Hw. discriminate Hw.
  - rewrite fmap_app. apply NoDup_app. split; [exact Hnd|]. split.
    + intros n Hn Hc. simpl in Hc. apply list_elem_of_singleton in Hc as ->.
      apply list_elem_of_fmap in Hn as (e & Hname & He).
      apply (E e He). split; [now symmetry|].
      destruct (Hres e He) as [Hst _]. apply (Hst v Hv). now symmetry.
    + simpl. apply NoDup_singleton.
  - intros n Hn. rewrite fmap_app. apply elem_of_app. now left.
Qed.

Lemma ensurePriorityEntity_ok es v :
  v ∈ VALID_PRIORITY_VALUES -> reservedNamesTyped es -> NoDup (name <$> es) ->
  reservedNamesTyped (ensurePriorityEntity es v) /\
  NoDup (name <$> ensurePriorityEntity es v) /\
  (forall n, n ∈ (name <$> es) -> n ∈ (name <$> ensurePriorityEntity es v)).
Proof.
  intros Hv Hres Hnd. unfold ensurePriorityEntity.
  destruct (arrSome _ es) eqn:E; [auto|].
  rewrite arrSome_false in E. split; [|split].
  - intros e He. apply elem_of_app in He as [He|He]; [now apply Hres|].
    apply list_elem_of_singleton in He as ->. simpl. split; [|reflexivity].
    intros w _ Hw. discriminate Hw.
  - rewrite fmap_app. apply NoDup_app. split; [exact Hnd|]. split.
    + intros n Hn Hc. simpl in Hc. apply list_elem_of_singleton in Hc as ->.
      apply list_elem_of_fmap in Hn as (e & Hname & He).
      apply (E e He). split; [now symmetry|].
      destruct (Hres e He) as [_ Hpr]. apply (Hpr v Hv). now symmetry.
    + simpl. apply NoDup_singleton.
  - intros n Hn. rewrite fmap_app. apply elem_of_app. now left.
Qed.

(** Folding a step that keeps an invariant and only adds names. *)
Lemma fold_ensure (step : list Entity -> string -> list Entity) (valid : list string)
    (Inv : list Entity -> Prop) :
  (forall es v, v ∈ valid -> Inv es ->
     Inv (step es v) /\ forall n, n ∈ (name <$> es) -> n ∈ (name <$> step es v)) ->
  forall vs es, (forall v, v ∈ vs -> v ∈ valid) -> Inv es ->
    Inv (fold_left step vs es) /\
    forall n, n ∈ (name <$> es) -> n ∈ (name <$> fold_left step vs es).
Proof.
  intros Hstep vs. induction vs as [|v r IH]; intros es Hvs Hinv; [auto|].
  simpl. destruct (Hstep es v) as [H1 H2]; [apply Hvs; left | exact Hinv |].
  destruct (IH (step es v)) as [H3 H4]; [intros w Hw; apply Hvs; now right | exact H1 |].
  split; [exact H3 | auto].
Qed.

Lemma initialize_wellFormed s :
  reservedNamesTyped (entities (loadGraphOf s)) -> wellFormed (loadGraphOf s) ->
  wellFormed (loadGraphOf (snd (initializeStatusAndPriority s))).
Proof.
  intros Hres [Hnames Hrels].
  change (loadGraphOf (snd (initializeStatusAndPriority s)))
    with (mkGraph (fold_left ensurePriorityEntity VALID_PRIORITY_VALUES
                     (fold_left ensureStatusEntity VALID_STATUS_VALUES
                        (entities (loadGraphOf s))))
                  (relations (loadGraphOf s))).
  set (Inv := fun es => reservedNamesTyped es /\ NoDup (name <$> es)).
  destruct (fold_ensure ensureStatusEntity VALID_STATUS_VALUES Inv) with
    (vs := VALID_STATUS_VALUES) (es := entities (loadGraphOf s)) as [[Hr1 Hn1] Hsub1];
    [|auto|split; assumption|].
  { intros es v Hv [Hi1 Hi2]. destruct (ensureStatusEntity_ok es v Hv Hi1 Hi2) as (?&?&?).
    split; [split|]; assumption. }
  destruct (fold_ensure ensurePriorityEntity VALID_PRIORITY_VALUES Inv) with
    (vs := VALID_PRIORITY_VALUES)
    (es := fold_left ensureStatusEntity VALID_STATUS_VALUES (entities (loadGraphOf s)))
    as [[Hr2 Hn2] Hsub2]; [|auto|split; assumption|].
  { intros es v Hv [Hi1 Hi2]. destruct (ensurePriorityEntity_ok es v Hv Hi1 Hi2) as (?&?&?).
    split; [split|]; assumption. }
  split; [exact Hn2|].
  intros r Hr. destruct (Hrels r Hr). split; apply Hsub2, Hsub1; assumption.
Qed.

Lemma setEntityStatus_wellFormed n v s :
  (n ∈ (name <$> entities (loadGraphOf s))) ->
  (statusName v ∈ (name <$> entities (loadGraphOf s))) ->
  wellFormed (loadGraphOf s) -> wellFormed (loadGraphOf (snd (setEntityStatus n v s))).
Proof.
  intros Hn Hv [Hnames Hrels]. rewrite setEntityStatus_unfold.
  destruct (decide (v ∈ VALID_STATUS_VALUES)); [|split; assumption].
  split; simpl; [exact Hnames|].
  intros r Hr. apply elem_of_app in Hr as [Hr|Hr].
  - apply list_elem_of_filter in Hr as [_ Hr]. now apply Hrels.
  - apply list_elem_of_singleton in Hr as ->. simpl. split; assumption.
Qed.

Lemma setEntityPriority_wellFormed n v s :
  (n ∈ (name <$> entities (loadGraphOf s))) ->
  (priorityName v ∈ (name <$> entities (loadGraphOf s))) ->
  wellFormed (loadGraphOf s) -> wellFormed (loadGraphOf (snd (setEntityPriority n v s))).
Proof.
  intros Hn Hv [Hnames Hrels]. rewrite setEntityPriority_unfold.
  destruct (decide (v ∈ VALID_PRIORITY_VALUES)); [|split; assumption].
  split; simpl; [exact Hnames|].
  intros r Hr. apply elem_of_app in Hr as [Hr|Hr].
  - apply list_elem_of_filter in Hr as [_ Hr]. now apply Hrels.
  - apply list_elem_of_singleton in Hr as ->. simpl. split; assumption.
Qed.

Lemma perform_wellFormed op s :
  admissible (loadGraphOf s) op -> wellFormed (loadGraphOf s) ->
  wellFormed (loadGraphOf (perform op s)).
Proof.
  destruct op; unfold perform, admissible; intros Hadm Hwf.
  - apply createEntities_wellFormed; assumption.
  - apply createRelations_wellFormed; assumption.
  - apply addObservations_wellFormed; assumption.
  - apply deleteEntities_wellFormed; assumption.
  - apply deleteObservations_wellFormed; assumption.
  - apply deleteRelations_wellFormed; assumption.
  - apply initialize_wellFormed; assumption.
  - destruct Hadm. apply setEntityStatus_wellFormed; assumption.
  - destruct Hadm. apply setEntityPriority_wellFormed; assumption.
Qed.

(** C2, as the code has it. Well-formedness is kept by [createRelations],
    [addObservations] and the three delete operations whatever their
    arguments, by [createEntities] on a batch of pairwise distinct names,
    by [initializeStatusAndPriority] on a graph whose reserved names bear
    the reserved types, and by a setter whose entity and value entity
    exist; so it holds in every state reached from the empty graph by
    such calls. *)
Theorem wellFormed_in_admissible_states (s : store) :
  reachableAdmissibly s -> wellFormed (loadGraphOf s).
Proof.
  induction 1 as [s Hempty | s op Hreach IH Hadm].
  - rewrite Hempty. split; simpl; [constructor|]. intros r Hr. inversion Hr.
  - now apply perform_wellFormed.
Qed.

Lemma wellFormed_in_admissible_states_witness :
  wellFormed (loadGraphOf
    (perform (SetEntityStatus "Study" "draft")
       (perform (CreateEntities [mkEntity "Study" "project" []])
          (perform InitializeStatusAndPriority FileAbsent)))).
Proof.
  apply wellFormed_in_admissible_states.
  apply admissibly_step; [apply admissibly_step; [apply admissibly_step|]|].
  - apply admissibly_empty. reflexivity.
  - intros e He. inversion He.
  - simpl. compute_done.
  - split; compute_done.
Defined.

(** C2, as stated, fails: one call of [setEntityStatus] on the empty
    store leaves an edge both of whose endpoints are missing. *)
Lemma wellFormed_not_invariant :
  ~ (forall s, reachable s -> wellFormed (loadGraphOf s)).
Proof.
  intros Hall.
  destruct (Hall (perform (SetEntityStatus "Ghost" "draft") FileAbsent)) as [_ Hrels].
  - apply reachable_step, reachable_empty. reflexivity.
  - destruct (Hrels (mkRelation "Ghost" "status:draft" "has_status")) as [Hfrom _].
    + compute_done.
    + revert Hfrom. compute_done.
Qed.

(** Two further ways to leave the well-formed graphs: a batch that
    repeats a name, and an initialisation over an entity that bears a
    reserved name with another type. *)
Example duplicate_names_reachable :
  loadGraphOf (perform (CreateEntities [mkEntity "A" "code" ["x"]; mkEntity "A" "code" []])
                 FileAbsent)
  = mkGraph [mkEntity "A" "code" ["x"]; mkEntity "A" "code" []] [] /\
  (name <$> entities (loadGraphOf
     (perform InitializeStatusAndPriority
        (perform (CreateEntities [mkEntity "status:planning" "memo" []]) FileAbsent))))
    !! 1%nat = Some "status:planning".
Proof. split; vm_compute; reflexivity. Qed.

(** ** Substring search *)

Lemma append_nil (b : string) : EmptyString +:+ b = b.
Proof. reflexivity. Qed.

Lemma append_cons c (a b : string) : String c a +:+ b = String c (a +:+ b).
Proof. reflexivity. Qed.

Lemma startsWith_spec p s : Str.startsWith p s = true <-> exists post, s = p +:+ post.
Proof.
  revert s. induction p as [|a p IH]; intros s; simpl.
  - split; [intros _; now exists s | reflexivity].
  - destruct s as [|b s]; simpl.
    + split; [discriminate | intros [post Hp]; discriminate].
    + destruct (Ascii.eqb_spec a b) as [->|Hne].
      * rewrite IH. split; intros [post Hp]; exists post.
        -- simpl. now rewrite Hp.
        -- simpl in Hp. now injection Hp.
      * split; [discriminate|]. intros [post Hp]. simpl in Hp.
        injection Hp as Hab _. now destruct Hne.
Qed.

Lemma includes_spec t s : Str.includes t s = true <-> Str.occursIn t s.
Proof.
  split.
  - induction s as [|c s IH].
    + simpl. rewrite orb_false_r. intros Hs. apply startsWith_spec in Hs as [post Hp].
      exists EmptyString, post. exact Hp.
    + simpl Str.includes. intros Hs. apply orb_true_iff in Hs as [Hs|Hs].
      * apply startsWith_spec in Hs as [post Hp]. exists EmptyString, post. exact Hp.
      * destruct (IH Hs) as (pre & post & Hp). exists (String c pre), post.
        simpl. now rewrite Hp.
  - intros (pre & post & ->). induction pre as [|c pre IH].
    + simpl String.append.
      assert (Hs : Str.startsWith t (t +:+ post) = true)
        by (apply startsWith_spec; now exists post).
      destruct (t +:+ post); simpl in *; now rewrite Hs.
    + simpl. rewrite IH. apply orb_true_r.
Qed.

Lemma includes_empty s : Str.includes EmptyString s = true.
Proof. now destruct s. Qed.

Lemma termMatches_spec e t : termMatches e t = true <-> tokenIn t e.
Proof.
  unfold termMatches, tokenIn. rewrite !orb_true_iff, !includes_spec.
  assert (Hobs : existsb (fun o => Str.includes t (Str.toLowerCase o)) (observations e) = true
                 <-> exists o, o ∈ observations e /\ Str.occursIn t (Str.toLowerCase o)).
  { rewrite existsb_exists. split; intros (o & Ho & Hs); exists o.
    - apply list_elem_of_In in Ho. now rewrite <- includes_spec.
    - apply list_elem_of_In in Ho. now rewrite includes_spec. }
  rewrite Hobs. tauto.
Qed.

Lemma matchesAllTerms_spec query e :
  matchesAllTerms (tokens query) e = true <-> answers query e.
Proof.
  unfold matchesAllTerms, answers. rewrite forallb_forall. split.
  - intros Hall t Ht. apply termMatches_spec, Hall. now apply list_elem_of_In.
  - intros Hall t Ht. apply termMatches_spec, Hall. now apply list_elem_of_In.
Qed.

Lemma termMatches_empty e : termMatches e EmptyString = true.
Proof. unfold termMatches. now rewrite includes_empty. Qed.

Lemma same_name_same_entity (es : list Entity) x y :
  NoDup (name <$> es) -> x ∈ es -> y ∈ es -> name x = name y -> x = y.
Proof.
  induction es as [|e r IH]; intros Hnd Hx Hy Hname; [inversion Hx|].
  rewrite fmap_cons in Hnd. apply NoDup_cons in Hnd as [Hnotin Hnd].
  apply elem_of_cons in Hx as [->|Hx]; apply elem_of_cons in Hy as [->|Hy].
  - reflexivity.
  - exfalso. apply Hnotin. rewrite Hname. now apply list_elem_of_fmap_2.
  - exfalso. apply Hnotin. rewrite <- Hname. now apply list_elem_of_fmap_2.
  - now apply IH.
Qed.

Lemma searchNodes_unfold query s :
  searchNodes query s =
  let g := loadGraphOf s in
  let names := matchedNames (tokens query) g in
  (Ok (mkGraph (filter (fun e => name e ∈ names) (entities g))
               (filter (fun r => (from r ∈ names) /\ (to r ∈ names)) (relations g))), s).
Proof.
  unfold searchNodes, bind, loadGraph, ret. simpl. do 3 f_equal.
  - apply list_filter_iff. intros e. now rewrite has_true, elem_of_list_to_set.
  - apply list_filter_iff. intros r. now rewrite !has_true, !elem_of_list_to_set.
Qed.

(** C6, as the code has it. [searchNodes] returns, in the order of the
    graph, the entities whose name is the name of an entity that answers
    the query (every token of the lower-cased query occurs in its
    lower-cased name, type or one observation), with the relations both
    of whose endpoints are among the returned names. When names are
    unique these are exactly the entities that answer the query. *)
Theorem searchNodes_induced_subgraph (query : string) (s : store) :
  let g := loadGraphOf s in
  exists found,
    searchNodes query s = (Ok found, s) /\
    sublist (entities found) (entities g) /\
    (forall e, e ∈ entities found <->
       (e ∈ entities g) /\
       exists e', (e' ∈ entities g) /\ name e' = name e /\ answers query e') /\
    relations found =
      filter (fun r => (from r ∈ (name <$> entities found)) /\
                       (to r ∈ (name <$> entities found))) (relations g) /\
    (NoDup (name <$> entities g) ->
       entities found = filter (fun e => matchesAllTerms (tokens query) e = true) (entities g) /\
       forall e, e ∈ entities found <-> (e ∈ entities g) /\ answers query e).
Proof.
  intros g. eexists. split; [apply searchNodes_unfold|]. cbv zeta. fold g. simpl.
  assert (Hnames : forall n,
    n ∈ matchedNames (tokens query) g <->
    exists e', (e' ∈ entities g) /\ name e' = n /\ answers query e').
  { intros n. unfold matchedNames. rewrite list_elem_of_fmap. split.
    - intros (e' & -> & He'). apply list_elem_of_filter in He' as [Hm He'].
      exists e'. rewrite <- matchesAllTerms_spec. auto.
    - intros (e' & He' & <- & Hans). exists e'. split; [reflexivity|].
      apply list_elem_of_filter. rewrite matchesAllTerms_spec. auto. }
  assert (Hfound : forall n,
    n ∈ (name <$> filter (fun e => name e ∈ matchedNames (tokens query) g) (entities g))
    <-> n ∈ matchedNames (tokens query) g).
  { intros n. rewrite list_elem_of_fmap. split.
    - intros (e & -> & He). apply list_elem_of_filter in He. tauto.
    - intros Hn. pose proof Hn as Hn'. unfold matchedNames in Hn'.
      apply list_elem_of_fmap in Hn' as (e & -> & He).
      exists e. split; [reflexivity|]. apply list_elem_of_filter.
      apply list_elem_of_filter in He. tauto. }
  split; [apply sublist_filter|]. split; [|split].
  - intros e. rewrite list_elem_of_filter, Hnames. tauto.
  - apply list_filter_iff. intros r. now rewrite !Hfound.
  - intros Hnd.
    assert (Heq : forall e, e ∈ entities g ->
              (name e ∈ matchedNames (tokens query) g <->
               matchesAllTerms (tokens query) e = true)).
    { intros e He. rewrite Hnames, matchesAllTerms_spec. split.
      - intros (e' & He' & Hname & Hans).
        now rewrite <- (same_name_same_entity (entities g) e' e Hnd He' He Hname).
      - intros Hans. now exists e. }
    split.
    + now apply filter_ext_elem.
    + intros e. rewrite list_elem_of_filter, <- matchesAllTerms_spec. split.
      * intros [Hn He]. split; [exact He|]. now apply Heq.
      * intros [He Hm]. split; [|exact He]. now apply Heq.
Qed.

Lemma searchNodes_induced_subgraph_witness :
  let g := mkGraph [mkEntity "Alpha" "code" ["mentions beta"]; mkEntity "Beta" "code" []]
                   [mkRelation "Alpha" "Beta" "related_to"] in
  exists found,
    searchNodes "alpha beta" (FileGraph g) = (Ok found, FileGraph g) /\
    entities found = [mkEntity "Alpha" "code" ["mentions beta"]] /\
    relations found = [].
Proof.
  intros g.
  destruct (searchNodes_induced_subgraph "alpha beta" (FileGraph g))
    as (found & Hrun & _ & _ & Hrels & Huniq).
  destruct Huniq as [Hents _]; [compute_done|].
  exists found. split; [exact Hrun|]. split.
  - rewrite Hents. vm_compute. reflexivity.
  - rewrite Hrels, Hents. vm_compute. reflexivity.
Defined.

(** C6, as stated, fails on a graph where two entities share a name:
    the namesake of an entity that answers the query is returned with
    it, whether or not it answers the query itself. *)
Lemma searchNodes_returns_namesakes :
  ~ (forall g query found,
       searchNodes query (FileGraph g) = (Ok found, FileGraph g) ->
       forall e, e ∈ entities found <-> (e ∈ entities g) /\ answers query e).
Proof.
  intros Hall.
  set (g := mkGraph [mkEntity "A" "code" ["x"]; mkEntity "A" "code" []] []).
  assert (Hrun : searchNodes "x" (FileGraph g) = (Ok g, FileGraph g))
    by (vm_compute; reflexivity).
  destruct (Hall g "x" g Hrun (mkEntity "A" "code" [])) as [Hans _].
  destruct Hans as [_ Hans]; [compute_done|].
  apply matchesAllTerms_spec in Hans. vm_compute in Hans. discriminate.
Qed.

(** ** Blank and padded queries *)

Lemma isSpace_lowerChar c : Str.isSpace c = true -> Str.lowerChar c = c.
Proof.
  destruct c as [b0 b1 b2 b3 b4 b5 b6 b7].
  destruct b0, b1, b2, b3, b4, b5, b6, b7; vm_compute;
    intros H; first [reflexivity | discriminate H].
Qed.

Lemma lowerChar_isSpace c : Str.isSpace (Str.lowerChar c) = Str.isSpace c.
Proof.
  destruct c as [b0 b1 b2 b3 b4 b5 b6 b7].
  destruct b0, b1, b2, b3, b4, b5, b6, b7; vm_compute; reflexivity.
Qed.

Lemma toLowerCase_app a b :
  Str.toLowerCase (a +:+ b) = Str.toLowerCase a +:+ Str.toLowerCase b.
Proof.
  induction a as [|c a IH]; [reflexivity|].
  rewrite append_cons. simpl. now rewrite append_cons, IH.
Qed.

Lemma allSpace_toLowerCase w : Str.allSpace (Str.toLowerCase w) = Str.allSpace w.
Proof.
  induction w as [|c w IH]; simpl; [reflexivity|].
  now rewrite lowerChar_isSpace, IH.
Qed.

Section Padding.
Variable P : string -> bool.
Hypothesis P_empty : P EmptyString = true.

Lemma splitWs_run cur w :
  Str.allSpace w = true -> Str.splitWsFrom true cur w = [cur].
Proof.
  induction w as [|c w IH]; simpl; [reflexivity|].
  intros Hw. apply andb_true_iff in Hw as [Hc Hw]. rewrite Hc. now apply IH.
Qed.

Lemma splitWs_run_app w s :
  Str.allSpace w = true ->
  Str.splitWsFrom true EmptyString (w +:+ s) = Str.splitWsFrom true EmptyString s.
Proof.
  induction w as [|c w IH]; [reflexivity|]. rewrite append_cons. simpl.
  intros Hw. apply andb_true_iff in Hw as [Hc Hw]. rewrite Hc. now apply IH.
Qed.

Lemma splitWs_after_separator s :
  forallb P (Str.splitWsFrom false EmptyString s) =
  forallb P (Str.splitWsFrom true EmptyString s).
Proof.
  destruct s as [|c s]; simpl; [reflexivity|].
  destruct (Str.isSpace c); simpl; [now rewrite P_empty | reflexivity].
Qed.

Lemma splitWs_trailing inWs cur s w :
  Str.allSpace w = true ->
  forallb P (Str.splitWsFrom inWs cur (s +:+ w)) = forallb P (Str.splitWsFrom inWs cur s).
Proof.
  intros Hw. revert inWs cur. induction s as [|c s IH]; intros inWs cur.
  - rewrite append_nil. destruct w as [|c w]; [reflexivity|]. simpl in *.
    apply andb_true_iff in Hw as [Hc Hw]. rewrite Hc.
    destruct inWs; rewrite (splitWs_run _ w Hw); simpl; [reflexivity|].
    now rewrite P_empty.
  - rewrite append_cons. simpl. destruct (Str.isSpace c), inWs; simpl; now rewrite IH.
Qed.

Lemma splitWs_leading w s :
  Str.allSpace w = true ->
  forallb P (Str.splitWs (w +:+ s)) = forallb P (Str.splitWs s).
Proof.
  unfold Str.splitWs. destruct w as [|c w]; [reflexivity|]. rewrite append_cons. simpl.
  intros Hw. apply andb_true_iff in Hw as [Hc Hw]. rewrite Hc. simpl.
  now rewrite P_empty, (splitWs_run_app w s Hw), splitWs_after_separator.
Qed.

Lemma splitWs_padded pre q post :
  Str.allSpace pre = true -> Str.allSpace post = true ->
  forallb P (Str.splitWs (pre +:+ q +:+ post)) = forallb P (Str.splitWs q).
Proof.
  intros Hpre Hpost. rewrite (splitWs_leading pre _ Hpre).
  apply splitWs_trailing, Hpost.
Qed.
End Padding.

Lemma matchesAllTerms_padded pre q post e :
  Str.allSpace pre = true -> Str.allSpace post = true ->
  matchesAllTerms (tokens (pre +:+ q +:+ post)) e = matchesAllTerms (tokens q) e.
Proof.
  intros Hpre Hpost. unfold matchesAllTerms, tokens.
  rewrite !toLowerCase_app.
  apply splitWs_padded; [apply termMatches_empty | now rewrite allSpace_toLowerCase ..].
Qed.

Lemma append_empty_r q : q +:+ EmptyString = q.
Proof. induction q as [|c q IH]; [reflexivity | now rewrite append_cons, IH]. Qed.

Lemma matchesAllTerms_blank q e :
  Str.allSpace q = true -> matchesAllTerms (tokens q) e = true.
Proof.
  intros Hq.
  pose proof (matchesAllTerms_padded q EmptyString EmptyString e Hq eq_refl) as Hpad.
  change (q +:+ EmptyString +:+ EmptyString) with (q +:+ EmptyString) in Hpad.
  rewrite append_empty_r in Hpad. rewrite Hpad.
  unfold matchesAllTerms, tokens. simpl. now rewrite termMatches_empty.
Qed.

Lemma matchedNames_ext terms terms' g :
  (forall e, matchesAllTerms terms e = matchesAllTerms terms' e) ->
  matchedNames terms g = matchedNames terms' g.
Proof.
  intros Hext. unfold matchedNames. f_equal.
  apply list_filter_iff. intros e. now rewrite Hext.
Qed.

Lemma matchedNames_blank q g :
  Str.allSpace q = true -> matchedNames (tokens q) g = name <$> entities g.
Proof.
  intros Hq. unfold matchedNames. f_equal. apply filter_all.
  intros e _. now apply matchesAllTerms_blank.
Qed.

(** C10, as the code has it. A query that is empty or made of white
    space returns every entity and every relation both of whose
    endpoints name an entity, hence the whole graph when no relation
    dangles; and white space before or after a query changes nothing in
    what the query returns. *)
Theorem blank_query_returns_connected_graph (s : store) :
  let g := loadGraphOf s in
  (forall q, Str.allSpace q = true ->
     searchNodes q s =
     (Ok (mkGraph (entities g)
            (filter (fun r => (from r ∈ (name <$> entities g)) /\
                              (to r ∈ (name <$> entities g))) (relations g))), s)) /\
  (forall q, Str.allSpace q = true ->
     (forall r, r ∈ relations g ->
        (from r ∈ (name <$> entities g)) /\ (to r ∈ (name <$> entities g))) ->
     searchNodes q s = (Ok g, s)) /\
  (forall pre q post, Str.allSpace pre = true -> Str.allSpace post = true ->
     searchNodes (pre +:+ q +:+ post) s = searchNodes q s).
Proof.
  intros g.
  assert (Hblank : forall q, Str.allSpace q = true ->
     searchNodes q s =
     (Ok (mkGraph (entities g)
            (filter (fun r => (from r ∈ (name <$> entities g)) /\
                              (to r ∈ (name <$> entities g))) (relations g))), s)).
  { intros q Hq. rewrite searchNodes_unfold. cbv zeta. fold g.
    rewrite (matchedNames_blank q g Hq). do 3 f_equal.
    apply filter_all. intros e He. now apply list_elem_of_fmap_2. }
  split; [exact Hblank|]. split.
  - intros q Hq Hwf. rewrite (Hblank q Hq), filter_all by exact Hwf. now destruct g.
  - intros pre q post Hpre Hpost. rewrite !searchNodes_unfold. cbv zeta.
    now rewrite (matchedNames_ext (tokens (pre +:+ q +:+ post)) (tokens q))
      by (intros e; now apply matchesAllTerms_padded).
Qed.

Lemma blank_query_returns_connected_graph_witness :
  let g := mkGraph [mkEntity "Alpha" "code" ["mentions beta"]; mkEntity "Beta" "code" []]
                   [mkRelation "Alpha" "Beta" "related_to"] in
  searchNodes "  " (FileGraph g) = (Ok g, FileGraph g) /\
  searchNodes " alpha beta  " (FileGraph g) = searchNodes "alpha beta" (FileGraph g).
Proof.
  intros g.
  destruct (blank_query_returns_connected_graph (FileGraph g)) as (_ & Hwhole & Hpad).
  split.
  - apply Hwhole; [reflexivity|].
    apply Forall_forall. repeat constructor; compute_done.
  - apply (Hpad " " "alpha beta" "  "); reflexivity.
Defined.

(** C10, as stated, fails on a graph with a dangling relation: the
    empty query leaves that relation out. *)
Lemma blank_query_drops_dangling_relations :
  ~ (forall g q, Str.allSpace q = true ->
       searchNodes q (FileGraph g) = (Ok g, FileGraph g)).
Proof.
  intros Hall.
  specialize (Hall (mkGraph [] [mkRelation "Ghost" "status:draft" "has_status"])
                   EmptyString eq_refl).
  vm_compute in Hall. discriminate Hall.
Qed.

(** ** Stable sorting by a key *)

Section SortFacts.
Context {A : Type} (cmp : A -> A -> Z).

Lemma insertSorted_Permutation x l : insertSorted cmp x l ≡ₚ x :: l.
Proof.
  induction l as [|y r IH]; simpl; [reflexivity|].
  destruct (cmp x y <=? 0)%Z; [reflexivity|].
  rewrite IH. apply Permutation_swap.
Qed.

Lemma sortWith_Permutation l : sortWith cmp l ≡ₚ l.
Proof.
  induction l as [|x r IH]; simpl; [reflexivity|].
  rewrite insertSorted_Permutation. now rewrite IH.
Qed.

Hypothesis cmp_total : forall a b, (cmp a b <= 0)%Z \/ (cmp b a <= 0)%Z.
Hypothesis cmp_trans : forall a b c, (cmp a b <= 0)%Z -> (cmp b c <= 0)%Z -> (cmp a c <= 0)%Z.

Lemma insertSorted_sorted x l :
  StronglySorted (fun a b => (cmp a b <= 0)%Z) l ->
  StronglySorted (fun a b => (cmp a b <= 0)%Z) (insertSorted cmp x l).
Proof.
  induction l as [|y r IH]; intros Hs; simpl.
  - repeat constructor.
  - apply StronglySorted_cons in Hs as [Hy Hr].
    destruct (Z.leb_spec (cmp x y) 0) as [Hle|Hgt].
    + apply StronglySorted_cons. split.
      * constructor; [exact Hle|].
        eapply Forall_impl; [exact Hy|]. intros z Hz. eapply cmp_trans; eauto.
      * apply StronglySorted_cons. split; assumption.
    + apply StronglySorted_cons. split; [|now apply IH].
      rewrite (insertSorted_Permutation x r). constructor; [|exact Hy].
      destruct (cmp_total x y); [lia | assumption].
Qed.

Lemma sortWith_sorted l : StronglySorted (fun a b => (cmp a b <= 0)%Z) (sortWith cmp l).
Proof.
  induction l as [|x r IH]; simpl; [constructor|].
  now apply insertSorted_sorted.
Qed.

(** Stability: elements that compare as equal keep their order. *)
Lemma sortWith_stable (P : A -> Prop) `{forall x, Decision (P x)} l :
  (forall a b, P a -> P b -> (cmp a b <= 0)%Z) ->
  filter P (sortWith cmp l) = filter P l.
Proof.
  intros Heq. induction l as [|x r IH]; simpl; [reflexivity|].
  rewrite filter_cons, <- IH. clear IH.
  induction (sortWith cmp r) as [|y t IHt]; simpl.
  - now rewrite filter_cons.
  - destruct (Z.leb_spec (cmp x y) 0) as [Hle|Hgt].
    + now rewrite filter_cons.
    + rewrite !(filter_cons _ y), IHt.
      destruct (decide (P x)) as [Hx|Hx], (decide (P y)) as [Hy|Hy]; try reflexivity.
      specialize (Heq x y Hx Hy). lia.
Qed.
End SortFacts.

Lemma StronglySorted_fmap_impl {A B} (R : A -> A -> Prop) (R' : B -> B -> Prop)
    (f : A -> B) (l : list A) :
  (forall a b, R a b -> R' (f a) (f b)) ->
  StronglySorted R l -> StronglySorted R' (f <$> l).
Proof.
  intros Himpl Hs. induction Hs as [|x r Hs IH Hall]; [constructor|].
  rewrite fmap_cons. apply StronglySorted_cons. split; [|exact IH].
  apply Forall_fmap. eapply Forall_impl; [exact Hall|]. intros b Hb. now apply Himpl.
Qed.

Lemma Forall_of_fmap_replicate {A B} (f : A -> B) (v : B) (l : list A) n :
  f <$> l = replicate n v -> Forall (fun x => f x = v) l.
Proof.
  revert n. induction l as [|x r IH]; intros n Hmap; [constructor|].
  destruct n as [|n]; [discriminate|]. simpl in Hmap. injection Hmap as Hx Hr.
  constructor; [exact Hx | now apply (IH n)].
Qed.

(** ** Chronological data *)

Lemma collectVia_elem g (P : Relation -> Prop) `{forall r, Decision (P r)} lookup e :
  e ∈ collectVia g P lookup <-> exists r, (r ∈ relations g) /\ P r /\ lookup r = Some e.
Proof.
  unfold collectVia. rewrite list_elem_of_omap. split.
  - intros (r & Hr & Hl). exists r. destruct (decide (P r)); [auto | discriminate].
  - intros (r & Hr & HP & Hl). exists r. split; [exact Hr|]. now rewrite decide_True.
Qed.

Lemma splitOnFrom_nonempty sep cur s : exists x r, Str.splitOnFrom sep cur s = x :: r.
Proof.
  revert cur. induction s as [|c s IH]; intros cur; simpl; [eauto|].
  destruct (Ascii.eqb c sep); [eauto | apply IH].
Qed.

Lemma splitOn_prefix_segment p post :
  (exists a b, p = a +:+ String ":" b) ->
  exists seg, Str.splitOn ":" (p +:+ post) !! 1%nat = Some seg.
Proof.
  intros (a & b & ->). unfold Str.splitOn. generalize EmptyString as cur.
  induction a as [|c a IH]; intros cur.
  - rewrite append_nil, append_cons. simpl.
    destruct (splitOnFrom_nonempty ":" EmptyString (b +:+ post)) as (x & r & ->).
    now exists x.
  - rewrite !append_cons. simpl. destruct (Ascii.eqb c ":").
    + simpl. destruct (splitOnFrom_nonempty ":" EmptyString ((a +:+ String ":" b) +:+ post))
        as (x & r & ->). now exists x.
    + apply IH.
Qed.

Lemma dateObservation_has_segment o :
  isDateObservation o = true -> exists seg, Str.splitOn ":" o !! 1%nat = Some seg.
Proof.
  unfold isDateObservation. rewrite !orb_true_iff, !startsWith_spec.
  intros [[[post ->]|[post ->]]|[post ->]]; apply splitOn_prefix_segment.
  - now exists "Date", EmptyString.
  - now exists "Collected on", EmptyString.
  - now exists "Created", EmptyString.
Qed.

Lemma find_first {A} (f : A -> bool) pre x post :
  (forall y, y ∈ pre -> f y = false) -> f x = true ->
  List.find f (pre ++ x :: post) = Some x.
Proof.
  induction pre as [|y pre IH]; intros Hpre Hx; simpl.
  - now rewrite Hx.
  - rewrite (Hpre y) by left. apply IH; [|exact Hx]. intros z Hz. apply Hpre. now right.
Qed.

Lemma find_none {A} (f : A -> bool) l :
  (forall y, y ∈ l -> f y = false) -> List.find f l = None.
Proof.
  induction l as [|y l IH]; intros Hl; simpl; [reflexivity|].
  rewrite (Hl y) by left. apply IH. intros z Hz. apply Hl. now right.
Qed.

Lemma getChronologicalData_unfold parseDate projectName dataType s :
  getChronologicalData parseDate projectName dataType s =
  let g := loadGraphOf s in
  match arrFind (fun e => name e = projectName /\ entityType e = "project") (entities g) with
  | None => (Err (ProjectNotFound projectName), s)
  | Some found =>
      (Ok (mkChronologicalData found
             ((fun item => mkTimelineItem (snd item) (fst item)
                             (quotesContainedIn g (name (fst item)))) <$>
              sortWith byDate ((fun e => (e, entityDate parseDate e)) <$>
                               dataEntities g projectName dataType))), s)
  end.
Proof.
  unfold getChronologicalData, bind, loadGraph. cbv zeta.
  now destruct (arrFind _ (entities (loadGraphOf s))).
Qed.

(** ** Code co-occurrence *)

Lemma tally_keys k oc q m :
  fst <$> tally k oc q m =
  if decide (k ∈ (fst <$> m)) then fst <$> m else (fst <$> m) ++ [k].
Proof.
  induction m as [|[k' o] r IH]; [reflexivity|].
  cbn [tally]. destruct (decide (k' = k)) as [->|Hne].
  - rewrite !fmap_cons. cbn [fst]. now rewrite decide_True by left.
  - rewrite !fmap_cons, IH. cbn [fst].
    destruct (decide (k ∈ (fst <$> r))) as [Hin|Hout].
    + now rewrite decide_True by now right.
    + rewrite decide_False; [reflexivity|].
      intros Hc. apply elem_of_cons in Hc as [->|Hc]; tauto.
Qed.

Lemma tally_entry k oc q m k' o' :
  NoDup (fst <$> m) -> (k', o') ∈ tally k oc q m ->
  (k' <> k /\ ((k', o') ∈ m)) \/
  (k' = k /\ exists o, ((k, o) ∈ m) /\ o' = bump q o) \/
  (k' = k /\ (k ∉ (fst <$> m)) /\ o' = mkOccurrence oc 1 [q]).
Proof.
  induction m as [|[k0 o0] r IH]; simpl; intros Hnd Hin.
  - apply list_elem_of_singleton in Hin as [= -> ->]. right. right.
    split; [reflexivity|]. split; [apply not_elem_of_nil | reflexivity].
  - apply NoDup_cons in Hnd as [Hk0 Hnd].
    destruct (decide (k0 = k)) as [->|Hne].
    + apply elem_of_cons in Hin as [[= -> ->]|Hin].
      * right. left. split; [reflexivity|]. exists o0. split; [left | reflexivity].
      * left. split; [|now right]. intros ->. apply Hk0.
        apply list_elem_of_fmap. now exists (k, o').
    + apply elem_of_cons in Hin as [[= -> ->]|Hin].
      * left. split; [exact Hne | left].
      * destruct (IH Hnd Hin) as [[H1 H2]|[[H1 (o & H2 & H3)]|(H1 & H2 & H3)]].
        -- left. split; [exact H1 | now right].
        -- right. left. split; [exact H1|]. exists o. split; [now right | exact H3].
        -- right. right. split; [exact H1|]. split; [|exact H3].
           intros Hc. apply elem_of_cons in Hc as [Hc|Hc]; [congruence | tauto].
Qed.

Lemma tallied_step m evs ev :
  tallied m evs -> tallied (tallyEvent m ev) (evs ++ [ev]).
Proof.
  intros (Hnd & Hentries & Hkeys). destruct ev as [oc q]. unfold tallyEvent. simpl.
  split; [|split].
  - rewrite tally_keys. destruct (decide (name oc ∈ (fst <$> m))); [exact Hnd|].
    apply NoDup_app. split; [exact Hnd|]. split; [|apply NoDup_singleton].
    intros x Hx Hc. apply list_elem_of_singleton in Hc as ->. tauto.
  - intros k o Hin. rewrite filter_app, length_app.
    destruct (tally_entry _ _ _ _ _ _ Hnd Hin) as [[H1 H2]|[[-> (o0 & H2 & ->)]|(-> & H2 & ->)]].
    + destruct (Hentries k o H2) as (Ha & Hb & (ev & Hev & Hc)).
      split; [exact Ha|]. split.
      * rewrite filter_cons_False by (simpl; congruence). simpl. lia.
      * exists ev. split; [apply elem_of_app; now left | exact Hc].
    + destruct (Hentries _ o0 H2) as (Ha & Hb & (ev & Hev & Hc)).
      simpl. split; [exact Ha|]. split.
      * rewrite filter_cons_True by reflexivity. simpl. lia.
      * exists ev. split; [apply elem_of_app; now left | exact Hc].
    + simpl. split; [reflexivity|]. split.
      * rewrite filter_cons_True by reflexivity.
        rewrite (filter_none _ evs); [reflexivity|].
        intros ev Hev Hname. apply H2. rewrite <- Hname. now apply Hkeys.
      * exists (oc, q). split; [apply elem_of_app; right; left | reflexivity].
  - intros ev Hev. rewrite tally_keys.
    apply elem_of_app in Hev as [Hev|Hev].
    + destruct (decide (name oc ∈ (fst <$> m))); [now apply Hkeys|].
      apply elem_of_app. left. now apply Hkeys.
    + apply list_elem_of_singleton in Hev as ->. simpl.
      destruct (decide (name oc ∈ (fst <$> m))); [assumption|].
      apply elem_of_app. right. left.
Qed.

Lemma tallied_fold evs : forall m evs0,
  tallied m evs0 -> tallied (fold_left tallyEvent evs m) (evs0 ++ evs).
Proof.
  induction evs as [|ev r IH]; intros m evs0 Hm; simpl.
  - now rewrite app_nil_r.
  - replace (evs0 ++ ev :: r) with ((evs0 ++ [ev]) ++ r) by now rewrite <- app_assoc.
    apply IH. now apply tallied_step.
Qed.

Lemma tallyQuote_events g c m quote :
  tallyQuote g c m quote = fold_left tallyEvent (eventsFor g c quote) m.
Proof.
  unfold tallyQuote, eventsFor. revert m.
  induction (relations g) as [|r l IH]; intros m; simpl; [reflexivity|].
  destruct (decide _); simpl; [|apply IH].
  destruct (arrFind _ (entities g)); simpl; apply IH.
Qed.

Lemma tally_all_events g c quotes m :
  fold_left (tallyQuote g c) quotes m =
  fold_left tallyEvent (concat (eventsFor g c <$> quotes)) m.
Proof.
  revert m. induction quotes as [|q r IH]; intros m; simpl; [reflexivity|].
  now rewrite fold_left_app, IH, tallyQuote_events.
Qed.

Lemma arrFind_Some {A} (P : A -> Prop) `{forall x, Decision (P x)} (l : list A) x :
  arrFind P l = Some x -> (x ∈ l) /\ P x.
Proof.
  unfold arrFind. destruct (list_find P l) as [[i y]|] eqn:E; [|discriminate].
  intros [= <-]. apply list_find_Some in E as (Hi & HP & _).
  split; [eapply list_elem_of_lookup_2; eauto | exact HP].
Qed.

Lemma arrFind_None {A} (P : A -> Prop) `{forall x, Decision (P x)} (l : list A) :
  arrFind P l = None -> ~ Exists P l.
Proof.
  unfold arrFind. destruct (list_find P l) as [[i y]|] eqn:E; [discriminate|].
  intros _. apply list_find_None in E. now apply Forall_Exists_neg.
Qed.

Lemma arrFind_Exists {A} (P : A -> Prop) `{forall x, Decision (P x)} (l : list A) :
  Exists P l -> exists x, arrFind P l = Some x.
Proof.
  intros Hex. destruct (arrFind P l) as [x|] eqn:E; [now exists x|].
  now apply arrFind_None in E.
Qed.

Lemma omap_filter_length {A B} (h : A -> option B)
    (P : B -> Prop) `{forall x, Decision (P x)}
    (Q : A -> Prop) `{forall x, Decision (Q x)} (l : list A) :
  (forall r, r ∈ l -> ((exists ev, h r = Some ev /\ P ev) <-> Q r)) ->
  length (filter P (omap h l)) = length (filter Q l).
Proof.
  induction l as [|r l IH]; intros Hall; [reflexivity|].
  assert (Hl : length (filter P (omap h l)) = length (filter Q l)).
  { apply IH. intros x Hx. apply Hall. now right. }
  specialize (Hall r (list_elem_of_here _ _)).
  cbn [omap list_omap]. rewrite (filter_cons Q). destruct (h r) as [ev|] eqn:E.
  - rewrite filter_cons.
    destruct (decide (P ev)) as [HP|HP], (decide (Q r)) as [HQ|HQ]; simpl; try lia.
    + exfalso. apply HQ, Hall. now exists ev.
    + exfalso. apply Hall in HQ as (ev' & [= <-] & HP'). tauto.
  - destruct (decide (Q r)) as [HQ|HQ]; [|exact Hl].
    exfalso. apply Hall in HQ as (ev' & Hev & _). discriminate.
Qed.

Lemma count_in_NoDup {A} `{EqDecision A} (x : A) (l : list A) :
  NoDup l -> length (filter (fun y => y = x) l) = if decide (x ∈ l) then 1 else 0.
Proof.
  induction l as [|y l IH]; intros Hnd; [reflexivity|].
  apply NoDup_cons in Hnd as [Hy Hnd]. specialize (IH Hnd). rewrite filter_cons.
  destruct (decide (y = x)) as [->|Hne].
  - rewrite decide_True by left. simpl. rewrite IH. now rewrite decide_False.
  - rewrite IH. destruct (decide (x ∈ l)) as [Hin|Hout].
    + now rewrite decide_True by now right.
    + rewrite decide_False; [reflexivity|].
      intros Hc. apply elem_of_cons in Hc as [->|Hc]; tauto.
Qed.

Lemma events_named g c qe c' :
  NoDup (relations g) ->
  length (filter (fun ev => name (fst ev) = c') (eventsFor g c qe)) =
  if decide (c' <> c /\ named g "code" c' /\ codesLink g c' (name qe)) then 1 else 0.
Proof.
  intros Hnd. unfold eventsFor.
  rewrite (omap_filter_length _ _
             (fun r => r = mkRelation c' (name qe) "codes" /\ c' <> c /\ named g "code" c')).
  - destruct (decide (c' <> c /\ named g "code" c')) as [[Hne Hcode]|Hno].
    + rewrite (list_filter_iff _ (fun r => r = mkRelation c' (name qe) "codes"))
        by (intros r; tauto).
      rewrite (count_in_NoDup _ _ Hnd). unfold codesLink.
      destruct (decide (mkRelation c' (name qe) "codes" ∈ relations g)) as [Hin|Hout].
      * now rewrite decide_True by (split; [|split]; assumption).
      * rewrite decide_False; [reflexivity | tauto].
    + rewrite filter_none by (intros r _; tauto).
      rewrite decide_False; [reflexivity | tauto].
  - intros r Hr. split.
    + intros (ev & Hev & Hname).
      destruct (decide _) as [(Ht & Hf & Hto)|]; [|discriminate].
      destruct (arrFind _ (entities g)) as [oc|] eqn:E; [|discriminate].
      injection Hev as <-. simpl in Hname.
      apply arrFind_Some in E as (Hin & Hn & Hty).
      split; [|split].
      * destruct r; simpl in *; congruence.
      * congruence.
      * apply Exists_exists. exists oc. split; [exact Hin|]. split; [exact Hname | exact Hty].
    + intros (-> & Hne & Hcode). simpl.
      rewrite decide_True by auto.
      destruct (arrFind_Exists _ _ Hcode) as [oc Hoc]. rewrite Hoc.
      exists (oc, qe). split; [reflexivity|]. simpl.
      now apply arrFind_Some in Hoc as (_ & Hn & _).
Qed.

Lemma events_named_total g c quotes c' :
  NoDup (relations g) ->
  length (filter (fun ev => name (fst ev) = c') (concat (eventsFor g c <$> quotes))) =
  if decide (c' <> c /\ named g "code" c')
  then length (filter (codesLink g c') (name <$> quotes))
  else 0.
Proof.
  intros Hnd. induction quotes as [|qe r IH].
  - simpl. now destruct (decide _).
  - rewrite fmap_cons. cbn [concat]. rewrite filter_app, length_app, IH, events_named by exact Hnd.
    rewrite fmap_cons, filter_cons.
    destruct (decide (c' <> c /\ named g "code" c')) as [[Hne Hcode]|Hno].
    + destruct (decide (codesLink g c' (name qe))) as [Hl|Hl].
      * now rewrite decide_True by (split; [|split]; assumption).
      * rewrite decide_False; [reflexivity | tauto].
    + rewrite decide_False; [reflexivity | tauto].
Qed.

Lemma quotesCodedBy_names g c :
  name <$> quotesCodedBy g c =
  to <$> filter (fun r => relationType r = "codes" /\ from r = c /\ named g "quote" (to r))
                (relations g).
Proof.
  unfold quotesCodedBy, collectVia.
  induction (relations g) as [|r l IH]; [reflexivity|].
  cbn [omap list_omap]. rewrite filter_cons.
  destruct (decide (relationType r = "codes" /\ from r = c)) as [[Ht Hf]|Hno].
  - destruct (arrFind _ (entities g)) as [qe|] eqn:E.
    + pose proof (arrFind_Some _ _ _ E) as (Hin & Hn & Hty).
      rewrite decide_True.
      * rewrite !fmap_cons, IH. now rewrite Hn.
      * split; [exact Ht|]. split; [exact Hf|]. apply Exists_exists. exists qe.
        split; [exact Hin|]. split; [exact Hn | exact Hty].
    + apply arrFind_None in E. rewrite decide_False; [exact IH|].
      intros (_ & _ & Hq). now apply E.
  - rewrite decide_False; [exact IH | tauto].
Qed.

Lemma quotesCodedBy_NoDup g c :
  NoDup (relations g) -> NoDup (name <$> quotesCodedBy g c).
Proof.
  intros Hnd. rewrite quotesCodedBy_names.
  apply NoDup_fmap_2_strong; [|now apply NoDup_filter].
  intros x y Hx Hy Hto.
  apply list_elem_of_filter in Hx as [(Hxt & Hxf & _) _].
  apply list_elem_of_filter in Hy as [(Hyt & Hyf & _) _].
  destruct x, y; simpl in *; congruence.
Qed.

Lemma quotesCodedBy_elem g c q :
  q ∈ (name <$> quotesCodedBy g c) <-> codesLink g c q /\ named g "quote" q.
Proof.
  rewrite quotesCodedBy_names, list_elem_of_fmap. unfold codesLink. split.
  - intros (r & -> & Hr). apply list_elem_of_filter in Hr as [(Ht & Hf & Hq) Hr].
    split; [|exact Hq]. destruct r; simpl in *; now subst.
  - intros [Hl Hq]. exists (mkRelation c q "codes"). split; [reflexivity|].
    apply list_elem_of_filter. simpl. auto.
Qed.

Lemma quoteNames_elem g q : q ∈ quoteNames g <-> named g "quote" q.
Proof.
  unfold quoteNames, named. rewrite elem_of_remove_dups, list_elem_of_fmap, Exists_exists.
  split.
  - intros (e & -> & He). apply list_elem_of_filter in He as [Hty He].
    exists e. split; [exact He|]. split; [reflexivity | exact Hty].
  - intros (e & He & Hn & Hty). exists e. split; [now symmetry|].
    apply list_elem_of_filter. split; assumption.
Qed.

Lemma shared_count g c c' :
  NoDup (relations g) ->
  length (filter (codesLink g c') (name <$> quotesCodedBy g c)) = length (sharedQuotes g c c').
Proof.
  intros Hnd. apply Permutation_length, NoDup_Permutation.
  - apply NoDup_filter, quotesCodedBy_NoDup, Hnd.
  - apply NoDup_filter, NoDup_remove_dups.
  - intros q. unfold sharedQuotes.
    rewrite !list_elem_of_filter, quotesCodedBy_elem, quoteNames_elem. tauto.
Qed.

Lemma sharedQuotes_sym g c c' : sharedQuotes g c c' = sharedQuotes g c' c.
Proof. unfold sharedQuotes. apply list_filter_iff. intros q. tauto. Qed.

Lemma elem_of_concat {A} (x : A) (ls : list (list A)) :
  x ∈ concat ls <-> exists l, (x ∈ l) /\ (l ∈ ls).
Proof.
  induction ls as [|l ls IH]; simpl.
  - split; [intros Hx; inversion Hx | intros (l & _ & Hl); inversion Hl].
  - rewrite elem_of_app, IH. split.
    + intros [Hx|(l' & Hx & Hl')]; [exists l; split; [exact Hx | left]|].
      exists l'. split; [exact Hx | now right].
    + intros (l' & Hx & Hl'). apply elem_of_cons in Hl' as [->|Hl']; [now left|].
      right. now exists l'.
Qed.

Lemma event_facts g c qe ev :
  ev ∈ eventsFor g c qe ->
  name (fst ev) <> c /\ entityType (fst ev) = "code" /\ named g "code" (name (fst ev)).
Proof.
  unfold eventsFor. rewrite list_elem_of_omap. intros (r & Hr & Hev).
  destruct (decide _) as [(Ht & Hf & Hto)|]; [|discriminate].
  destruct (arrFind _ (entities g)) as [oc|] eqn:E; [|discriminate].
  injection Hev as <-. simpl. apply arrFind_Some in E as (Hin & Hn & Hty).
  split; [congruence|]. split; [exact Hty|].
  apply Exists_exists. exists oc. auto.
Qed.

Lemma getCodeCooccurrence_unfold c s :
  getCodeCooccurrence c s =
  let g := loadGraphOf s in
  match arrFind (fun e => name e = c /\ entityType e = "code") (entities g) with
  | None => (Err (CodeNotFound c), s)
  | Some found =>
      (Ok (mkCooccurrence found (length (quotesCodedBy g c))
             (sortWith byCountDesc
                (snd <$> fold_left tallyEvent
                           (concat (eventsFor g c <$> quotesCodedBy g c)) []))), s)
  end.
Proof.
  unfold getCodeCooccurrence, bind, loadGraph. cbv zeta.
  destruct (arrFind _ (entities (loadGraphOf s))); [|reflexivity].
  now rewrite tally_all_events.
Qed.

(** The report for the code [c], read against the graph. *)
Lemma cooccurrence_report g c :
  NoDup (relations g) ->
  let report :=
    sortWith byCountDesc
      (snd <$> fold_left tallyEvent (concat (eventsFor g c <$> quotesCodedBy g c)) []) in
  NoDup ((fun o => name (occCode o)) <$> report) /\
  (forall o, o ∈ report ->
     name (occCode o) <> c /\ named g "code" (name (occCode o)) /\
     entityType (occCode o) = "code" /\
     count o = length (sharedQuotes g c (name (occCode o))) /\ 0 < count o) /\
  (forall c', c' <> c -> named g "code" c' -> 0 < length (sharedQuotes g c c') ->
     exists o, (o ∈ report) /\ name (occCode o) = c') /\
  StronglySorted (fun a b => count b <= count a) report.
Proof.
  intros Hnd report.
  set (evs := concat (eventsFor g c <$> quotesCodedBy g c)) in *.
  set (m := fold_left tallyEvent evs []) in *.
  assert (Hm : tallied m evs).
  { apply (tallied_fold evs [] []). split; [constructor|]. split.
    - intros k o Hko. inversion Hko.
    - intros ev Hev. inversion Hev. }
  destruct Hm as (Hkeys & Hentries & Hcover).
  assert (Hperm : report ≡ₚ snd <$> m) by apply sortWith_Permutation.
  assert (Hevent : forall ev, ev ∈ evs ->
            name (fst ev) <> c /\ entityType (fst ev) = "code" /\
            named g "code" (name (fst ev))).
  { intros ev Hev. unfold evs in Hev. apply elem_of_concat in Hev as (l & Hev & Hl).
    apply list_elem_of_fmap in Hl as (qe & -> & _). eapply event_facts; eauto. }
  assert (Hcount : forall c', c' <> c -> named g "code" c' ->
            length (filter (fun ev => name (fst ev) = c') evs) = length (sharedQuotes g c c')).
  { intros c' Hne Hcode. unfold evs.
    rewrite events_named_total, decide_True by auto. now apply shared_count. }
  assert (Hin : forall o, o ∈ report <-> exists k, (k, o) ∈ m).
  { intros o. rewrite Hperm, list_elem_of_fmap. split.
    - intros ([k o'] & -> & Hko). now exists k.
    - intros (k & Hko). now exists (k, o). }
  split; [|split; [|split]].
  - rewrite Hperm, <- list_fmap_compose.
    assert (Hfst : (fun o => name (occCode o)) ∘ snd <$> m = fst <$> m).
    { apply list_fmap_ext. intros i [k o] Hi. simpl.
      apply list_elem_of_lookup_2 in Hi. now destruct (Hentries k o Hi). }
    now rewrite Hfst.
  - intros o Ho. apply Hin in Ho as (k & Hko).
    destruct (Hentries k o Hko) as (Hname & Hcnt & (ev & Hev & Hfst)).
    destruct (Hevent ev Hev) as (Hne & Hty & Hcode). rewrite Hfst in *.
    split; [exact Hne|]. split; [exact Hcode|]. split; [exact Hty|].
    assert (Hlen : count o = length (sharedQuotes g c (name (occCode o)))).
    { rewrite Hcnt, <- Hname. now apply Hcount. }
    split; [exact Hlen|].
    rewrite Hcnt.
    assert (Hmem : ev ∈ filter (fun ev0 => name (fst ev0) = k) evs)
      by (apply list_elem_of_filter; split; [congruence | exact Hev]).
    destruct (filter _ evs); [inversion Hmem | simpl; lia].
  - intros c' Hne Hcode Hpos. rewrite <- (Hcount c' Hne Hcode) in Hpos.
    destruct (filter (fun ev => name (fst ev) = c') evs) as [|ev rest] eqn:E;
      [simpl in Hpos; lia|].
    assert (Hev : ev ∈ filter (fun ev => name (fst ev) = c') evs) by (rewrite E; left).
    apply list_elem_of_filter in Hev as [Hname Hev].
    specialize (Hcover ev Hev). rewrite Hname in Hcover.
    apply list_elem_of_fmap in Hcover as ([k o] & Hk & Hko). simpl in Hk. subst k.
    exists o. split; [apply Hin; now exists c'|].
    now destruct (Hentries c' o Hko).
  - rewrite <- (list_fmap_id report).
    apply (StronglySorted_fmap_impl (fun a b => (byCountDesc a b <= 0)%Z)).
    + intros a b Hab. unfold byCountDesc in Hab. simpl. lia.
    + apply sortWith_sorted; intros; unfold byCountDesc in *; lia.
Qed.

(** C8. In a graph whose relations are free of duplicates, the report of
    [getCodeCooccurrence c] has one entry per other code that shares a
    quote with [c], its count is the number of quotes to which both
    codes are applied, and the entries come in descending order of
    count. The count [c1] reports for [c2] is the count [c2] reports for
    [c1]; two codes applied to one quote each report the other with
    count 1. *)
Theorem cooccurrence_counts_shared_quotes (s : store) :
  let g := loadGraphOf s in
  NoDup (relations g) ->
  (forall c, ~ named g "code" c -> getCodeCooccurrence c s = (Err (CodeNotFound c), s)) /\
  (forall c, named g "code" c ->
     exists res,
       getCodeCooccurrence c s = (Ok res, s) /\
       NoDup ((fun o => name (occCode o)) <$> cooccurringCodes res) /\
       (forall o, o ∈ cooccurringCodes res ->
          name (occCode o) <> c /\ named g "code" (name (occCode o)) /\
          entityType (occCode o) = "code" /\
          count o = length (sharedQuotes g c (name (occCode o))) /\ 0 < count o) /\
       (forall c', c' <> c -> named g "code" c' -> 0 < length (sharedQuotes g c c') ->
          exists o, (o ∈ cooccurringCodes res) /\ name (occCode o) = c') /\
       StronglySorted (fun a b => count b <= count a) (cooccurringCodes res)) /\
  (forall c1 c2 r1 r2 o1,
     getCodeCooccurrence c1 s = (Ok r1, s) -> getCodeCooccurrence c2 s = (Ok r2, s) ->
     o1 ∈ cooccurringCodes r1 -> name (occCode o1) = c2 ->
     exists o2, (o2 ∈ cooccurringCodes r2) /\ name (occCode o2) = c1 /\
                count o2 = count o1) /\
  reportOf (getCodeCooccurrence "C1" (FileGraph cooccurrenceScenario)) = Some [("C2", 1)] /\
  reportOf (getCodeCooccurrence "C2" (FileGraph cooccurrenceScenario)) = Some [("C1", 1)].
Proof.
  intros g Hnd.
  assert (Hok : forall c res, getCodeCooccurrence c s = (Ok res, s) ->
            named g "code" c /\
            cooccurringCodes res =
              sortWith byCountDesc
                (snd <$> fold_left tallyEvent
                           (concat (eventsFor g c <$> quotesCodedBy g c)) [])).
  { intros c res. rewrite getCodeCooccurrence_unfold. cbv zeta. fold g.
    destruct (arrFind _ (entities g)) as [found|] eqn:E; [|discriminate].
    intros [= <-]. split; [|reflexivity].
    apply arrFind_Some in E as [Hin HP]. apply Exists_exists. now exists found. }
  split; [|split; [|split; [|split]]].
  - intros c Hno. rewrite getCodeCooccurrence_unfold. cbv zeta. fold g.
    destruct (arrFind _ (entities g)) as [found|] eqn:E; [|reflexivity].
    exfalso. apply Hno. apply arrFind_Some in E as [Hin HP].
    apply Exists_exists. now exists found.
  - intros c Hcode. destruct (arrFind_Exists _ _ Hcode) as [found Hfound].
    eexists. split.
    + rewrite getCodeCooccurrence_unfold. cbv zeta. fold g. now rewrite Hfound.
    + apply (cooccurrence_report g c Hnd).
  - intros c1 c2 r1 r2 o1 Hr1 Hr2 Ho1 Hname.
    destruct (Hok c1 r1 Hr1) as [Hc1 Hrep1]. destruct (Hok c2 r2 Hr2) as [Hc2 Hrep2].
    destruct (cooccurrence_report g c1 Hnd) as (_ & Hentries1 & _).
    destruct (cooccurrence_report g c2 Hnd) as (_ & Hentries2 & Hcomplete2 & _).
    rewrite <- Hrep1 in Hentries1. rewrite <- Hrep2 in Hentries2, Hcomplete2.
    destruct (Hentries1 o1 Ho1) as (Hne & _ & _ & Hcnt & Hpos). rewrite Hname in *.
    destruct (Hcomplete2 c1) as (o2 & Ho2 & Hname2);
      [congruence | exact Hc1 | rewrite sharedQuotes_sym; lia |].
    exists o2. split; [exact Ho2|]. split; [exact Hname2|].
    destruct (Hentries2 o2 Ho2) as (_ & _ & _ & Hcnt2 & _).
    rewrite Hcnt2, Hname2, sharedQuotes_sym. now symmetry.
  - vm_compute. reflexivity.
  - vm_compute. reflexivity.
Qed.

Lemma cooccurrence_counts_shared_quotes_witness :
  exists r1 r2 o1 o2,
    getCodeCooccurrence "C1" (FileGraph cooccurrenceScenario)
      = (Ok r1, FileGraph cooccurrenceScenario) /\
    getCodeCooccurrence "C2" (FileGraph cooccurrenceScenario)
      = (Ok r2, FileGraph cooccurrenceScenario) /\
    (o1 ∈ cooccurringCodes r1) /\ name (occCode o1) = "C2" /\
    (o2 ∈ cooccurringCodes r2) /\ name (occCode o2) = "C1" /\
    count o2 = count o1 /\
    count o1 = length (sharedQuotes cooccurrenceScenario "C1" "C2").
Proof.
  destruct (cooccurrence_counts_shared_quotes (FileGraph cooccurrenceScenario))
    as (_ & Hreport & Hsym & _); [compute_done|].
  destruct (Hreport "C1") as (r1 & Hr1 & _ & Hentries1 & Hcomplete1 & _); [compute_done|].
  destruct (Hreport "C2") as (r2 & Hr2 & _); [compute_done|].
  destruct (Hcomplete1 "C2") as (o1 & Ho1 & Hname1);
    [discriminate | compute_done | vm_compute; lia |].
  destruct (Hsym "C1" "C2" r1 r2 o1 Hr1 Hr2 Ho1 Hname1) as (o2 & Ho2 & Hname2 & Hcnt).
  destruct (Hentries1 o1 Ho1) as (_ & _ & _ & Hshared & _).
  exists r1, r2, o1, o2. rewrite Hname1 in Hshared. repeat split; assumption.
Defined.

(** * Further properties of the mutation engine *)

Lemma observationsOf_deleteStep g d n :
  observationsOf (deleteObservationsStep g d) n =
  if decide (n = deletionEntityName d)
  then filter (fun x => x ∉ deletionObservations d) (observationsOf g n)
  else observationsOf g n.
Proof.
  unfold deleteObservationsStep, observationsOf.
  destruct (list_find (fun e => name e = deletionEntityName d) (entities g))
    as [[i e]|] eqn:Hfind.
  - cbn [entities]. pose proof Hfind as Hf. apply list_find_Some in Hf as (Hi & Hn & _).
    rewrite (list_find_insert_same _ _ i e) by (simpl; tauto || assumption).
    assert (Hfilter : filter (fun o => arrIncludes (deletionObservations d) o = false)
                        (observations e)
                      = filter (fun x => x ∉ deletionObservations d) (observations e)).
    { apply list_filter_iff. intros x. apply arrIncludes_false. }
    destruct (decide (n = deletionEntityName d)) as [->|Hne].
    + rewrite Hfind. cbn. rewrite decide_True by reflexivity. cbn. exact Hfilter.
    + destruct (list_find (fun e0 => name e0 = n) (entities g)) as [[j y]|] eqn:Hm;
        cbn; [|reflexivity].
      destruct (decide (j = i)) as [->|]; [|reflexivity].
      exfalso. apply list_find_Some in Hm as (Hj & Hy & _). congruence.
  - destruct (decide (n = deletionEntityName d)) as [->|Hne]; [|reflexivity].
    now rewrite Hfind.
Qed.

Lemma observationsOf_deleteAll ds g n :
  observationsOf (fold_left deleteObservationsStep ds g) n =
  filter (fun x => ~ Exists (fun d => deletionEntityName d = n /\ x ∈ deletionObservations d) ds)
         (observationsOf g n).
Proof.
  revert g. induction ds as [|d r IH]; intros g.
  - cbn [fold_left]. symmetry. apply filter_all. intros x _ Hex. inversion Hex.
  - cbn [fold_left]. rewrite IH, observationsOf_deleteStep.
    destruct (decide (n = deletionEntityName d)) as [->|Hne].
    + rewrite list_filter_filter. apply list_filter_iff. intros x.
      rewrite Exists_cons. tauto.
    + apply list_filter_iff. intros x. rewrite Exists_cons.
      split; [|tauto]. intros Hno [[Hd _]|Hr]; [congruence | tauto].
Qed.

Lemma deleteAll_shape ds g :
  name <$> entities (fold_left deleteObservationsStep ds g) = name <$> entities g /\
  relations (fold_left deleteObservationsStep ds g) = relations g.
Proof.
  revert g. induction ds as [|d r IH]; intros g; [split; reflexivity|].
  cbn [fold_left]. destruct (IH (deleteObservationsStep g d)) as [Hn Hr].
  destruct (deleteObservationsStep_shape g d) as [Hn' Hr']. split; congruence.
Qed.

Lemma deleteStep_missing g d :
  deletionEntityName d ∉ (name <$> entities g) -> deleteObservationsStep g d = g.
Proof.
  intros Hmiss. unfold deleteObservationsStep.
  destruct (list_find _ (entities g)) as [[i e]|] eqn:Hfind; [|reflexivity].
  exfalso. apply list_find_Some in Hfind as (Hi & Hn & _). apply Hmiss.
  apply list_elem_of_fmap. exists e. split; [now symmetry | eapply list_elem_of_lookup_2; eauto].
Qed.

(** X1. [deleteObservations] never raises and leaves the entity names
    and the relations as they were; under each name, the entity that
    [find] reaches keeps exactly those of its observations that no
    deletion of the batch lists for that name, in their order; a batch
    that names only missing entities changes nothing. *)
Theorem deleteObservations_removes_exactly (ds : list ObservationDeletion) (s : store) :
  let g := loadGraphOf s in
  exists g',
    deleteObservations ds s = (Ok tt, FileGraph g') /\
    name <$> entities g' = name <$> entities g /\
    relations g' = relations g /\
    (forall n, observationsOf g' n =
       filter (fun x => ~ Exists (fun d => deletionEntityName d = n /\
                                           x ∈ deletionObservations d) ds)
              (observationsOf g n)) /\
    ((forall d, d ∈ ds -> deletionEntityName d ∉ (name <$> entities g)) -> g' = g).
Proof.
  intros g. exists (fold_left deleteObservationsStep ds g).
  split; [reflexivity|]. destruct (deleteAll_shape ds g) as [Hn Hr].
  split; [exact Hn|]. split; [exact Hr|]. split; [intros n; apply observationsOf_deleteAll|].
  clear Hn Hr. generalize g. clear g. induction ds as [|d r IH]; intros g Hmiss; [reflexivity|].
  cbn [fold_left]. rewrite deleteStep_missing by (apply Hmiss; left).
  apply IH. intros d' Hd'. apply Hmiss. now right.
Qed.

Lemma deleteObservations_removes_exactly_witness :
  let g := mkGraph [mkEntity "A" "code" ["x"; "y"; "z"]] [] in
  deleteObservations [mkObsDeletion "Ghost" ["x"]] (FileGraph g) = (Ok tt, FileGraph g).
Proof.
  intros g.
  destruct (deleteObservations_removes_exactly [mkObsDeletion "Ghost" ["x"]] (FileGraph g))
    as (g' & Hrun & _ & _ & _ & Hsame).
  rewrite Hrun, Hsame; [reflexivity|].
  apply Forall_forall. repeat constructor. compute_done.
Defined.

Lemma deleteRelations_unfold rs s :
  deleteRelations rs s =
  (Ok tt, FileGraph (mkGraph (entities (loadGraphOf s))
                       (filter (fun r => r ∉ rs) (relations (loadGraphOf s))))).
Proof.
  unfold deleteRelations, bind, loadGraph, saveGraph. cbn. do 3 f_equal.
  apply list_filter_iff. intros r. rewrite arrSome_false. split.
  - intros Hno Hin. apply (Hno r Hin). auto.
  - intros Hout x Hx (Hf & Ht & Hty). apply Hout.
    destruct r, x; cbn in *; subst. exact Hx.
Qed.

(** X2. [deleteRelations] never raises, leaves the entities as they
    were, removes exactly the stored relations equal to a listed triple
    (all copies of it), and deleting the same list again changes
    nothing. *)
Theorem deleteRelations_removes_exactly (rs : list Relation) (s : store) :
  let g := loadGraphOf s in
  let g' := mkGraph (entities g) (filter (fun r => r ∉ rs) (relations g)) in
  deleteRelations rs s = (Ok tt, FileGraph g') /\
  (forall r, r ∈ relations g' <-> (r ∈ relations g) /\ (r ∉ rs)) /\
  sublist (relations g') (relations g) /\
  deleteRelations rs (FileGraph g') = (Ok tt, FileGraph g').
Proof.
  intros g g'. split; [apply deleteRelations_unfold|]. split; [|split].
  - intros r. unfold g'. cbn. rewrite list_elem_of_filter. tauto.
  - apply sublist_filter.
  - rewrite deleteRelations_unfold. unfold g'. cbn. do 3 f_equal.
    apply filter_all. intros r Hr. apply list_elem_of_filter in Hr. tauto.
Qed.

Lemma createEntities_ok es s :
  (forall x, x ∈ es -> validateEntityType (entityType x) = true) ->
  let created := filter (fun x => name x ∉ (name <$> entities (loadGraphOf s))) es in
  createEntities es s =
  (Ok created, FileGraph (mkGraph (entities (loadGraphOf s) ++ created)
                                  (relations (loadGraphOf s)))).
Proof.
  intros Hvalid. cbv zeta. rewrite createEntities_unfold. cbv zeta.
  now rewrite (entityTypes_valid es Hvalid), absent_names_filter.
Qed.

Lemma createRelations_ok rs s :
  (forall r, r ∈ rs ->
     (from r ∈ (name <$> entities (loadGraphOf s))) /\
     (to r ∈ (name <$> entities (loadGraphOf s))) /\
     validateRelationType (relationType r) = true) ->
  let created :=
    filter (fun r => relationKey r ∉ (relationKey <$> relations (loadGraphOf s))) rs in
  createRelations rs s =
  (Ok created, FileGraph (mkGraph (entities (loadGraphOf s))
                                  (relations (loadGraphOf s) ++ created))).
Proof.
  intros Hvalid. cbv zeta. rewrite createRelations_unfold. cbv zeta.
  assert (Hok : firstError (relationError (nameSet (entities (loadGraphOf s)))) rs = None).
  { apply firstError_None. intros r Hr. apply relationError_None.
    rewrite !in_nameSet. now apply Hvalid. }
  now rewrite Hok, absent_keys_filter.
Qed.

(** X3. Creating a batch of relations none of which is stored and then
    deleting the same batch gives back the stored graph. *)
Theorem createRelations_then_deleteRelations (rs : list Relation) (s : store) :
  let g := loadGraphOf s in
  (forall r, r ∈ rs ->
     (from r ∈ (name <$> entities g)) /\ (to r ∈ (name <$> entities g)) /\
     validateRelationType (relationType r) = true) ->
  (forall r, r ∈ rs -> r ∉ relations g) ->
  exists created s',
    createRelations rs s = (Ok created, s') /\
    deleteRelations rs s' = (Ok tt, FileGraph g).
Proof.
  intros g Hvalid Hnew.
  eexists _, _. split; [apply (createRelations_ok rs s Hvalid)|].
  rewrite deleteRelations_unfold. cbn. fold g. rewrite filter_app.
  rewrite (filter_all _ (relations g)) by (intros r Hr Hin; now apply (Hnew r Hin)).
  rewrite (filter_none (fun r => r ∉ rs)).
  - rewrite app_nil_r. now destruct g.
  - intros r Hr Hout. apply Hout. apply list_elem_of_filter in Hr. tauto.
Qed.

Lemma createRelations_then_deleteRelations_witness :
  let g := mkGraph [mkEntity "A" "code" []; mkEntity "Q" "quote" []] [] in
  exists created s',
    createRelations [mkRelation "A" "Q" "codes"] (FileGraph g) = (Ok created, s') /\
    deleteRelations [mkRelation "A" "Q" "codes"] s' = (Ok tt, FileGraph g).
Proof.
  intros g.
  apply (createRelations_then_deleteRelations [mkRelation "A" "Q" "codes"] (FileGraph g)).
  - apply Forall_forall. repeat constructor; compute_done.
  - apply Forall_forall. repeat constructor. compute_done.
Defined.

Lemma deleteRelations_removes_exactly_witness :
  let g := mkGraph [mkEntity "A" "code" []; mkEntity "Q" "quote" []]
                   [mkRelation "A" "Q" "codes"; mkRelation "Q" "A" "related_to";
                    mkRelation "A" "Q" "codes"] in
  deleteRelations [mkRelation "A" "Q" "codes"] (FileGraph g)
  = (Ok tt, FileGraph (mkGraph [mkEntity "A" "code" []; mkEntity "Q" "quote" []]
                               [mkRelation "Q" "A" "related_to"])).
Proof.
  intros g.
  destruct (deleteRelations_removes_exactly [mkRelation "A" "Q" "codes"] (FileGraph g))
    as (Hrun & _).
  rewrite Hrun. vm_compute. reflexivity.
Defined.

(** X4. In a graph without dangling relations, creating a batch of
    entities none of whose names is stored and then deleting those names
    gives back the stored graph. *)
Theorem createEntities_then_deleteEntities (es : list Entity) (s : store) :
  let g := loadGraphOf s in
  (forall x, x ∈ es -> validateEntityType (entityType x) = true) ->
  (forall x, x ∈ es -> name x ∉ (name <$> entities g)) ->
  (forall r, r ∈ relations g ->
     (from r ∈ (name <$> entities g)) /\ (to r ∈ (name <$> entities g))) ->
  exists s',
    createEntities es s = (Ok es, s') /\
    deleteEntities (name <$> es) s' = (Ok tt, FileGraph g).
Proof.
  intros g Hvalid Hnew Hclosed.
  pose proof (createEntities_ok es s Hvalid) as Hrun. cbv zeta in Hrun. fold g in Hrun.
  rewrite (filter_all _ es) in Hrun by exact Hnew.
  eexists. split; [exact Hrun|].
  rewrite deleteEntities_unfold. cbn. fold g. rewrite filter_app.
  rewrite (filter_all _ (entities g)).
  2:{ intros e He Hin. apply list_elem_of_fmap in Hin as (x & Hname & Hx).
      apply (Hnew x Hx). rewrite <- Hname. now apply list_elem_of_fmap_2. }
  rewrite (filter_none _ es) by (intros x Hx Hout; apply Hout; now apply list_elem_of_fmap_2).
  rewrite app_nil_r, (filter_all _ (relations g)); [now destruct g|].
  intros r Hr. destruct (Hclosed r Hr) as [Hf Ht].
  split; intros Hin; apply list_elem_of_fmap in Hin as (x & Hname & Hx);
    apply (Hnew x Hx); congruence.
Qed.

Lemma createEntities_then_deleteEntities_witness :
  let g := mkGraph [mkEntity "A" "code" []; mkEntity "Q" "quote" []]
                   [mkRelation "A" "Q" "codes"] in
  exists s',
    createEntities [mkEntity "B" "theme" ["t"]] (FileGraph g)
      = (Ok [mkEntity "B" "theme" ["t"]], s') /\
    deleteEntities ["B"] s' = (Ok tt, FileGraph g).
Proof.
  intros g.
  apply (createEntities_then_deleteEntities [mkEntity "B" "theme" ["t"]] (FileGraph g)).
  - apply Forall_forall. repeat constructor.
  - apply Forall_forall. repeat constructor. compute_done.
  - apply Forall_forall. repeat constructor; compute_done.
Defined.

Lemma deleteStep_after_append n xs g :
  (n ∈ (name <$> entities g)) -> (forall x, x ∈ xs -> x ∉ observationsOf g n) ->
  deleteObservationsStep (appendObservations n xs g) (mkObsDeletion n xs) = g.
Proof.
  intros Hin Hfresh. unfold appendObservations, observationsOf in *.
  destruct (list_find (fun e => name e = n) (entities g)) as [[i e]|] eqn:Hfind.
  2:{ exfalso. apply list_find_None in Hfind.
      apply list_elem_of_fmap in Hin as (x & -> & Hx).
      rewrite Forall_forall in Hfind. now apply (Hfind x Hx). }
  pose proof Hfind as Hf. apply list_find_Some in Hf as (Hi & Hn & _).
  unfold deleteObservationsStep. cbn [entities relations deletionEntityName deletionObservations].
  rewrite (list_find_insert_same _ _ i e) by (simpl; tauto || assumption).
  rewrite Hfind. cbn. rewrite decide_True by reflexivity.
  rewrite list_insert_insert_eq.
  assert (Hobs : filter (fun o => arrIncludes xs o = false) (observations e ++ xs)
                 = observations e).
  { rewrite filter_app, (filter_all _ (observations e)), (filter_none _ xs).
    - apply app_nil_r.
    - intros x Hx Hc. apply arrIncludes_false in Hc. tauto.
    - intros x Hx. apply arrIncludes_false. intros Hc. now apply (Hfresh x Hc). }
  unfold setObservations. cbn [observations name entityType]. rewrite Hobs.
  replace (mkEntity (name e) (entityType e) (observations e)) with e by now destruct e.
  rewrite list_insert_id by exact Hi. now destruct g.
Qed.

(** X5. Adding to an existing entity observations it does not hold and
    then deleting the same observations from it gives back the stored
    graph. *)
Theorem addObservations_then_deleteObservations (n : string) (contents : list string)
    (s : store) :
  let g := loadGraphOf s in
  (n ∈ (name <$> entities g)) ->
  (forall x, x ∈ contents -> x ∉ observationsOf g n) ->
  exists s',
    addObservations [mkObsInput n contents] s = (Ok [mkObsResult n contents], s') /\
    deleteObservations [mkObsDeletion n contents] s' = (Ok tt, FileGraph g).
Proof.
  intros g Hin Hfresh.
  assert (Hall : freshObservations g (mkObsInput n contents) = contents).
  { unfold freshObservations. cbn. apply filter_all. exact Hfresh. }
  eexists. split.
  - rewrite addObservations_unfold. fold g.
    rewrite forOf_cons, addObservationsStep_ok by exact Hin. rewrite Hall. cbn. reflexivity.
  - unfold deleteObservations, bind, loadGraph, saveGraph. cbn.
    now rewrite deleteStep_after_append.
Qed.

Lemma addObservations_then_deleteObservations_witness :
  let g := mkGraph [mkEntity "A" "code" ["first"]] [] in
  exists s',
    addObservations [mkObsInput "A" ["second"; "second"]] (FileGraph g)
      = (Ok [mkObsResult "A" ["second"; "second"]], s') /\
    deleteObservations [mkObsDeletion "A" ["second"; "second"]] s' = (Ok tt, FileGraph g).
Proof.
  intros g.
  apply (addObservations_then_deleteObservations "A" ["second"; "second"] (FileGraph g)).
  - compute_done.
  - apply Forall_forall. repeat constructor; compute_done.
Defined.

Lemma observationsOf_appendObservations_any n xs g m :
  observationsOf (appendObservations n xs g) m =
  observationsOf g m ++
  (if decide (m = n /\ n ∈ (name <$> entities g)) then xs else []).
Proof.
  destruct (decide (n ∈ (name <$> entities g))) as [Hin|Hout].
  - rewrite observationsOf_append by exact Hin.
    destruct (decide (m = n)) as [->|Hne].
    + now rewrite decide_True.
    + rewrite decide_False by tauto. now rewrite app_nil_r.
  - rewrite decide_False by tauto. rewrite app_nil_r.
    unfold appendObservations.
    destruct (list_find _ (entities g)) as [[i e]|] eqn:Hfind; [|reflexivity].
    exfalso. apply list_find_Some in Hfind as (Hi & Hn & _). apply Hout.
    apply list_elem_of_fmap. exists e. split; [now symmetry | eapply list_elem_of_lookup_2; eauto].
Qed.

Lemma observationsOf_appendAdded res g m :
  (forall r, r ∈ res -> resultEntityName r ∈ (name <$> entities g)) ->
  observationsOf (appendAdded res g) m =
  observationsOf g m ++
  concat (addedObservations <$> filter (fun r => resultEntityName r = m) res).
Proof.
  revert g. induction res as [|r res IH]; intros g Hin.
  - cbn. now rewrite app_nil_r.
  - unfold appendAdded. cbn [fold_left]. fold (appendAdded res
      (appendObservations (resultEntityName r) (addedObservations r) g)).
    rewrite IH.
    2:{ intros r' Hr'. rewrite appendObservations_names. apply Hin. now right. }
    rewrite observationsOf_appendObservations_any, filter_cons, <- app_assoc. f_equal.
    destruct (decide (resultEntityName r = m)) as [<-|Hne].
    + rewrite decide_True by (split; [reflexivity | apply Hin; left]). reflexivity.
    + rewrite decide_False by (intros [? _]; congruence). reflexivity.
Qed.

Lemma appendAdded_shape res g :
  name <$> entities (appendAdded res g) = name <$> entities g /\
  relations (appendAdded res g) = relations g.
Proof.
  revert g. induction res as [|r res IH]; intros g; [split; reflexivity|].
  unfold appendAdded. cbn [fold_left].
  fold (appendAdded res (appendObservations (resultEntityName r) (addedObservations r) g)).
  destruct (IH (appendObservations (resultEntityName r) (addedObservations r) g)) as [Hn Hr].
  rewrite Hn, Hr. split; [apply appendObservations_names | apply appendObservations_relations].
Qed.

(** X6. A successful [addObservations] only appends: under every name,
    the entity that [find] reaches ends with its former observations
    followed by what the call reports as added for that name, in the
    order of the report; entity names and relations are unchanged. *)
Theorem addObservations_appends_report (obs : list ObservationInput) (s : store)
    (added : list ObservationResult) (s' : store) :
  let g := loadGraphOf s in
  addObservations obs s = (Ok added, s') ->
  let g' := loadGraphOf s' in
  name <$> entities g' = name <$> entities g /\
  relations g' = relations g /\
  forall n, observationsOf g' n =
            observationsOf g n ++
            concat (addedObservations <$> filter (fun r => resultEntityName r = n) added).
Proof.
  intros g Hrun.
  assert (Hnames : forall o, o ∈ obs -> entityName o ∈ (name <$> entities g)).
  { intros o Ho. destruct (decide (entityName o ∈ (name <$> entities g))) as [Hin|Hout];
      [exact Hin|]. exfalso.
    destruct (forOf_addObservations_missing obs (g, []) s (entityName o)) as [m Hm];
      [now apply list_elem_of_fmap_2 | exact Hout |].
    rewrite addObservations_unfold in Hrun. fold g in Hrun. rewrite Hm in Hrun.
    discriminate. }
  destruct (forOf_addObservations_ok obs g [] s Hnames) as (added' & Hrun' & Hdelta & _).
  rewrite addObservations_unfold in Hrun. fold g in Hrun. rewrite Hrun' in Hrun.
  cbn in Hrun. injection Hrun as -> <-. cbn. fold g.
  assert (Hres : forall r, r ∈ added -> resultEntityName r ∈ (name <$> entities g)).
  { intros r Hr. apply list_elem_of_lookup_1 in Hr as [i Hi].
    destruct (Forall2_lookup_r _ _ _ _ _ Hdelta Hi) as (o & Ho & (Hn & _)).
    rewrite Hn. apply Hnames. eapply list_elem_of_lookup_2; eauto. }
  destruct (appendAdded_shape added g) as [Hn Hr].
  split; [exact Hn|]. split; [exact Hr|].
  intros n. now apply observationsOf_appendAdded.
Qed.

Lemma addObservations_appends_report_witness :
  let g := mkGraph [mkEntity "A" "code" ["y"]] [] in
  exists s',
    addObservations [mkObsInput "A" ["x"; "y"]; mkObsInput "A" ["z"; "x"]] (FileGraph g)
      = (Ok [mkObsResult "A" ["x"]; mkObsResult "A" ["z"]], s') /\
    observationsOf (loadGraphOf s') "A" = ["y"; "x"; "z"].
Proof.
  intros g. eexists. split; [vm_compute; reflexivity|].
  destruct (addObservations_appends_report
              [mkObsInput "A" ["x"; "y"]; mkObsInput "A" ["z"; "x"]] (FileGraph g)
              [mkObsResult "A" ["x"]; mkObsResult "A" ["z"]]
              (FileGraph (mkGraph [mkEntity "A" "code" ["y"; "x"; "z"]] [])))
    as (_ & _ & Hobs); [vm_compute; reflexivity|].
  rewrite Hobs. vm_compute. reflexivity.
Defined.

(** ** Status and priority entities *)

Lemma ensureStatusEntity_spec es v :
  (es `prefix_of` ensureStatusEntity es v) /\
  Exists (fun e => name e = statusName v /\ entityType e = "status") (ensureStatusEntity es v) /\
  (Exists (fun e => name e = statusName v /\ entityType e = "status") es ->
   ensureStatusEntity es v = es).
Proof.
  unfold ensureStatusEntity.
  destruct (arrSome _ es) eqn:E.
  - split; [reflexivity|]. split; [|reflexivity].
    apply arrSome_true in E. now apply Exists_exists.
  - split; [now apply prefix_app_r|]. split.
    + apply Exists_app. right. constructor. cbn. auto.
    + intros Hex. apply Exists_exists in Hex.
      apply (proj2 (arrSome_true _ es)) in Hex. congruence.
Qed.

Lemma ensurePriorityEntity_spec es v :
  (es `prefix_of` ensurePriorityEntity es v) /\
  Exists (fun e => name e = priorityName v /\ entityType e = "priority")
         (ensurePriorityEntity es v) /\
  (Exists (fun e => name e = priorityName v /\ entityType e = "priority") es ->
   ensurePriorityEntity es v = es).
Proof.
  unfold ensurePriorityEntity.
  destruct (arrSome _ es) eqn:E.
  - split; [reflexivity|]. split; [|reflexivity].
    apply arrSome_true in E. now apply Exists_exists.
  - split; [now apply prefix_app_r|]. split.
    + apply Exists_app. right. constructor. cbn. auto.
    + intros Hex. apply Exists_exists in Hex.
      apply (proj2 (arrSome_true _ es)) in Hex. congruence.
Qed.

Lemma Exists_prefix {A} (P : A -> Prop) (l k : list A) :
  l `prefix_of` k -> Exists P l -> Exists P k.
Proof. intros [t ->] Hex. apply Exists_app. now left. Qed.

(** Folding a step that extends the list, establishes [Q v] and is the
    identity where [Q v] holds. *)
Lemma fold_ensure_spec (step : list Entity -> string -> list Entity)
    (Q : string -> Entity -> Prop) (vs : list string) :
  (forall es v, (es `prefix_of` step es v) /\ Exists (Q v) (step es v) /\
                (Exists (Q v) es -> step es v = es)) ->
  forall es,
    (es `prefix_of` fold_left step vs es) /\
    (forall v, v ∈ vs -> Exists (Q v) (fold_left step vs es)) /\
    ((forall v, v ∈ vs -> Exists (Q v) es) -> fold_left step vs es = es).
Proof.
  intros Hstep. induction vs as [|v r IH]; intros es.
  - cbn [fold_left]. split; [reflexivity|]. split; [|reflexivity]. intros v Hv. inversion Hv.
  - cbn [fold_left]. destruct (Hstep es v) as (Hp & Hq & Hid).
    destruct (IH (step es v)) as (Hp' & Hq' & Hid'). split; [|split].
    + etransitivity; eauto.
    + intros w Hw. apply elem_of_cons in Hw as [->|Hw]; [|now apply Hq'].
      eapply Exists_prefix; eauto.
    + intros Hall. rewrite Hid by (apply Hall; left).
      destruct (IH es) as (_ & _ & Hid''). apply Hid''. intros w Hw. apply Hall. now right.
Qed.

Lemma initialize_unfold s :
  initializeStatusAndPriority s =
  (Ok tt, FileGraph (mkGraph
     (fold_left ensurePriorityEntity VALID_PRIORITY_VALUES
        (fold_left ensureStatusEntity VALID_STATUS_VALUES (entities (loadGraphOf s))))
     (relations (loadGraphOf s)))).
Proof. reflexivity. Qed.

(** X7. [initializeStatusAndPriority] never raises, keeps the stored
    entities as a prefix of the new list and the relations as they were,
    leaves for every status value [v] an entity named [status:v] of type
    [status] and for every priority value an entity named [priority:v]
    of type [priority], and run again it changes nothing. *)
Theorem initializeStatusAndPriority_idempotent (s : store) :
  let g := loadGraphOf s in
  exists g',
    initializeStatusAndPriority s = (Ok tt, FileGraph g') /\
    (entities g `prefix_of` entities g') /\
    relations g' = relations g /\
    (forall v, v ∈ VALID_STATUS_VALUES -> named g' "status" (statusName v)) /\
    (forall v, v ∈ VALID_PRIORITY_VALUES -> named g' "priority" (priorityName v)) /\
    initializeStatusAndPriority (FileGraph g') = (Ok tt, FileGraph g').
Proof.
  intros g. eexists. split; [apply initialize_unfold|]. fold g.
  set (es1 := fold_left ensureStatusEntity VALID_STATUS_VALUES (entities g)).
  set (es2 := fold_left ensurePriorityEntity VALID_PRIORITY_VALUES es1).
  destruct (fold_ensure_spec ensureStatusEntity
              (fun v e => name e = statusName v /\ entityType e = "status")
              VALID_STATUS_VALUES ensureStatusEntity_spec (entities g)) as (Hp1 & Hq1 & _).
  destruct (fold_ensure_spec ensurePriorityEntity
              (fun v e => name e = priorityName v /\ entityType e = "priority")
              VALID_PRIORITY_VALUES ensurePriorityEntity_spec es1) as (Hp2 & Hq2 & _).
  fold es1 in Hp1, Hq1. fold es2 in Hp2, Hq2.
  assert (Hst : forall v, v ∈ VALID_STATUS_VALUES ->
            Exists (fun e => name e = statusName v /\ entityType e = "status") es2).
  { intros v Hv. eapply Exists_prefix; [exact Hp2 | now apply Hq1]. }
  cbn [entities relations]. split; [etransitivity; eauto|]. split; [reflexivity|].
  split; [exact Hst|]. split; [exact Hq2|].
  rewrite initialize_unfold. cbn [loadGraphOf readAndParse entities relations].
  destruct (fold_ensure_spec ensureStatusEntity
              (fun v e => name e = statusName v /\ entityType e = "status")
              VALID_STATUS_VALUES ensureStatusEntity_spec es2) as (_ & _ & Hid1).
  rewrite (Hid1 Hst).
  destruct (fold_ensure_spec ensurePriorityEntity
              (fun v e => name e = priorityName v /\ entityType e = "priority")
              VALID_PRIORITY_VALUES ensurePriorityEntity_spec es2) as (_ & _ & Hid2).
  now rewrite (Hid2 Hq2).
Qed.

(** X8. The two setters do not interfere: setting the status of an
    entity changes neither the entities, nor what [getEntityPriority]
    returns for any entity, nor what [getEntityStatus] returns for any
    other entity; and likewise with status and priority exchanged. *)
Theorem setters_do_not_interfere (n v : string) (s : store) :
  let afterStatus := snd (setEntityStatus n v s) in
  let afterPriority := snd (setEntityPriority n v s) in
  entities (loadGraphOf afterStatus) = entities (loadGraphOf s) /\
  entities (loadGraphOf afterPriority) = entities (loadGraphOf s) /\
  (forall m, fst (getEntityPriority m afterStatus) = fst (getEntityPriority m s)) /\
  (forall m, m <> n -> fst (getEntityStatus m afterStatus) = fst (getEntityStatus m s)) /\
  (forall m, fst (getEntityStatus m afterPriority) = fst (getEntityStatus m s)) /\
  (forall m, m <> n -> fst (getEntityPriority m afterPriority) = fst (getEntityPriority m s)).
Proof.
  cbv zeta. rewrite setEntityStatus_unfold, setEntityPriority_unfold.
  destruct (decide (v ∈ VALID_STATUS_VALUES)), (decide (v ∈ VALID_PRIORITY_VALUES));
    cbn [snd loadGraphOf readAndParse entities];
    (split; [reflexivity|]); (split; [reflexivity|]);
    repeat split; intros m; try intros Hne;
    rewrite ?getEntityStatus_unfold, ?getEntityPriority_unfold;
    unfold statusEdges, priorityEdges, edgesFrom; cbn [fst relations loadGraphOf readAndParse];
    rewrite ?edges_after_replace;
    try reflexivity;
    rewrite decide_False; try reflexivity; intros [? ?]; congruence.
Qed.

(** X9. After [deleteEntities names], every deleted name has neither a
    status nor a priority: both getters return [null] for it. *)
Theorem deleteEntities_clears_status (names : list string) (n : string) (s : store) :
  n ∈ names ->
  let s' := snd (deleteEntities names s) in
  getEntityStatus n s' = (Ok JNull, s') /\ getEntityPriority n s' = (Ok JNull, s').
Proof.
  intros Hin. cbv zeta. rewrite deleteEntities_unfold. cbn [snd].
  rewrite getEntityStatus_unfold, getEntityPriority_unfold.
  unfold statusEdges, priorityEdges, edgesFrom. cbn [loadGraphOf readAndParse relations].
  rewrite !list_filter_filter.
  split; (rewrite filter_none; [reflexivity|]);
    intros r _ [[Hf _] [Hout _]]; apply Hout; now rewrite Hf.
Qed.

Lemma deleteEntities_clears_status_witness :
  let s := FileGraph (mkGraph [mkEntity "X" "project" []; mkEntity "status:draft" "status" []]
                              [mkRelation "X" "status:draft" "has_status"]) in
  getEntityStatus "X" s = (Ok (JStr "draft"), s) /\
  fst (getEntityStatus "X" (snd (deleteEntities ["X"] s))) = Ok JNull.
Proof.
  intros s. split; [reflexivity|].
  destruct (deleteEntities_clears_status ["X"] "X" s) as [Hst _]; [compute_done|].
  cbv zeta in Hst. now rewrite Hst.
Defined.

Lemma initializeStatusAndPriority_idempotent_witness :
  exists g',
    initializeStatusAndPriority FileAbsent = (Ok tt, FileGraph g') /\
    named g' "status" (statusName "coded") /\
    initializeStatusAndPriority (FileGraph g') = (Ok tt, FileGraph g').
Proof.
  destruct (initializeStatusAndPriority_idempotent FileAbsent)
    as (g' & Hrun & _ & _ & Hstatus & _ & Hagain).
  exists g'. split; [exact Hrun|]. split; [|exact Hagain].
  apply Hstatus. compute_done.
Defined.

Lemma setters_do_not_interfere_witness :
  let s := FileGraph (mkGraph [mkEntity "A" "quote" []; mkEntity "B" "quote" []]
                              [mkRelation "A" "priority:high" "has_priority";
                               mkRelation "B" "status:coded" "has_status"]) in
  fst (getEntityPriority "A" (snd (setEntityStatus "A" "coded" s))) = Ok (JStr "high") /\
  fst (getEntityStatus "B" (snd (setEntityStatus "A" "coded" s))) = Ok (JStr "coded").
Proof.
  intros s.
  destruct (setters_do_not_interfere "A" "coded" s) as (_ & _ & Hpriority & Hstatus & _).
  rewrite Hpriority, (Hstatus "B") by discriminate. split; reflexivity.
Defined.

(** ** The key of a relation *)

Lemma colonFree_cons c r : colonFree (String c r) = true <-> c <> ":"%char /\ colonFree r = true.
Proof.
  cbn. rewrite andb_true_iff, negb_true_iff. split; intros [Hc Hr]; (split; [|exact Hr]).
  - intros ->. now rewrite Ascii.eqb_refl in Hc.
  - now apply Ascii.eqb_neq.
Qed.

Lemma colonFree_with_colon a b : colonFree (a +:+ String ":" b) = false.
Proof.
  induction a as [|c a IH]; [reflexivity|].
  rewrite append_cons. cbn. rewrite IH. apply andb_false_r.
Qed.

Lemma split_at_first_colon a a' x x' :
  colonFree a = true -> colonFree a' = true ->
  a +:+ String ":" x = a' +:+ String ":" x' -> a = a' /\ x = x'.
Proof.
  revert a'. induction a as [|c a IH]; intros a' Ha Ha' Heq.
  - destruct a' as [|c' a']; rewrite ?append_nil, ?append_cons in Heq.
    + injection Heq as ->. auto.
    + injection Heq as <- _. apply colonFree_cons in Ha' as [Hc _]. now destruct Hc.
  - destruct a' as [|c' a']; rewrite ?append_nil, ?append_cons in Heq.
    + injection Heq as -> _. apply colonFree_cons in Ha as [Hc _]. now destruct Hc.
    + injection Heq as -> Heq.
      apply colonFree_cons in Ha as [_ Ha]. apply colonFree_cons in Ha' as [_ Ha'].
      destruct (IH a' Ha Ha' Heq) as [-> ->]. auto.
Qed.

Lemma split_at_last_colon x x' t t' :
  colonFree t = true -> colonFree t' = true ->
  x +:+ String ":" t = x' +:+ String ":" t' -> x = x' /\ t = t'.
Proof.
  revert x'. induction x as [|c x IH]; intros x' Ht Ht' Heq.
  - destruct x' as [|c' x']; rewrite ?append_nil, ?append_cons in Heq.
    + injection Heq as ->. auto.
    + injection Heq as _ Heq. rewrite Heq, colonFree_with_colon in Ht. discriminate.
  - destruct x' as [|c' x']; rewrite ?append_nil, ?append_cons in Heq.
    + injection Heq as _ Heq. rewrite <- Heq, colonFree_with_colon in Ht'. discriminate.
    + injection Heq as -> Heq. destruct (IH x' Ht Ht' Heq) as [-> ->]. auto.
Qed.

Lemma valid_relationType_colonFree t :
  validateRelationType t = true -> colonFree t = true.
Proof.
  intros Hv. apply arrIncludes_true in Hv. revert t Hv.
  apply Forall_forall. repeat (constructor; [reflexivity|]). constructor.
Qed.

Lemma relationKey_inj r r' :
  colonFree (from r) = true -> colonFree (from r') = true ->
  validateRelationType (relationType r) = true ->
  validateRelationType (relationType r') = true ->
  relationKey r = relationKey r' -> r = r'.
Proof.
  intros Hf Hf' Ht Ht' Hkey. unfold relationKey in Hkey.
  change (from r +:+ ":" +:+ to r +:+ ":" +:+ relationType r)
    with (from r +:+ String ":" (to r +:+ String ":" (relationType r))) in Hkey.
  change (from r' +:+ ":" +:+ to r' +:+ ":" +:+ relationType r')
    with (from r' +:+ String ":" (to r' +:+ String ":" (relationType r'))) in Hkey.
  apply split_at_first_colon in Hkey as [Hfrom Hrest]; [|assumption..].
  apply split_at_last_colon in Hrest as [Hto Htype];
    [|now apply valid_relationType_colonFree..].
  destruct r, r'; cbn in *; congruence.
Qed.

(** X10. When no [from] of a relation, stored or submitted, contains a
    colon and the stored relation types are valid, the key on which
    [createRelations] compares relations identifies the triple: the call
    inserts and returns exactly the submitted relations that are not
    stored. *)
Theorem createRelations_inserts_absent_triples (rs : list Relation) (s : store) :
  let g := loadGraphOf s in
  (forall r, r ∈ rs ->
     (from r ∈ (name <$> entities g)) /\ (to r ∈ (name <$> entities g)) /\
     validateRelationType (relationType r) = true) ->
  (forall r, r ∈ rs -> colonFree (from r) = true) ->
  (forall r, r ∈ relations g ->
     colonFree (from r) = true /\ validateRelationType (relationType r) = true) ->
  let created := filter (fun r => r ∉ relations g) rs in
  createRelations rs s =
  (Ok created, FileGraph (mkGraph (entities g) (relations g ++ created))).
Proof.
  intros g Hvalid Hfrom Hstored created.
  rewrite (createRelations_ok rs s Hvalid). fold g.
  assert (Heq : filter (fun r => relationKey r ∉ (relationKey <$> relations g)) rs = created).
  { apply filter_ext_elem. intros r Hr. split.
    - intros Hkey Hin. apply Hkey. now apply list_elem_of_fmap_2.
    - intros Hout Hkey. apply Hout. apply list_elem_of_fmap in Hkey as (r' & Hk & Hr').
      destruct (Hstored r' Hr') as [Hf' Ht'].
      rewrite (relationKey_inj r r'); auto. now apply Hvalid. }
  now rewrite Heq.
Qed.

Lemma createRelations_inserts_absent_triples_witness :
  let g := mkGraph [mkEntity "A" "code" []; mkEntity "status:draft" "status" []]
                   [mkRelation "A" "status:draft" "has_status"] in
  createRelations [mkRelation "A" "status:draft" "has_status";
                   mkRelation "A" "status:draft" "related_to"] (FileGraph g)
  = (Ok [mkRelation "A" "status:draft" "related_to"],
     FileGraph (mkGraph (entities g)
                  [mkRelation "A" "status:draft" "has_status";
                   mkRelation "A" "status:draft" "related_to"])).
Proof.
  intros g.
  rewrite (createRelations_inserts_absent_triples
             [mkRelation "A" "status:draft" "has_status";
              mkRelation "A" "status:draft" "related_to"] (FileGraph g)).
  - vm_compute. reflexivity.
  - apply Forall_forall. repeat constructor; compute_done.
  - apply Forall_forall. repeat constructor.
  - apply Forall_forall. repeat constructor.
Defined.

(** * Further properties of search and lookup *)

Lemma openNodes_unfold names s :
  openNodes names s =
  (Ok (mkGraph (filter (fun e => name e ∈ names) (entities (loadGraphOf s)))
               (filter (fun r => (from r ∈ names) /\ (to r ∈ names))
                       (relations (loadGraphOf s)))), s).
Proof.
  unfold openNodes, bind, loadGraph, ret. cbn. do 3 f_equal.
  - apply list_filter_iff. intros e. apply arrIncludes_true.
  - apply list_filter_iff. intros r. now rewrite !arrIncludes_true.
Qed.

(** X11. [openNodes] never raises and returns, in stored order, the
    entities whose name is listed and the relations both of whose
    endpoints are listed. On a well-formed graph the result is well
    formed (every returned relation joins returned entities); it is the
    whole graph when every stored name and endpoint is listed, and the
    empty graph for an empty list. *)
Theorem openNodes_induced_subgraph (names : list string) (s : store) :
  let g := loadGraphOf s in
  exists found,
    openNodes names s = (Ok found, s) /\
    sublist (entities found) (entities g) /\
    sublist (relations found) (relations g) /\
    (forall e, e ∈ entities found <-> (e ∈ entities g) /\ (name e ∈ names)) /\
    (forall r, r ∈ relations found <->
       (r ∈ relations g) /\ (from r ∈ names) /\ (to r ∈ names)) /\
    (wellFormed g -> wellFormed found) /\
    ((forall e, e ∈ entities g -> name e ∈ names) ->
     (forall r, r ∈ relations g -> (from r ∈ names) /\ (to r ∈ names)) -> found = g) /\
    (names = [] -> found = emptyGraph).
Proof.
  intros g. eexists. split; [apply openNodes_unfold|]. fold g. cbn [entities relations].
  split; [apply sublist_filter|]. split; [apply sublist_filter|].
  split; [intros e; rewrite list_elem_of_filter; tauto|].
  split; [intros r; rewrite list_elem_of_filter; tauto|].
  split; [|split].
  - intros [Hnd Hclosed]. split; cbn [entities relations].
    + eapply sublist_NoDup; [exact Hnd|]. apply fmap_sublist, sublist_filter.
    + intros r Hr. apply list_elem_of_filter in Hr as [[Hf Ht] Hr].
      destruct (Hclosed r Hr) as [Hfrom Hto].
      apply list_elem_of_fmap in Hfrom as (x & Hx & Hxin).
      apply list_elem_of_fmap in Hto as (y & Hy & Hyin).
      split; apply list_elem_of_fmap; [exists x | exists y];
        (split; [assumption|]); apply list_elem_of_filter; split; congruence.
  - intros Hall Hrel. rewrite !filter_all by assumption. now destruct g.
  - intros ->. rewrite !filter_none; [reflexivity | |].
    + intros r _ [Hf _]. inversion Hf.
    + intros e _ He. inversion He.
Qed.

Lemma openNodes_induced_subgraph_witness :
  let g := mkGraph [mkEntity "A" "code" []; mkEntity "Q" "quote" []; mkEntity "T" "theme" []]
                   [mkRelation "A" "Q" "codes"; mkRelation "A" "T" "supports"] in
  exists found,
    openNodes ["Q"; "A"] (FileGraph g) = (Ok found, FileGraph g) /\ wellFormed found.
Proof.
  intros g.
  destruct (openNodes_induced_subgraph ["Q"; "A"] (FileGraph g))
    as (found & Hrun & _ & _ & _ & _ & Hwf & _).
  exists found. split; [exact Hrun|]. apply Hwf. split.
  - compute_done.
  - apply Forall_forall. repeat constructor; compute_done.
Defined.

Lemma colonFree_app a b : colonFree (a +:+ b) = colonFree a && colonFree b.
Proof.
  induction a as [|c a IH]; [reflexivity|].
  rewrite append_cons. cbn. rewrite IH. apply andb_assoc.
Qed.

Lemma lowerChar_colon c : Ascii.eqb (Str.lowerChar c) ":" = Ascii.eqb c ":".
Proof.
  destruct c as [b0 b1 b2 b3 b4 b5 b6 b7].
  destruct b0, b1, b2, b3, b4, b5, b6, b7; vm_compute; reflexivity.
Qed.

Lemma colonFree_toLowerCase s : colonFree (Str.toLowerCase s) = colonFree s.
Proof.
  induction s as [|c s IH]; [reflexivity|]. cbn. now rewrite lowerChar_colon, IH.
Qed.

Lemma includes_colon t s :
  colonFree t = false -> colonFree s = true -> Str.includes t s = false.
Proof.
  intros Ht Hs. destruct (Str.includes t s) eqn:E; [|reflexivity].
  apply includes_spec in E as (pre & post & ->).
  rewrite !colonFree_app, Ht in Hs. rewrite andb_false_l, andb_false_r in Hs. discriminate.
Qed.

Lemma valid_entityType_colonFree t :
  validateEntityType t = true -> colonFree t = true.
Proof.
  intros Hv. apply arrIncludes_true in Hv. revert t Hv.
  apply Forall_forall. repeat (constructor; [reflexivity|]). constructor.
Qed.

(** X12. A token that contains a colon, such as [entitytype:project],
    is searched as plain text and never meets a valid entity type: when
    the query has such a token and it occurs in no lower-cased name and
    no lower-cased observation of the graph, whose types are valid,
    [searchNodes] returns the empty graph. *)
Theorem searchNodes_qualified_token_is_plain_text (query t : string) (s : store) :
  let g := loadGraphOf s in
  t ∈ tokens query ->
  colonFree t = false ->
  (forall e, e ∈ entities g ->
     validateEntityType (entityType e) = true /\
     Str.includes t (Str.toLowerCase (name e)) = false /\
     forall o, o ∈ observations e -> Str.includes t (Str.toLowerCase o) = false) ->
  searchNodes query s = (Ok emptyGraph, s).
Proof.
  intros g Ht Hcolon Hnone. rewrite searchNodes_unfold. cbv zeta. fold g.
  assert (Hno : matchedNames (tokens query) g = []).
  { unfold matchedNames. rewrite filter_none; [reflexivity|].
    intros e He Hm. destruct (Hnone e He) as (Hty & Hname & Hobs).
    unfold matchesAllTerms in Hm. rewrite forallb_forall in Hm.
    specialize (Hm t (proj1 (list_elem_of_In _ _) Ht)).
    unfold termMatches in Hm. rewrite Hname in Hm.
    rewrite includes_colon in Hm;
      [|exact Hcolon | rewrite colonFree_toLowerCase; now apply valid_entityType_colonFree].
    cbn in Hm. apply existsb_exists in Hm as (o & Ho & Hinc).
    rewrite (Hobs o) in Hinc; [discriminate | now apply list_elem_of_In]. }
  rewrite Hno. rewrite !filter_none; [reflexivity | |].
  - intros r _ [Hf _]. inversion Hf.
  - intros e _ He. inversion He.
Qed.

Lemma searchNodes_qualified_token_is_plain_text_witness :
  let s := snd (createEntities [mkEntity "Study" "project" ["A study of work"]]
                  (snd (initializeStatusAndPriority FileAbsent))) in
  searchNodes "entityType:project" s = (Ok emptyGraph, s) /\
  exists found, searchNodes "project" s = (Ok found, s) /\
                entities found = [mkEntity "Study" "project" ["A study of work"]].
Proof.
  intros s. split.
  - apply (searchNodes_qualified_token_is_plain_text "entityType:project" "entitytype:project").
    + compute_done.
    + reflexivity.
    + assert (Hb : forallb (fun e =>
                validateEntityType (entityType e) &&
                negb (Str.includes "entitytype:project" (Str.toLowerCase (name e))) &&
                forallb (fun o => negb (Str.includes "entitytype:project" (Str.toLowerCase o)))
                        (observations e)) (entities (loadGraphOf s)) = true)
        by (vm_compute; reflexivity).
      rewrite forallb_forall in Hb. intros e He.
      specialize (Hb e (proj1 (list_elem_of_In _ _) He)).
      apply andb_true_iff in Hb as [Hb Hobs]. apply andb_true_iff in Hb as [Hty Hname].
      split; [exact Hty|]. split; [now apply negb_true_iff|].
      intros o Ho. rewrite forallb_forall in Hobs. apply negb_true_iff, Hobs.
      now apply list_elem_of_In.
  - eexists. split; [vm_compute; reflexivity | reflexivity].
Defined.

Lemma lowerChar_idempotent c : Str.lowerChar (Str.lowerChar c) = Str.lowerChar c.
Proof.
  destruct c as [b0 b1 b2 b3 b4 b5 b6 b7].
  destruct b0, b1, b2, b3, b4, b5, b6, b7; vm_compute; reflexivity.
Qed.

Lemma toLowerCase_idempotent s : Str.toLowerCase (Str.toLowerCase s) = Str.toLowerCase s.
Proof. induction s as [|c s IH]; [reflexivity|]. cbn. now rewrite lowerChar_idempotent, IH. Qed.

Section Joining.
Variable P : string -> bool.
Hypothesis P_empty : P EmptyString = true.

Lemma splitWs_join_from inWs cur a c b :
  Str.isSpace c = true -> (inWs = true -> cur = EmptyString) ->
  forallb P (Str.splitWsFrom inWs cur (a +:+ String c b)) =
  forallb P (Str.splitWsFrom inWs cur a) && forallb P (Str.splitWsFrom true EmptyString b).
Proof.
  intros Hc. revert inWs cur. induction a as [|d a IH]; intros inWs cur Hcur.
  - rewrite append_nil. cbn. rewrite Hc. destruct inWs.
    + rewrite (Hcur eq_refl). cbn. now rewrite P_empty.
    + cbn. now rewrite andb_true_r.
  - rewrite append_cons. cbn. destruct (Str.isSpace d), inWs.
    + now apply IH.
    + cbn. rewrite IH by reflexivity. apply andb_assoc.
    + apply IH. discriminate.
    + apply IH. discriminate.
Qed.

Lemma splitWs_join a c b :
  Str.isSpace c = true ->
  forallb P (Str.splitWs (a +:+ String c b)) =
  forallb P (Str.splitWs a) && forallb P (Str.splitWs b).
Proof.
  intros Hc. unfold Str.splitWs.
  rewrite splitWs_join_from by (exact Hc || discriminate).
  now rewrite (splitWs_after_separator P P_empty b).
Qed.
End Joining.

Lemma matchesAllTerms_join q1 q2 e :
  matchesAllTerms (tokens (q1 +:+ " " +:+ q2)) e =
  matchesAllTerms (tokens q1) e && matchesAllTerms (tokens q2) e.
Proof.
  unfold matchesAllTerms, tokens.
  change (q1 +:+ " " +:+ q2) with (q1 +:+ String " " q2).
  rewrite toLowerCase_app. cbn [Str.toLowerCase].
  apply splitWs_join; [apply termMatches_empty | reflexivity].
Qed.

(** X13. Joining two queries with a space asks for both: an entity
    answers the joined query exactly when it answers each part, what
    [searchNodes] returns for the joined query it also returns for each
    part, the order of the parts does not matter, and neither does the
    case of the query. *)
Theorem searchNodes_join_narrows (q1 q2 : string) (s : store) :
  (forall e, answers (q1 +:+ " " +:+ q2) e <-> answers q1 e /\ answers q2 e) /\
  (forall found found1 found2,
     searchNodes (q1 +:+ " " +:+ q2) s = (Ok found, s) ->
     searchNodes q1 s = (Ok found1, s) -> searchNodes q2 s = (Ok found2, s) ->
     (forall e, e ∈ entities found -> (e ∈ entities found1) /\ (e ∈ entities found2)) /\
     (forall r, r ∈ relations found -> (r ∈ relations found1) /\ (r ∈ relations found2))) /\
  searchNodes (q2 +:+ " " +:+ q1) s = searchNodes (q1 +:+ " " +:+ q2) s /\
  searchNodes (Str.toLowerCase q1) s = searchNodes q1 s.
Proof.
  assert (Hsub : forall qa qb n,
            n ∈ matchedNames (tokens (qa +:+ " " +:+ qb)) (loadGraphOf s) ->
            (n ∈ matchedNames (tokens qa) (loadGraphOf s)) /\
            (n ∈ matchedNames (tokens qb) (loadGraphOf s))).
  { intros qa qb n Hn. unfold matchedNames in *.
    apply list_elem_of_fmap in Hn as (e & -> & He).
    apply list_elem_of_filter in He as [Hm He].
    rewrite matchesAllTerms_join in Hm. apply andb_true_iff in Hm as [Ha Hb].
    split; apply list_elem_of_fmap_2, list_elem_of_filter; auto. }
  split; [|split; [|split]].
  - intros e. rewrite <- !matchesAllTerms_spec, matchesAllTerms_join. apply andb_true_iff.
  - intros found found1 found2. rewrite !searchNodes_unfold. cbv zeta.
    intros [= <-] [= <-] [= <-]. cbn [entities relations]. split.
    + intros e He. apply list_elem_of_filter in He as [Hn He].
      destruct (Hsub _ _ _ Hn). split; apply list_elem_of_filter; auto.
    + intros r Hr. apply list_elem_of_filter in Hr as [[Hf Ht] Hr].
      destruct (Hsub _ _ _ Hf), (Hsub _ _ _ Ht).
      split; apply list_elem_of_filter; auto.
  - rewrite !searchNodes_unfold. cbv zeta.
    rewrite (matchedNames_ext (tokens (q2 +:+ " " +:+ q1)) (tokens (q1 +:+ " " +:+ q2)));
      [reflexivity|].
    intros e. rewrite !matchesAllTerms_join. apply andb_comm.
  - rewrite !searchNodes_unfold. cbv zeta. unfold tokens.
    now rewrite toLowerCase_idempotent.
Qed.

Lemma searchNodes_join_narrows_witness :
  let s := FileGraph (mkGraph [mkEntity "I1" "interview" ["Remote work"];
                               mkEntity "I2" "interview" ["Office"]] []) in
  searchNodes "remote interview" s = searchNodes "interview remote" s /\
  (answers "interview remote" (mkEntity "I1" "interview" ["Remote work"]) <->
   answers "interview" (mkEntity "I1" "interview" ["Remote work"]) /\
   answers "remote" (mkEntity "I1" "interview" ["Remote work"])).
Proof.
  intros s.
  destruct (searchNodes_join_narrows "interview" "remote" s) as (Hboth & _ & Hswap & _).
  split; [exact Hswap | apply Hboth].
Defined.

(** * Further properties of the analytical views *)

Lemma findTyped_Some g t n e :
  findTyped g t n = Some e -> (e ∈ entities g) /\ name e = n /\ entityType e = t.
Proof. intros Hf. apply arrFind_Some in Hf as (Hin & Hn & Ht). auto. Qed.

Lemma findNamed_Some g n e : findNamed g n = Some e -> (e ∈ entities g) /\ name e = n.
Proof. intros Hf. now apply arrFind_Some in Hf. Qed.

Lemma findNamed_unique g e :
  NoDup (name <$> entities g) -> e ∈ entities g -> findNamed g (name e) = Some e.
Proof.
  intros Hnd He. unfold findNamed.
  destruct (arrFind_Exists (fun x => name x = name e) (entities g)) as [y Hy].
  { apply Exists_exists. now exists e. }
  rewrite Hy. f_equal. apply arrFind_Some in Hy as [Hyin Hname].
  now apply (same_name_same_entity (entities g)).
Qed.

Lemma arrFind_unique g n (Q : Entity -> Prop) `{forall e, Decision (Q e)} :
  NoDup (name <$> entities g) ->
  arrFind (fun e => name e = n /\ Q e) (entities g) =
  match findNamed g n with
  | Some e => if decide (Q e) then Some e else None
  | None => None
  end.
Proof.
  intros Hnd. destruct (findNamed g n) as [e|] eqn:En.
  - apply findNamed_Some in En as [He Hn]. destruct (decide (Q e)) as [Hq|Hq].
    + destruct (arrFind_Exists (fun x => name x = n /\ Q x) (entities g))
        as [y Hy]; [apply Exists_exists; now exists e|].
      rewrite Hy. f_equal. apply arrFind_Some in Hy as (Hyin & Hyn & _).
      apply (same_name_same_entity (entities g)); congruence.
    + destruct (arrFind (fun x => name x = n /\ Q x) (entities g)) as [y|] eqn:Ey;
        [|reflexivity].
      apply arrFind_Some in Ey as (Hyin & Hyn & Hyq).
      exfalso. apply Hq.
      now rewrite (same_name_same_entity (entities g) e y Hnd He Hyin ltac:(congruence)).
  - destruct (arrFind (fun x => name x = n /\ Q x) (entities g)) as [y|] eqn:Ey;
      [|reflexivity].
    apply arrFind_Some in Ey as (Hyin & Hyn & _).
    apply arrFind_None in En. exfalso. apply En. apply Exists_exists. now exists y.
Qed.

Lemma findTyped_unique g t n :
  NoDup (name <$> entities g) ->
  findTyped g t n =
  match findNamed g n with
  | Some e => if decide (entityType e = t) then Some e else None
  | None => None
  end.
Proof. intros Hnd. unfold findTyped. now rewrite arrFind_unique. Qed.

Lemma omap_ext_elem {A B} (f h : A -> option B) (l : list A) :
  (forall x, x ∈ l -> f x = h x) -> omap f l = omap h l.
Proof.
  induction l as [|x l IH]; intros Hext; [reflexivity|].
  cbn [omap list_omap]. rewrite (Hext x) by left.
  rewrite IH; [reflexivity|]. intros y Hy. apply Hext. now right.
Qed.

Lemma sourcesOf_elem g relType target t e :
  e ∈ sourcesOf g relType target t <->
  exists r, (r ∈ relations g) /\ relationType r = relType /\ to r = target /\
            findTyped g t (from r) = Some e.
Proof.
  unfold sourcesOf. rewrite collectVia_elem. split.
  - intros (r & Hr & [Ht Hto] & Hf). exists r. auto.
  - intros (r & Hr & Ht & Hto & Hf). exists r. auto.
Qed.

Lemma targetsOf_elem g relType source t e :
  e ∈ targetsOf g relType source t <->
  exists r, (r ∈ relations g) /\ relationType r = relType /\ from r = source /\
            findTyped g t (to r) = Some e.
Proof.
  unfold targetsOf. rewrite collectVia_elem. split.
  - intros (r & Hr & [Ht Hto] & Hf). exists r. auto.
  - intros (r & Hr & Ht & Hto & Hf). exists r. auto.
Qed.

Lemma partsByName_unique g projectName t :
  NoDup (name <$> entities g) ->
  partsByName g projectName t = sourcesOf g "part_of" projectName t.
Proof.
  intros Hnd. unfold partsByName, sourcesOf, collectVia.
  apply omap_ext_elem. intros r _.
  destruct (decide _); [|reflexivity]. now rewrite findTyped_unique.
Qed.

Lemma filter_sublist_impl {A} (P Q : A -> Prop)
    `{forall x, Decision (P x)} `{forall x, Decision (Q x)} (l : list A) :
  (forall x, P x -> Q x) -> sublist (filter P l) (filter Q l).
Proof.
  intros Himpl. induction l as [|x l IH]; [constructor|].
  rewrite !filter_cons. destruct (decide (P x)) as [HP|HP].
  - rewrite decide_True by auto. now constructor.
  - destruct (decide (Q x)); [now constructor | exact IH].
Qed.

Lemma mentionsAny_more ks ks' o :
  (forall k, k ∈ ks -> k ∈ ks') -> mentionsAny ks o = true -> mentionsAny ks' o = true.
Proof.
  unfold mentionsAny. rewrite !existsb_exists. intros Hsub (k & Hk & Hinc).
  exists k. split; [|exact Hinc]. apply list_elem_of_In, Hsub, list_elem_of_In, Hk.
Qed.

Lemma getProjectOverview_unfold projectName s :
  getProjectOverview projectName s =
  let g := loadGraphOf s in
  match findTyped g "project" projectName with
  | None => (Err (ProjectNotFound projectName), s)
  | Some found =>
      (Ok (ProjectOverview.mk found
             (sourcesOf g "part_of" projectName "researchQuestion")
             (filter (fun o => mentionsAny ["method"; "approach"] o = true)
                     (observations found))
             (length (sourcesOf g "part_of" projectName "participant"))
             (length (partsByName g projectName "interview"))
             (length (partsByName g projectName "observation"))
             (length (partsByName g projectName "document"))
             (sourcesOf g "part_of" projectName "participant")
             (partsByName g projectName "interview")
             (partsByName g projectName "observation")
             (partsByName g projectName "document")
             (length (sourcesOf g "part_of" projectName "theme"))
             (sourcesOf g "part_of" projectName "theme")
             (sourcesOf g "part_of" projectName "finding")), s)
  end.
Proof.
  unfold getProjectOverview, bind, loadGraph. cbv zeta.
  now destruct (findTyped (loadGraphOf s) "project" projectName).
Qed.

Lemma getMethodologyDetails_unfold projectName s :
  getMethodologyDetails projectName s =
  let g := loadGraphOf s in
  match findTyped g "project" projectName with
  | None => (Err (ProjectNotFound projectName), s)
  | Some found =>
      (Ok (MethodologyDetails.mk found
             (filter (fun o => mentionsAny ["method"; "approach"; "sampling"; "analysis";
                                            "validity"; "reliability"] o = true)
                     (observations found))
             (length (sourcesOf g "part_of" projectName "participant"))
             (length (sourcesOf g "part_of" projectName "interview"))
             (length (sourcesOf g "part_of" projectName "observation"))
             (length (sourcesOf g "part_of" projectName "document"))
             (methodologyMemos g projectName)
             (targetsOf g "cites" projectName "literature")), s)
  end.
Proof.
  unfold getMethodologyDetails, bind, loadGraph. cbv zeta.
  now destruct (findTyped (loadGraphOf s) "project" projectName).
Qed.

(** X14. In a graph with unique entity names, the project overview and
    the methodology details of a project agree: when the overview is
    returned so are the details, for the same project entity, with the same numbers of
    participants, interviews, observations and documents (each the
    length of the overview's list), and the methodology notes of the
    overview are among those of the details, in the same order. *)
Theorem overview_agrees_with_methodology (projectName : string) (s : store)
    (o : ProjectOverview.t) :
  NoDup (name <$> entities (loadGraphOf s)) ->
  getProjectOverview projectName s = (Ok o, s) ->
  exists m,
    getMethodologyDetails projectName s = (Ok m, s) /\
    MethodologyDetails.project m = ProjectOverview.project o /\
    MethodologyDetails.participants m = length (ProjectOverview.participantsList o) /\
    MethodologyDetails.interviews m = length (ProjectOverview.interviewsList o) /\
    MethodologyDetails.observations m = length (ProjectOverview.observationsList o) /\
    MethodologyDetails.documents m = length (ProjectOverview.documentsList o) /\
    MethodologyDetails.participants m = ProjectOverview.participants o /\
    MethodologyDetails.interviews m = ProjectOverview.interviews o /\
    MethodologyDetails.observations m = ProjectOverview.observations o /\
    MethodologyDetails.documents m = ProjectOverview.documents o /\
    sublist (ProjectOverview.methodology o) (MethodologyDetails.methodology m).
Proof.
  intros Hnd. rewrite getProjectOverview_unfold, getMethodologyDetails_unfold. cbv zeta.
  destruct (findTyped (loadGraphOf s) "project" projectName) as [found|]; [|discriminate].
  intros [= <-]. eexists. split; [reflexivity|]. cbn -[mentionsAny].
  rewrite !(partsByName_unique _ _ _ Hnd).
  repeat (split; [reflexivity|]).
  apply filter_sublist_impl. intros x.
  refine (mentionsAny_more ["method"; "approach"] _ x _).
  intros k Hk. apply list_elem_of_In. apply list_elem_of_In in Hk.
  cbn in *. tauto.
Qed.

Lemma overview_agrees_with_methodology_witness :
  let g := mkGraph [mkEntity "Study" "project" ["Method: interviews"; "Sampling: snowball"];
                    mkEntity "P1" "participant" []; mkEntity "I1" "interview" []]
                   [mkRelation "P1" "Study" "part_of"; mkRelation "I1" "Study" "part_of"] in
  exists o m,
    getProjectOverview "Study" (FileGraph g) = (Ok o, FileGraph g) /\
    getMethodologyDetails "Study" (FileGraph g) = (Ok m, FileGraph g) /\
    MethodologyDetails.interviews m = ProjectOverview.interviews o /\
    ProjectOverview.methodology o = ["Method: interviews"] /\
    MethodologyDetails.methodology m = ["Method: interviews"; "Sampling: snowball"].
Proof.
  intros g.
  destruct (getProjectOverview "Study" (FileGraph g)) as [[o|e] s'] eqn:Eo;
    [|vm_compute in Eo; discriminate].
  assert (Hs : s' = FileGraph g) by (vm_compute in Eo; now injection Eo).
  subst s'.
  destruct (overview_agrees_with_methodology "Study" (FileGraph g) o)
    as (m & Hm & _ & _ & _ & _ & _ & _ & Hi & _); [compute_done | exact Eo |].
  exists o, m. split; [reflexivity|]. split; [exact Hm|]. split; [exact Hi|].
  vm_compute in Eo. injection Eo as <-.
  vm_compute in Hm. injection Hm as <-. split; reflexivity.
Defined.

(** ** The data sources of a project, seen by two views *)

Lemma omap_cons_option_list {A B} (f : A -> option B) x l :
  omap f (x :: l) = option_list (f x) ++ omap f l.
Proof. cbn [omap list_omap]. now destruct (f x). Qed.

Lemma omap_split3 {A B} (f f1 f2 f3 : A -> option B) (l : list A) :
  (forall x, x ∈ l ->
     option_list (f x) ≡ₚ option_list (f1 x) ++ option_list (f2 x) ++ option_list (f3 x)) ->
  omap f l ≡ₚ omap f1 l ++ omap f2 l ++ omap f3 l.
Proof.
  induction l as [|x l IH]; intros Hsplit; [reflexivity|].
  rewrite !omap_cons_option_list.
  rewrite (Hsplit x) by left.
  rewrite IH by (intros y Hy; apply Hsplit; now right).
  rewrite <- !app_assoc. f_equiv.
  rewrite (Permutation_app_swap_app (omap f1 l) (option_list (f2 x))). f_equiv.
  rewrite (Permutation_app_swap_app (omap f2 l) (option_list (f3 x))).
  rewrite (Permutation_app_swap_app (omap f1 l) (option_list (f3 x))).
  reflexivity.
Qed.

Lemma dataEntities_by_type g projectName dataType :
  NoDup (name <$> entities g) -> truthy dataType = None ->
  dataEntities g projectName dataType ≡ₚ
  partsByName g projectName "interview" ++ partsByName g projectName "observation" ++
  partsByName g projectName "document".
Proof.
  intros Hnd Ht. unfold dataEntities, partsByName, collectVia.
  apply omap_split3. intros r _.
  destruct (decide (relationType r = "part_of" /\ to r = projectName)); [|reflexivity].
  rewrite (arrFind_unique g (from r) (wantedType dataType) Hnd).
  destruct (findNamed g (from r)) as [e|]; [|reflexivity].
  assert (Hw : wantedType dataType e <->
               entityType e = "interview" \/ entityType e = "observation" \/
               entityType e = "document").
  { unfold wantedType. now rewrite Ht. }
  destruct (decide (wantedType dataType e)) as [Hyes|Hno];
    destruct (decide (entityType e = "interview")) as [Hi|Hi];
    destruct (decide (entityType e = "observation")) as [Ho|Ho];
    destruct (decide (entityType e = "document")) as [Hd|Hd];
    try reflexivity; try (exfalso; congruence); exfalso; tauto.
Qed.

(** X15. In a graph with unique entity names, the timeline that
    [getChronologicalData] returns when no data type is given (or the
    empty one) holds exactly the interviews, observations and documents
    that [getProjectOverview] lists for the project, each as often, and
    has as many items as the three counts of the overview add up to. *)
Theorem default_timeline_is_overview_sources
    (parseDate : string -> option Z) (projectName : string) (dataType : option string)
    (s : store) (o : ProjectOverview.t) :
  NoDup (name <$> entities (loadGraphOf s)) ->
  truthy dataType = None ->
  getProjectOverview projectName s = (Ok o, s) ->
  exists data,
    getChronologicalData parseDate projectName dataType s = (Ok data, s) /\
    project data = ProjectOverview.project o /\
    entity <$> timeline data ≡ₚ
      ProjectOverview.interviewsList o ++ ProjectOverview.observationsList o ++
      ProjectOverview.documentsList o /\
    length (timeline data) =
      (ProjectOverview.interviews o + ProjectOverview.observations o +
       ProjectOverview.documents o)%nat.
Proof.
  intros Hnd Ht. rewrite getProjectOverview_unfold, getChronologicalData_unfold. cbv zeta.
  change (arrFind (fun e => name e = projectName /\ entityType e = "project")
                  (entities (loadGraphOf s)))
    with (findTyped (loadGraphOf s) "project" projectName).
  destruct (findTyped (loadGraphOf s) "project" projectName) as [found|]; [|discriminate].
  intros [= <-]. eexists. split; [reflexivity|].
  cbn [project timeline ProjectOverview.project ProjectOverview.interviewsList
       ProjectOverview.observationsList ProjectOverview.documentsList
       ProjectOverview.interviews ProjectOverview.observations ProjectOverview.documents].
  set (items := (fun e => (e, entityDate parseDate e)) <$>
                dataEntities (loadGraphOf s) projectName dataType).
  assert (Hperm : entity <$> ((fun item => mkTimelineItem (snd item) (fst item)
                     (quotesContainedIn (loadGraphOf s) (name (fst item)))) <$>
                     sortWith byDate items)
                  ≡ₚ dataEntities (loadGraphOf s) projectName dataType).
  { rewrite <- list_fmap_compose, (sortWith_Permutation byDate items). unfold items.
    rewrite <- list_fmap_compose. now rewrite list_fmap_id. }
  split; [reflexivity|]. split.
  - rewrite Hperm. now apply dataEntities_by_type.
  - rewrite <- (length_fmap entity), Hperm, (dataEntities_by_type _ _ _ Hnd Ht).
    rewrite !length_app. lia.
Qed.

Lemma default_timeline_is_overview_sources_witness :
  let g := mkGraph [mkEntity "Study" "project" [];
                    mkEntity "D1" "document" ["Date: 2024-01-05"];
                    mkEntity "I1" "interview" ["Date: 2024-01-01"];
                    mkEntity "P1" "participant" []]
                   [mkRelation "D1" "Study" "part_of"; mkRelation "I1" "Study" "part_of";
                    mkRelation "P1" "Study" "part_of"] in
  exists o data,
    getProjectOverview "Study" (FileGraph g) = (Ok o, FileGraph g) /\
    getChronologicalData IsoDate.parse "Study" None (FileGraph g) = (Ok data, FileGraph g) /\
    length (timeline data) = 2%nat /\
    (ProjectOverview.interviews o + ProjectOverview.observations o +
     ProjectOverview.documents o = 2)%nat.
Proof.
  intros g.
  destruct (getProjectOverview "Study" (FileGraph g)) as [[o|e] s'] eqn:Eo;
    [|vm_compute in Eo; discriminate].
  assert (Hs : s' = FileGraph g) by (vm_compute in Eo; now injection Eo).
  subst s'.
  destruct (default_timeline_is_overview_sources IsoDate.parse "Study" None (FileGraph g) o)
    as (data & Hdata & _ & _ & Hlen); [compute_done | reflexivity | exact Eo |].
  exists o, data. split; [reflexivity|]. split; [exact Hdata|].
  assert (Hsum : (ProjectOverview.interviews o + ProjectOverview.observations o +
                  ProjectOverview.documents o = 2)%nat).
  { vm_compute in Eo. injection Eo as <-. reflexivity. }
  split; [now rewrite Hlen | exact Hsum].
Defined.

(** ** Themes, their codes and the quotes of a code *)

Lemma findTyped_name g t n e : findTyped g t n = Some e -> findTyped g t (name e) = Some e.
Proof. intros Hf. destruct (findTyped_Some g t n e Hf) as (_ & -> & _). exact Hf. Qed.

Lemma getThematicAnalysis_unfold projectName s :
  getThematicAnalysis projectName s =
  let g := loadGraphOf s in
  match findTyped g "project" projectName with
  | None => (Err (ProjectNotFound projectName), s)
  | Some found =>
      (Ok (ThematicAnalysis.mk found
             (themeAnalysis g <$> sourcesOf g "part_of" projectName "theme")), s)
  end.
Proof.
  unfold getThematicAnalysis, bind, loadGraph. cbv zeta.
  now destruct (findTyped (loadGraphOf s) "project" projectName).
Qed.

Lemma getCodedData_unfold codeName s :
  getCodedData codeName s =
  let g := loadGraphOf s in
  match findTyped g "code" codeName with
  | None => (Err (CodeNotFound codeName), s)
  | Some found =>
      let sources := fold_left (sourcesOfQuote g codeName)
                               (targetsOf g "codes" codeName "quote") [] in
      (Ok (CodedData.mk found
             (sourcesOf g "contains" codeName "codeGroup")
             (targetsOf g "codes" codeName "quote")
             (length sources) (snd <$> sources)
             (targetsOf g "supports" codeName "theme")
             (sourcesOf g "reflects_on" codeName "memo")), s)
  end.
Proof.
  unfold getCodedData, bind, loadGraph. cbv zeta.
  now destruct (findTyped (loadGraphOf s) "code" codeName).
Qed.

(** X16. When [getProjectOverview] returns for a project, so does
    [getThematicAnalysis], for the same project entity and with one
    entry per theme of the overview, in the same order. In each entry
    the codes of the supporting data are the listed codes, and
    [getCodedData], asked for any of these codes by its name, returns
    that same code entity, the quotes the entry gives for it, and the
    theme of the entry among the themes the code supports. *)
Theorem thematic_analysis_agrees_with_overview_and_coded_data
    (projectName : string) (s : store) (o : ProjectOverview.t) :
  getProjectOverview projectName s = (Ok o, s) ->
  exists a,
    getThematicAnalysis projectName s = (Ok a, s) /\
    ThematicAnalysis.project a = ProjectOverview.project o /\
    ThematicAnalysis.theme <$> ThematicAnalysis.themes a = ProjectOverview.themesList o /\
    length (ThematicAnalysis.themes a) = ProjectOverview.themes o /\
    Forall (fun td =>
              ThematicAnalysis.code <$> ThematicAnalysis.supportingData td
                = ThematicAnalysis.codes td /\
              Forall (fun cd =>
                        exists d,
                          getCodedData (name (ThematicAnalysis.code cd)) s = (Ok d, s) /\
                          CodedData.code d = ThematicAnalysis.code cd /\
                          CodedData.quotes d = ThematicAnalysis.quotes cd /\
                          (ThematicAnalysis.theme td ∈ CodedData.themes d))
                     (ThematicAnalysis.supportingData td))
           (ThematicAnalysis.themes a).
Proof.
  rewrite getProjectOverview_unfold, getThematicAnalysis_unfold. cbv zeta.
  destruct (findTyped (loadGraphOf s) "project" projectName) as [found|]; [|discriminate].
  intros [= <-]. eexists. split; [reflexivity|].
  cbn [ThematicAnalysis.project ThematicAnalysis.themes ProjectOverview.project
       ProjectOverview.themesList ProjectOverview.themes].
  split; [reflexivity|]. split; [|split].
  - rewrite <- list_fmap_compose. apply list_fmap_id.
  - apply length_fmap.
  - apply Forall_fmap, Forall_forall. intros theme Htheme.
    apply sourcesOf_elem in Htheme as (r0 & _ & _ & _ & Htheme).
    apply findTyped_name in Htheme.
    unfold compose, themeAnalysis. cbv zeta.
    cbn [ThematicAnalysis.supportingData ThematicAnalysis.codes ThematicAnalysis.theme].
    split; [rewrite <- list_fmap_compose; apply list_fmap_id|].
    apply Forall_fmap, Forall_forall. intros code Hcode.
    apply sourcesOf_elem in Hcode as (r & Hr & Htype & Hto & Hcode).
    destruct (findTyped_Some _ _ _ _ Hcode) as (_ & Hname & _).
    apply findTyped_name in Hcode. unfold compose.
    cbn [ThematicAnalysis.code ThematicAnalysis.quotes].
    rewrite getCodedData_unfold. cbv zeta. rewrite Hcode.
    eexists. split; [reflexivity|].
    cbn [CodedData.code CodedData.quotes CodedData.themes].
    split; [reflexivity|]. split; [reflexivity|].
    apply targetsOf_elem. exists r. split; [exact Hr|]. split; [exact Htype|].
    split; [now rewrite Hname|]. now rewrite Hto.
Qed.

Lemma thematic_analysis_agrees_with_overview_and_coded_data_witness :
  let g := mkGraph [mkEntity "Study" "project" []; mkEntity "T" "theme" ["Status: emerging"];
                    mkEntity "C" "code" []; mkEntity "Q" "quote" []]
                   [mkRelation "T" "Study" "part_of"; mkRelation "C" "T" "supports";
                    mkRelation "C" "Q" "codes"] in
  exists a,
    getThematicAnalysis "Study" (FileGraph g) = (Ok a, FileGraph g) /\
    length (ThematicAnalysis.themes a) = 1%nat.
Proof.
  intros g.
  destruct (getProjectOverview "Study" (FileGraph g)) as [[o|e] s'] eqn:Eo;
    [|vm_compute in Eo; discriminate].
  assert (Hs : s' = FileGraph g) by (vm_compute in Eo; now injection Eo).
  subst s'.
  destruct (thematic_analysis_agrees_with_overview_and_coded_data "Study" (FileGraph g) o Eo)
    as (a & Ha & _ & _ & Hlen & _).
  exists a. split; [exact Ha|]. rewrite Hlen.
  vm_compute in Eo. injection Eo as <-. reflexivity.
Defined.

(** ** The status of a theme *)

Lemma append_assoc_cons cur c v : (cur +:+ String c EmptyString) +:+ v = cur +:+ String c v.
Proof.
  induction cur as [|d cur IH]; [now rewrite !append_nil, append_cons, append_nil|].
  now rewrite !append_cons, IH.
Qed.

Lemma splitOnFrom_colonFree cur v rest :
  colonFree v = true ->
  Str.splitOnFrom ":" cur (v +:+ rest) =
  match rest with
  | EmptyString => [cur +:+ v]
  | String c b =>
      if Ascii.eqb c ":" then (cur +:+ v) :: Str.splitOnFrom ":" EmptyString b
      else Str.splitOnFrom ":" ((cur +:+ v) +:+ String c EmptyString) b
  end.
Proof.
  revert cur. induction v as [|c v IH]; intros cur Hv.
  - rewrite append_nil, append_empty_r. now destruct rest.
  - apply colonFree_cons in Hv as [Hc Hv]. rewrite append_cons.
    cbn [Str.splitOnFrom]. apply Ascii.eqb_neq in Hc. rewrite Hc.
    rewrite IH by exact Hv. now rewrite append_assoc_cons.
Qed.

Lemma second_segment p v rest :
  colonFree p = true -> colonFree v = true ->
  (rest = EmptyString \/ exists b, rest = String ":" b) ->
  Str.splitOn ":" (p +:+ String ":" (v +:+ rest)) !! 1%nat = Some v.
Proof.
  intros Hp Hv Hrest. unfold Str.splitOn.
  rewrite (splitOnFrom_colonFree EmptyString p _ Hp). cbn [Ascii.eqb Bool.eqb].
  cbn [lookup list_lookup].
  rewrite (splitOnFrom_colonFree EmptyString v _ Hv).
  destruct Hrest as [->|[b ->]]; [now rewrite append_nil|].
  rewrite Ascii.eqb_refl. now rewrite append_nil.
Qed.

Lemma statusObservation_has_segment o :
  Str.startsWith "Status:" o = true -> exists seg, Str.splitOn ":" o !! 1%nat = Some seg.
Proof.
  rewrite startsWith_spec. intros [post ->]. apply splitOn_prefix_segment.
  now exists "Status", EmptyString.
Qed.

(** X17. The status that [getThematicAnalysis] reports for each theme
    is read from the theme's first observation that starts with
    [Status:]: it is the text after that prefix up to the next colon or
    the end of the observation, trimmed. Such an observation always has
    a second segment, and a theme without one has the status
    [unknown]. *)
Theorem theme_status_stops_at_next_colon (theme : Entity) :
  (forall projectName s a,
     getThematicAnalysis projectName s = (Ok a, s) ->
     Forall (fun td => ThematicAnalysis.status td = themeStatus (ThematicAnalysis.theme td))
            (ThematicAnalysis.themes a)) /\
  (forall projectName s a td,
     getThematicAnalysis projectName s = (Ok a, s) ->
     td ∈ ThematicAnalysis.themes a -> ThematicAnalysis.theme td = theme ->
     ((forall x, x ∈ observations theme -> Str.startsWith "Status:" x = false) ->
      ThematicAnalysis.status td = "unknown") /\
     (forall pre v rest post,
        observations theme = pre ++ ("Status:" +:+ v +:+ rest) :: post ->
        (forall x, x ∈ pre -> Str.startsWith "Status:" x = false) ->
        colonFree v = true ->
        (rest = EmptyString \/ exists b, rest = String ":" b) ->
        ThematicAnalysis.status td = Str.trim v)) /\
  ((forall x, x ∈ observations theme -> Str.startsWith "Status:" x = false) ->
   themeStatus theme = "unknown") /\
  (forall x, Str.startsWith "Status:" x = true ->
     exists seg, Str.splitOn ":" x !! 1%nat = Some seg) /\
  (forall pre v rest post,
     observations theme = pre ++ ("Status:" +:+ v +:+ rest) :: post ->
     (forall x, x ∈ pre -> Str.startsWith "Status:" x = false) ->
     colonFree v = true ->
     (rest = EmptyString \/ exists b, rest = String ":" b) ->
     themeStatus theme = Str.trim v).
Proof.
  assert (Hnone : (forall x, x ∈ observations theme -> Str.startsWith "Status:" x = false) ->
                  themeStatus theme = "unknown").
  { intros Hno. unfold themeStatus. now rewrite find_none. }
  assert (Hcut : forall pre v rest post,
            observations theme = pre ++ ("Status:" +:+ v +:+ rest) :: post ->
            (forall x, x ∈ pre -> Str.startsWith "Status:" x = false) ->
            colonFree v = true ->
            (rest = EmptyString \/ exists b, rest = String ":" b) ->
            themeStatus theme = Str.trim v).
  { intros pre v rest post Hobs Hpre Hv Hrest. unfold themeStatus.
    rewrite Hobs, (find_first _ pre _ post Hpre).
    - change ("Status:" +:+ v +:+ rest) with ("Status" +:+ String ":" (v +:+ rest)).
      now rewrite second_segment.
    - apply startsWith_spec. now exists (v +:+ rest). }
  assert (Htie : forall projectName s a,
            getThematicAnalysis projectName s = (Ok a, s) ->
            Forall (fun td => ThematicAnalysis.status td
                              = themeStatus (ThematicAnalysis.theme td))
                   (ThematicAnalysis.themes a)).
  { intros projectName s a. rewrite getThematicAnalysis_unfold. cbv zeta.
    destruct (findTyped (loadGraphOf s) "project" projectName); [|discriminate].
    intros [= <-]. cbn [ThematicAnalysis.themes].
    apply Forall_fmap, Forall_forall. intros t _. reflexivity. }
  split; [exact Htie|]. split; [|split; [exact Hnone|split; [|exact Hcut]]].
  - intros projectName s a td Hrun Htd <-.
    pose proof (proj1 (Forall_forall _ _) (Htie _ _ _ Hrun) td Htd) as Hstatus.
    cbv beta in Hstatus. rewrite Hstatus. clear Hnone Hcut. split.
    + intros Hno. unfold themeStatus. now rewrite find_none.
    + intros pre v rest post Hobs Hpre Hv Hrest. unfold themeStatus.
      rewrite Hobs, (find_first _ pre _ post Hpre).
      * change ("Status:" +:+ v +:+ rest) with ("Status" +:+ String ":" (v +:+ rest)).
        now rewrite second_segment.
      * apply startsWith_spec. now exists (v +:+ rest).
  - apply statusObservation_has_segment.
Qed.

Lemma theme_status_stops_at_next_colon_witness :
  let g := mkGraph [mkEntity "Study" "project" [];
                    mkEntity "T" "theme" ["Definition: x"; "Status: under review: since May"];
                    mkEntity "U" "theme" ["Definition: y"]]
                   [mkRelation "T" "Study" "part_of"; mkRelation "U" "Study" "part_of"] in
  exists a,
    getThematicAnalysis "Study" (FileGraph g) = (Ok a, FileGraph g) /\
    ThematicAnalysis.status <$> ThematicAnalysis.themes a = ["under review"; "unknown"] /\
    themeStatus (mkEntity "T" "theme" ["Definition: x"; "Status: under review: since May"])
    = "under review".
Proof.
  intros g.
  destruct (getThematicAnalysis "Study" (FileGraph g)) as [[a|e] s'] eqn:Ea;
    [|vm_compute in Ea; discriminate].
  assert (Hs : s' = FileGraph g) by (vm_compute in Ea; now injection Ea).
  subst s'. exists a. split; [reflexivity|].
  destruct (theme_status_stops_at_next_colon
              (mkEntity "T" "theme" ["Definition: x"; "Status: under review: since May"]))
    as (Htie & _ & _ & _ & Hstatus).
  split.
  - vm_compute in Ea. injection Ea as <-. reflexivity.
  - rewrite (Hstatus ["Definition: x"] " under review" ": since May" []).
    + vm_compute. reflexivity.
    + reflexivity.
    + intros x Hx. apply list_elem_of_singleton in Hx as ->. reflexivity.
    + reflexivity.
    + right. now exists " since May".
Defined.

(** ** Memos by focus *)

Lemma insertSorted_fmap {A B} (cmp : B -> B -> Z) (f : A -> B) x l :
  insertSorted cmp (f x) (f <$> l) = f <$> insertSorted (fun a b => cmp (f a) (f b)) x l.
Proof.
  induction l as [|y r IH]; [reflexivity|].
  rewrite fmap_cons. cbn [insertSorted].
  destruct (cmp (f x) (f y) <=? 0)%Z; [reflexivity|].
  now rewrite IH.
Qed.

Lemma sortWith_fmap {A B} (cmp : B -> B -> Z) (f : A -> B) l :
  sortWith cmp (f <$> l) = f <$> sortWith (fun a b => cmp (f a) (f b)) l.
Proof.
  induction l as [|x r IH]; [reflexivity|].
  rewrite fmap_cons. unfold sortWith in *. cbn [foldr].
  now rewrite IH, insertSorted_fmap.
Qed.

Lemma getMemosByFocus_unfold parseDate entityName s :
  getMemosByFocus parseDate entityName s =
  let g := loadGraphOf s in
  match findNamed g entityName with
  | None => (Err (EntityNotFound entityName), s)
  | Some found =>
      (Ok (MemosByFocus.mk found
             (sortWith (fun a b => (memoDate parseDate b - memoDate parseDate a)%Z)
                       (sourcesOf g "reflects_on" entityName "memo"))), s)
  end.
Proof.
  unfold getMemosByFocus, bind, loadGraph. cbv zeta.
  destruct (findNamed (loadGraphOf s) entityName); [|reflexivity].
  rewrite sortWith_fmap, <- list_fmap_compose. unfold byDateDesc. cbn [snd].
  now rewrite list_fmap_id.
Qed.





(** ** The sources of a code's quotes *)

Lemma mapSet_keys k v m :
  fst <$> mapSet k v m =
  if decide (k ∈ (fst <$> m)) then fst <$> m else (fst <$> m) ++ [k].
Proof.
  induction m as [|[k' v'] r IH]; [reflexivity|].
  cbn [mapSet]. destruct (decide (k' = k)) as [->|Hne].
  - rewrite !fmap_cons. cbn [fst]. now rewrite decide_True by left.
  - rewrite !fmap_cons, IH. cbn [fst].
    destruct (decide (k ∈ (fst <$> r))) as [Hin|Hout].
    + now rewrite decide_True by now right.
    + rewrite decide_False; [reflexivity|].
      intros Hc. apply elem_of_cons in Hc as [->|Hc]; tauto.
Qed.

Lemma mapSet_NoDup k v m : NoDup (fst <$> m) -> NoDup (fst <$> mapSet k v m).
Proof.
  intros Hnd. rewrite mapSet_keys. destruct (decide (k ∈ (fst <$> m))); [exact Hnd|].
  apply NoDup_app. split; [exact Hnd|]. split; [|apply NoDup_singleton].
  intros x Hx Hk. apply list_elem_of_singleton in Hk as ->. contradiction.
Qed.

Lemma mapSet_elem k v m k' v' :
  NoDup (fst <$> m) ->
  (k', v') ∈ mapSet k v m <-> (k' <> k /\ ((k', v') ∈ m)) \/ (k' = k /\ v' = v).
Proof.
  induction m as [|[k0 v0] r IH]; intros Hnd.
  - cbn [mapSet]. rewrite list_elem_of_singleton. split.
    + intros [= -> ->]. now right.
    + intros [[_ Hin]|[-> ->]]; [inversion Hin | reflexivity].
  - rewrite fmap_cons in Hnd. apply NoDup_cons in Hnd as [Hnotin Hnd]. cbn [fst] in Hnotin.
    cbn [mapSet]. destruct (decide (k0 = k)) as [->|Hne].
    + rewrite !elem_of_cons. split.
      * intros [[= -> ->]|Hin]; [now right|]. left. split; [|now right].
        intros ->. apply Hnotin. apply list_elem_of_fmap. now exists (k, v').
      * intros [[Hk [[= -> ->]|Hin]]|[-> ->]]; [congruence | now right | now left].
    + rewrite !elem_of_cons, (IH Hnd). split.
      * intros [[= -> ->]|[[Hk Hin]|[-> ->]]]; [left; split; [exact Hne | now left]| |now right].
        left. split; [exact Hk | now right].
      * intros [[Hk [[= -> ->]|Hin]]|[-> ->]]; [now left | right; left; now split|].
        right. now right.
Qed.

Lemma findNamed_name g n e : findNamed g n = Some e -> findNamed g (name e) = Some e.
Proof. intros Hf. destruct (findNamed_Some g n e Hf) as (_ & ->). exact Hf. Qed.

Lemma sourceStep g codeName quote m r :
  keyedByName g m ->
  let m1 := if decide (relationType r = "contains" /\ from r <> codeName /\
                       to r = name quote)
            then match findNamed g (from r) with
                 | Some source => mapSet (name source) source m
                 | None => m
                 end
            else m in
  keyedByName g m1 /\
  forall k v, (k, v) ∈ m1 <->
    ((k, v) ∈ m) \/
    (sourceLink codeName quote r /\ findNamed g (from r) = Some v /\ k = name v).
Proof.
  intros Hm. cbv zeta. destruct (decide _) as [Hl|Hl].
  - destruct (findNamed g (from r)) as [src|] eqn:Es.
    + pose proof (findNamed_name _ _ _ Es) as Hsrc. split.
      * split; [apply mapSet_NoDup, Hm|]. intros k v Hin.
        apply mapSet_elem in Hin as [[_ Hin]|[-> ->]]; [now apply Hm | exact Hsrc | apply Hm].
      * intros k v. rewrite mapSet_elem by apply Hm. split.
        -- intros [[_ Hin]|[-> ->]]; [now left | right; auto].
        -- intros [Hin|(_ & [= <-] & ->)]; [|now right].
           destruct (decide (k = name src)) as [->|Hne]; [|now left].
           right. split; [reflexivity|].
           destruct Hm as [_ Hm]. specialize (Hm _ _ Hin). congruence.
    + split; [exact Hm|]. intros k v. split; [now left|].
      intros [Hin|(_ & Hc & _)]; [exact Hin | discriminate].
  - split; [exact Hm|]. intros k v. split; [now left|].
    intros [Hin|(Hc & _)]; [exact Hin | contradiction].
Qed.

Lemma sourcesOfQuote_over g codeName quote l m :
  keyedByName g m ->
  let m' := fold_left (fun m relation =>
              if decide (relationType relation = "contains" /\ from relation <> codeName /\
                         to relation = name quote)
              then match findNamed g (from relation) with
                   | Some source => mapSet (name source) source m
                   | None => m
                   end
              else m) l m in
  keyedByName g m' /\
  forall k v, (k, v) ∈ m' <->
    ((k, v) ∈ m) \/
    exists r, (r ∈ l) /\ sourceLink codeName quote r /\
              findNamed g (from r) = Some v /\ k = name v.
Proof.
  revert m. induction l as [|r l IH]; intros m Hm; cbv zeta.
  - cbn [fold_left]. split; [exact Hm|]. intros k v. split; [now left|].
    intros [Hin|(r & Hr & _)]; [exact Hin | inversion Hr].
  - cbn [fold_left].
    destruct (sourceStep g codeName quote m r Hm) as [Hm1 Hstep].
    destruct (IH _ Hm1) as [Hm' Hrest]. split; [exact Hm'|].
    intros k v. rewrite Hrest, Hstep. split.
    + intros [[Hin|Hev]|(r' & Hr' & Hev)]; [now left | |].
      * right. exists r. split; [left | exact Hev].
      * right. exists r'. split; [now right | exact Hev].
    + intros [Hin|(r' & Hr' & Hev)]; [now left; left|].
      apply elem_of_cons in Hr' as [->|Hr']; [left; now right|].
      right. now exists r'.
Qed.

Lemma sources_fold g codeName quotes m :
  keyedByName g m ->
  let m' := fold_left (sourcesOfQuote g codeName) quotes m in
  keyedByName g m' /\
  forall k v, (k, v) ∈ m' <->
    ((k, v) ∈ m) \/
    exists q r, (q ∈ quotes) /\ (r ∈ relations g) /\ sourceLink codeName q r /\
                findNamed g (from r) = Some v /\ k = name v.
Proof.
  revert m. induction quotes as [|q quotes IH]; intros m Hm; cbv zeta.
  - cbn [fold_left]. split; [exact Hm|]. intros k v. split; [now left|].
    intros [Hin|(q & r & Hq & _)]; [exact Hin | inversion Hq].
  - cbn [fold_left].
    destruct (sourcesOfQuote_over g codeName q (relations g) m Hm) as [Hm1 Hstep].
    destruct (IH _ Hm1) as [Hm' Hrest]. split; [exact Hm'|].
    intros k v. rewrite Hrest. unfold sourcesOfQuote. rewrite Hstep. split.
    + intros [[Hin|(r & Hr & Hev)]|(q' & r & Hq' & Hev)]; [now left | |].
      * right. exists q, r. split; [left | now split].
      * right. exists q', r. split; [now right | exact Hev].
    + intros [Hin|(q' & r & Hq' & Hr & Hev)]; [now left; left|].
      apply elem_of_cons in Hq' as [->|Hq']; [left; right; now exists r|].
      right. now exists q', r.
Qed.

Lemma keyedByName_names g m : keyedByName g m -> name <$> (snd <$> m) = fst <$> m.
Proof.
  intros [_ Hm]. rewrite <- list_fmap_compose. apply list_fmap_ext.
  intros i [k v] Hi. cbn. apply list_elem_of_lookup_2 in Hi.
  now destruct (findNamed_Some _ _ _ (Hm _ _ Hi)).
Qed.

(** X19. [getCodedData] and [getCodeCooccurrence] raise for the same
    names and otherwise return the same code entity, the count of the
    second being the number of quotes of the first. The sources of
    [getCodedData] have distinct names, [sourceCount] is their number,
    and an entity is a source exactly when it is the first entity under
    the [from] of a [contains] relation that does not start at the code
    and leads to one of the quotes: entities of any type, not only
    interviews, observations and documents. *)
Theorem coded_data_sources (codeName : string) (s : store) :
  let g := loadGraphOf s in
  (findTyped g "code" codeName = None ->
     getCodedData codeName s = (Err (CodeNotFound codeName), s) /\
     getCodeCooccurrence codeName s = (Err (CodeNotFound codeName), s)) /\
  (forall found, findTyped g "code" codeName = Some found ->
     exists d c,
       getCodedData codeName s = (Ok d, s) /\
       getCodeCooccurrence codeName s = (Ok c, s) /\
       CodedData.code d = found /\ code c = found /\
       quotesCount c = length (CodedData.quotes d) /\
       CodedData.sourceCount d = length (CodedData.sources d) /\
       NoDup (name <$> CodedData.sources d) /\
       forall e, e ∈ CodedData.sources d <->
         exists q r, (q ∈ CodedData.quotes d) /\ (r ∈ relations g) /\
                     relationType r = "contains" /\ from r <> codeName /\
                     to r = name q /\ findNamed g (from r) = Some e).
Proof.
  intros g. split.
  - intros Hnone. rewrite getCodedData_unfold, getCodeCooccurrence_unfold. cbv zeta. fold g.
    change (arrFind (fun e => name e = codeName /\ entityType e = "code") (entities g))
      with (findTyped g "code" codeName).
    now rewrite Hnone.
  - intros found Hfound.
    rewrite getCodedData_unfold, getCodeCooccurrence_unfold. cbv zeta. fold g.
    change (arrFind (fun e => name e = codeName /\ entityType e = "code") (entities g))
      with (findTyped g "code" codeName).
    rewrite Hfound. eexists. eexists. split; [reflexivity|]. split; [reflexivity|].
    cbn [CodedData.code code quotesCount CodedData.quotes CodedData.sourceCount
         CodedData.sources].
    destruct (sources_fold g codeName (targetsOf g "codes" codeName "quote") [])
      as [Hkeyed Hin].
    { split; [constructor|]. intros k v Hkv. inversion Hkv. }
    split; [reflexivity|]. split; [reflexivity|]. split; [reflexivity|].
    split; [now rewrite length_fmap|]. split.
    + rewrite (keyedByName_names g _ Hkeyed). apply Hkeyed.
    + intros e. rewrite list_elem_of_fmap. split.
      * intros ([k v] & -> & Hkv). apply Hin in Hkv as [Hkv|(q & r & Hq & Hr & Hl & Hf & _)];
          [inversion Hkv|].
        destruct Hl as (Ht & Hne & Hto). now exists q, r.
      * intros (q & r & Hq & Hr & Ht & Hne & Hto & Hf).
        exists (name e, e). split; [reflexivity|]. apply Hin. right.
        exists q, r. repeat split; assumption.
Qed.

Lemma coded_data_sources_witness :
  let g := mkGraph [mkEntity "C" "code" []; mkEntity "Q1" "quote" []; mkEntity "Q2" "quote" [];
                    mkEntity "I" "interview" []; mkEntity "G" "codeGroup" []]
                   [mkRelation "C" "Q1" "codes"; mkRelation "C" "Q2" "codes";
                    mkRelation "I" "Q1" "contains"; mkRelation "I" "Q2" "contains";
                    mkRelation "G" "Q2" "contains"] in
  exists d,
    getCodedData "C" (FileGraph g) = (Ok d, FileGraph g) /\
    NoDup (name <$> CodedData.sources d) /\
    name <$> CodedData.sources d = ["I"; "G"].
Proof.
  intros g.
  destruct (coded_data_sources "C" (FileGraph g)) as [_ Hfound].
  destruct (Hfound (mkEntity "C" "code" [])) as (d & c & Hd & _ & _ & _ & _ & _ & Hnd & _);
    [reflexivity|].
  exists d. split; [exact Hd|]. split; [exact Hnd|].
  vm_compute in Hd. injection Hd as <-. reflexivity.
Defined.

(** ** A store file that cannot be read *)

Lemma loadGraphOf_failed s e : readAndParse s = Err e -> loadGraphOf s = emptyGraph.
Proof. unfold loadGraphOf. now intros ->. Qed.

Lemma getResearchQuestionAnalysis_unfold projectName s :
  getResearchQuestionAnalysis projectName s =
  let g := loadGraphOf s in
  match findTyped g "project" projectName with
  | None => (Err (ProjectNotFound projectName), s)
  | Some found =>
      (Ok (QuestionAnalysis.mk found
             (questionAnalysis g <$> sourcesOf g "part_of" projectName "researchQuestion")), s)
  end.
Proof.
  unfold getResearchQuestionAnalysis, bind, loadGraph. cbv zeta.
  now destruct (findTyped (loadGraphOf s) "project" projectName).
Qed.

(** X20. When the store file is absent, unreadable or corrupt, the
    views do not report the failure: the five project views raise
    [ProjectNotFound], the two code views [CodeNotFound],
    [getMemosByFocus] raises [EntityNotFound], and [searchNodes],
    [openNodes] and [readGraph] return the empty graph. None of them
    creates or changes the file. *)
Theorem views_do_not_report_a_failed_read
    (parseDate : string -> option Z) (s : store) (e : error) :
  readAndParse s = Err e ->
  (forall p, getProjectOverview p s = (Err (ProjectNotFound p), s)) /\
  (forall p, getThematicAnalysis p s = (Err (ProjectNotFound p), s)) /\
  (forall p, getResearchQuestionAnalysis p s = (Err (ProjectNotFound p), s)) /\
  (forall p, getMethodologyDetails p s = (Err (ProjectNotFound p), s)) /\
  (forall p t, getChronologicalData parseDate p t s = (Err (ProjectNotFound p), s)) /\
  (forall c, getCodedData c s = (Err (CodeNotFound c), s)) /\
  (forall c, getCodeCooccurrence c s = (Err (CodeNotFound c), s)) /\
  (forall n, getMemosByFocus parseDate n s = (Err (EntityNotFound n), s)) /\
  (forall q, searchNodes q s = (Ok emptyGraph, s)) /\
  (forall names, openNodes names s = (Ok emptyGraph, s)) /\
  readGraph s = (Ok emptyGraph, s).
Proof.
  intros Hfail. pose proof (loadGraphOf_failed s e Hfail) as Hg.
  repeat split; intros.
  - rewrite getProjectOverview_unfold. cbv zeta. now rewrite Hg.
  - rewrite getThematicAnalysis_unfold. cbv zeta. now rewrite Hg.
  - rewrite getResearchQuestionAnalysis_unfold. cbv zeta. now rewrite Hg.
  - rewrite getMethodologyDetails_unfold. cbv zeta. now rewrite Hg.
  - rewrite getChronologicalData_unfold. cbv zeta. now rewrite Hg.
  - rewrite getCodedData_unfold. cbv zeta. now rewrite Hg.
  - rewrite getCodeCooccurrence_unfold. cbv zeta. now rewrite Hg.
  - rewrite getMemosByFocus_unfold. cbv zeta. now rewrite Hg.
  - rewrite searchNodes_unfold. cbv zeta. now rewrite Hg.
  - rewrite openNodes_unfold. now rewrite Hg.
  - unfold readGraph, loadGraph. now rewrite Hg.
Qed.

Lemma views_do_not_report_a_failed_read_witness :
  getProjectOverview "Study" FileCorrupt = (Err (ProjectNotFound "Study"), FileCorrupt) /\
  searchNodes "interview" FileUnreadable = (Ok emptyGraph, FileUnreadable).
Proof.
  split.
  - destruct (views_do_not_report_a_failed_read IsoDate.parse FileCorrupt SyntaxError)
      as (Hov & _); [reflexivity|]. apply Hov.
  - destruct (views_do_not_report_a_failed_read IsoDate.parse FileUnreadable IOError)
      as (_ & _ & _ & _ & _ & _ & _ & _ & Hsearch & _); [reflexivity|]. apply Hsearch.
Defined.

Lemma deleteAll_empty ds : fold_left deleteObservationsStep ds emptyGraph = emptyGraph.
Proof.
  induction ds as [|d r IH]; [reflexivity|].
  cbn [fold_left]. rewrite deleteStep_missing; [exact IH|]. apply not_elem_of_nil.
Qed.

(** X21. On a store file that is absent or corrupt, every deletion,
    even of nothing, succeeds and writes the empty graph over the file;
    a [createEntities] batch of valid types returns the whole batch and
    leaves a file that holds the batch alone, whatever the corrupt file
    held; a non-empty batch of [createRelations] or [addObservations]
    raises [EntityNotFound] for its first item and writes nothing. *)
Theorem writes_replace_a_corrupt_file (s : store) :
  s = FileAbsent \/ s = FileCorrupt ->
  (forall names, deleteEntities names s = (Ok tt, FileGraph emptyGraph)) /\
  (forall ds, deleteObservations ds s = (Ok tt, FileGraph emptyGraph)) /\
  (forall rs, deleteRelations rs s = (Ok tt, FileGraph emptyGraph)) /\
  (forall es, (forall x, x ∈ es -> validateEntityType (entityType x) = true) ->
     createEntities es s = (Ok es, FileGraph (mkGraph es []))) /\
  (forall r rs, createRelations (r :: rs) s = (Err (EntityNotFound (from r)), s)) /\
  (forall o obs, addObservations (o :: obs) s = (Err (EntityNotFound (entityName o)), s)).
Proof.
  intros Hs.
  assert (Hg : loadGraphOf s = emptyGraph) by (destruct Hs as [->| ->]; reflexivity).
  split; [|split; [|split; [|split; [|split]]]].
  - intros names. rewrite deleteEntities_unfold. now rewrite Hg.
  - intros ds. change (deleteObservations ds s)
      with (Ok tt, FileGraph (fold_left deleteObservationsStep ds (loadGraphOf s))).
    now rewrite Hg, deleteAll_empty.
  - intros rs. rewrite deleteRelations_unfold. now rewrite Hg.
  - intros es Hvalid. rewrite (createEntities_ok es s Hvalid). rewrite Hg.
    cbn [entities relations emptyGraph fmap list_fmap app].
    rewrite filter_all; [reflexivity|]. intros x _. apply not_elem_of_nil.
  - intros r rs. rewrite createRelations_unfold. cbv zeta. rewrite Hg.
    reflexivity.
  - intros o obs. rewrite addObservations_unfold. rewrite Hg. reflexivity.
Qed.

Lemma writes_replace_a_corrupt_file_witness :
  deleteEntities [] FileCorrupt = (Ok tt, FileGraph emptyGraph) /\
  createEntities [mkEntity "A" "code" []] FileCorrupt
    = (Ok [mkEntity "A" "code" []], FileGraph (mkGraph [mkEntity "A" "code" []] [])).
Proof.
  destruct (writes_replace_a_corrupt_file FileCorrupt) as (Hdel & _ & _ & Hcreate & _);
    [now right|].
  split; [apply Hdel|]. apply Hcreate.
  intros x Hx. apply list_elem_of_singleton in Hx as ->. reflexivity.
Defined.

(** ** Research questions and what answers them *)

Lemma omap_lengths3 {A B} (f1 f2 f3 : A -> option B) (P : A -> Prop)
    `{forall x, Decision (P x)} (l : list A) :
  (forall x, x ∈ l ->
     (length (option_list (f1 x)) + length (option_list (f2 x)) +
      length (option_list (f3 x)) <= if decide (P x) then 1 else 0)%nat) ->
  (length (omap f1 l) + length (omap f2 l) + length (omap f3 l)
   <= length (filter P l))%nat.
Proof.
  induction l as [|x l IH]; intros Hle; [cbn; lia|].
  rewrite !omap_cons_option_list, !length_app, filter_cons.
  specialize (Hle x ltac:(left)) as Hx.
  specialize (IH ltac:(intros y Hy; apply Hle; now right)).
  destruct (decide (P x)); cbn [length]; lia.
Qed.

(** X22. When [getProjectOverview] returns for a project, so does
    [getResearchQuestionAnalysis], for the same project entity and with
    one entry per research question of the overview, in the same order;
    the findings, themes and quotes of an entry have these types. In a
    graph with unique entity names every [answers] relation to a
    question contributes at most one of them, so that together they are
    no more than these relations. *)
Theorem question_analysis_agrees_with_overview
    (projectName : string) (s : store) (o : ProjectOverview.t) :
  let g := loadGraphOf s in
  getProjectOverview projectName s = (Ok o, s) ->
  exists a,
    getResearchQuestionAnalysis projectName s = (Ok a, s) /\
    QuestionAnalysis.project a = ProjectOverview.project o /\
    QuestionAnalysis.question <$> QuestionAnalysis.researchQuestions a
      = ProjectOverview.researchQuestions o /\
    Forall (fun qd =>
              Forall (fun e => entityType e = "finding") (QuestionAnalysis.findings qd) /\
              Forall (fun e => entityType e = "theme") (QuestionAnalysis.themes qd) /\
              Forall (fun e => entityType e = "quote") (QuestionAnalysis.quotes qd) /\
              (NoDup (name <$> entities g) ->
               (length (QuestionAnalysis.findings qd) + length (QuestionAnalysis.themes qd) +
                length (QuestionAnalysis.quotes qd)
                <= length (filter (fun r => relationType r = "answers" /\
                                            to r = name (QuestionAnalysis.question qd))
                                  (relations g)))%nat))
           (QuestionAnalysis.researchQuestions a).
Proof.
  intros g. rewrite getProjectOverview_unfold, getResearchQuestionAnalysis_unfold.
  cbv zeta. fold g.
  destruct (findTyped g "project" projectName) as [found|]; [|discriminate].
  intros [= <-]. eexists. split; [reflexivity|].
  cbn [QuestionAnalysis.project QuestionAnalysis.researchQuestions ProjectOverview.project
       ProjectOverview.researchQuestions].
  split; [reflexivity|]. split.
  - rewrite <- list_fmap_compose. apply list_fmap_id.
  - apply Forall_fmap, Forall_forall. intros question _. unfold compose, questionAnalysis.
    cbn [QuestionAnalysis.findings QuestionAnalysis.themes QuestionAnalysis.quotes
         QuestionAnalysis.question].
    assert (Htyped : forall t, Forall (fun e => entityType e = t)
                                      (sourcesOf g "answers" (name question) t)).
    { intros t. apply Forall_forall. intros e He.
      apply sourcesOf_elem in He as (r & _ & _ & _ & He).
      now destruct (findTyped_Some _ _ _ _ He) as (_ & _ & Ht). }
    split; [apply Htyped|]. split; [apply Htyped|]. split; [apply Htyped|].
    intros Hnd. unfold sourcesOf, collectVia. apply omap_lengths3. intros r _.
    destruct (decide (relationType r = "answers" /\ to r = name question)); [|cbn; lia].
    rewrite !(findTyped_unique g _ _ Hnd).
    destruct (findNamed g (from r)) as [e|]; [|cbn; lia].
    destruct (decide (entityType e = "finding")) as [Hf|Hf];
      destruct (decide (entityType e = "theme")) as [Ht|Ht];
      destruct (decide (entityType e = "quote")) as [Hq|Hq];
      try (exfalso; congruence); cbn; lia.
Qed.

Lemma question_analysis_agrees_with_overview_witness :
  let g := mkGraph [mkEntity "Study" "project" []; mkEntity "RQ" "researchQuestion" [];
                    mkEntity "F" "finding" []; mkEntity "T" "theme" []]
                   [mkRelation "RQ" "Study" "part_of"; mkRelation "F" "RQ" "answers";
                    mkRelation "T" "RQ" "answers"] in
  exists a,
    getResearchQuestionAnalysis "Study" (FileGraph g) = (Ok a, FileGraph g) /\
    name <$> (QuestionAnalysis.question <$> QuestionAnalysis.researchQuestions a) = ["RQ"].
Proof.
  intros g.
  destruct (getProjectOverview "Study" (FileGraph g)) as [[o|e] s'] eqn:Eo;
    [|vm_compute in Eo; discriminate].
  assert (Hs : s' = FileGraph g) by (vm_compute in Eo; now injection Eo).
  subst s'.
  destruct (question_analysis_agrees_with_overview "Study" (FileGraph g) o Eo)
    as (a & Ha & _ & Hq & _).
  exists a. split; [exact Ha|]. rewrite Hq.
  vm_compute in Eo. injection Eo as <-. reflexivity.
Defined.

(** ** Memos on the methodology *)

Lemma omap_guard_filter {A B} (f : A -> option B) (keep : B -> bool) (l : list A) :
  omap (fun x => match f x with
                 | Some y => if keep y then Some y else None
                 | None => None
                 end) l
  = filter (fun y => keep y = true) (omap f l).
Proof.
  induction l as [|x l IH]; [reflexivity|].
  cbn [omap list_omap]. destruct (f x) as [y|]; [|exact IH].
  rewrite filter_cons. destruct (keep y) eqn:Hk.
  - rewrite decide_True by reflexivity. now rewrite IH.
  - rewrite decide_False by discriminate. exact IH.
Qed.

Lemma methodologyMemos_filter g projectName :
  methodologyMemos g projectName =
  filter (fun memo => existsb (mentionsAny ["method"; "approach"; "sampling"; "analysis"])
                              (observations memo) = true)
         (sourcesOf g "reflects_on" projectName "memo").
Proof.
  unfold methodologyMemos, sourcesOf, collectVia. rewrite <- omap_guard_filter.
  apply omap_ext_elem. intros r _. now destruct (decide _).
Qed.

(** X23. When [getMethodologyDetails] returns for a project,
    [getMemosByFocus] returns for the project's name, and the memos of
    the details are, up to order, those memos by focus that have an
    observation mentioning [method], [approach], [sampling] or
    [analysis] in any letter case; the literature of the details are
    entities of type [literature]. *)
Theorem methodology_memos_are_focus_memos
    (parseDate : string -> option Z) (projectName : string) (s : store)
    (m : MethodologyDetails.t) :
  getMethodologyDetails projectName s = (Ok m, s) ->
  exists r,
    getMemosByFocus parseDate projectName s = (Ok r, s) /\
    name (MemosByFocus.entity r) = projectName /\
    MethodologyDetails.memos m ≡ₚ
      filter (fun memo => existsb (mentionsAny ["method"; "approach"; "sampling"; "analysis"])
                                  (observations memo) = true)
             (MemosByFocus.memos r) /\
    Forall (fun e => entityType e = "literature") (MethodologyDetails.literature m).
Proof.
  rewrite getMethodologyDetails_unfold, getMemosByFocus_unfold. cbv zeta.
  destruct (findTyped (loadGraphOf s) "project" projectName) as [found|] eqn:Hfound;
    [|discriminate].
  intros [= <-].
  destruct (findTyped_Some _ _ _ _ Hfound) as (Hin & Hname & _).
  destruct (arrFind_Exists (fun e => name e = projectName) (entities (loadGraphOf s)))
    as [first Hfirst]; [apply Exists_exists; now exists found|].
  unfold findNamed. rewrite Hfirst. eexists. split; [reflexivity|].
  cbn [MemosByFocus.entity MemosByFocus.memos MethodologyDetails.memos
       MethodologyDetails.literature].
  split; [now apply arrFind_Some in Hfirst|]. split.
  - rewrite methodologyMemos_filter. now rewrite sortWith_Permutation.
  - apply Forall_forall. intros e He.
    apply targetsOf_elem in He as (r & _ & _ & _ & He).
    now destruct (findTyped_Some _ _ _ _ He) as (_ & _ & Ht).
Qed.

Lemma methodology_memos_are_focus_memos_witness :
  let g := mkGraph [mkEntity "Study" "project" [];
                    mkEntity "M1" "memo" ["On SAMPLING bias"];
                    mkEntity "M2" "memo" ["Lunch notes"]]
                   [mkRelation "M1" "Study" "reflects_on";
                    mkRelation "M2" "Study" "reflects_on"] in
  exists m r,
    getMethodologyDetails "Study" (FileGraph g) = (Ok m, FileGraph g) /\
    getMemosByFocus IsoDate.parse "Study" (FileGraph g) = (Ok r, FileGraph g) /\
    name <$> MethodologyDetails.memos m = ["M1"] /\
    length (MemosByFocus.memos r) = 2%nat.
Proof.
  intros g.
  destruct (getMethodologyDetails "Study" (FileGraph g)) as [[m|e] s'] eqn:Em;
    [|vm_compute in Em; discriminate].
  assert (Hs : s' = FileGraph g) by (vm_compute in Em; now injection Em).
  subst s'.
  destruct (methodology_memos_are_focus_memos IsoDate.parse "Study" (FileGraph g) m Em)
    as (r & Hr & _).
  exists m, r. split; [reflexivity|]. split; [exact Hr|].
  vm_compute in Em. injection Em as <-.
  vm_compute in Hr. injection Hr as <-. split; reflexivity.
Defined.

(** ** Types within the enumerations *)

Lemma typesValid_same g g' :
  entityType <$> entities g' = entityType <$> entities g -> relations g' = relations g ->
  typesValid g -> typesValid g'.
Proof.
  intros He Hr [Hes Hrs]. split; [|now rewrite Hr].
  assert (Ht : Forall (fun t => validateEntityType t = true) (entityType <$> entities g))
    by (apply Forall_fmap; exact Hes).
  rewrite <- He in Ht. apply Forall_fmap in Ht. exact Ht.
Qed.

Lemma Forall_filter_keep {A} (P : A -> Prop) (Q : A -> Prop) `{forall x, Decision (Q x)} l :
  Forall P l -> Forall P (filter Q l).
Proof.
  rewrite !Forall_forall. intros Hall x Hx. apply list_elem_of_filter in Hx as [_ Hx]. auto.
Qed.

Lemma forOf_addObservations_types obs g res s st s' :
  forOf addObservationsStep obs (g, res) s = (Ok st, s') ->
  entityType <$> entities (fst st) = entityType <$> entities g /\
  relations (fst st) = relations g.
Proof.
  revert g res. induction obs as [|o r IH]; intros g res.
  - cbn [forOf]. unfold ret. intros [= <- _]. split; reflexivity.
  - rewrite forOf_cons. unfold addObservationsStep at 1.
    destruct (list_find _ (entities g)) as [[i e]|] eqn:Hfind; [|discriminate].
    unfold ret. intros Hrun. apply IH in Hrun as [Hn Hr]. cbn [entities relations] in Hn, Hr.
    split; [|exact Hr]. rewrite Hn.
    apply list_find_Some in Hfind as (Hi & _ & _).
    rewrite list_fmap_insert. cbn [setObservations entityType]. apply list_insert_id.
    now rewrite list_lookup_fmap, Hi.
Qed.

Lemma deleteObservationsStep_types g d :
  entityType <$> entities (deleteObservationsStep g d) = entityType <$> entities g /\
  relations (deleteObservationsStep g d) = relations g.
Proof.
  unfold deleteObservationsStep.
  destruct (list_find _ (entities g)) as [[i e]|] eqn:Hfind; [|split; reflexivity].
  cbn [entities relations]. split; [|reflexivity].
  apply list_find_Some in Hfind as (Hi & _ & _).
  rewrite list_fmap_insert. cbn [setObservations entityType]. apply list_insert_id.
  now rewrite list_lookup_fmap, Hi.
Qed.

Lemma fold_ensure_types (step : list Entity -> string -> list Entity) (vs : list string) :
  (forall es v, Forall (fun e => validateEntityType (entityType e) = true) es ->
                Forall (fun e => validateEntityType (entityType e) = true) (step es v)) ->
  forall es, Forall (fun e => validateEntityType (entityType e) = true) es ->
             Forall (fun e => validateEntityType (entityType e) = true) (fold_left step vs es).
Proof.
  intros Hstep. induction vs as [|v r IH]; intros es Hes; [exact Hes|].
  cbn [fold_left]. apply IH, Hstep, Hes.
Qed.

Lemma ensureStatusEntity_types es v :
  Forall (fun e => validateEntityType (entityType e) = true) es ->
  Forall (fun e => validateEntityType (entityType e) = true) (ensureStatusEntity es v).
Proof.
  intros Hes. unfold ensureStatusEntity. destruct (arrSome _ es); [exact Hes|].
  apply Forall_app. split; [exact Hes|]. now constructor.
Qed.

Lemma ensurePriorityEntity_types es v :
  Forall (fun e => validateEntityType (entityType e) = true) es ->
  Forall (fun e => validateEntityType (entityType e) = true) (ensurePriorityEntity es v).
Proof.
  intros Hes. unfold ensurePriorityEntity. destruct (arrSome _ es); [exact Hes|].
  apply Forall_app. split; [exact Hes|]. now constructor.
Qed.

Lemma perform_typesValid op s :
  typesValid (loadGraphOf s) -> typesValid (loadGraphOf (perform op s)).
Proof.
  intros Hv. pose proof Hv as [Hes Hrs]. destruct op; unfold perform.
  - rewrite createEntities_unfold. cbv zeta.
    destruct (firstError entityTypeError es) eqn:Hchk; [exact Hv|].
    cbn [snd]. split; [|exact Hrs]. cbn [loadGraphOf readAndParse entities].
    apply Forall_app. split; [exact Hes|]. apply Forall_filter_keep, Forall_forall.
    intros x Hx. pose proof (proj1 (firstError_None _ _) Hchk x Hx) as Hok.
    unfold entityTypeError in Hok.
    now destruct (validateEntityType (entityType x)).
  - rewrite createRelations_unfold. cbv zeta.
    destruct (firstError _ rs) eqn:Hchk; [exact Hv|].
    cbn [snd]. split; [exact Hes|]. cbn [loadGraphOf readAndParse relations].
    apply Forall_app. split; [exact Hrs|]. apply Forall_filter_keep, Forall_forall.
    intros x Hx. pose proof (proj1 (firstError_None _ _) Hchk x Hx) as Hok.
    now apply relationError_None in Hok.
  - rewrite addObservations_unfold.
    destruct (forOf addObservationsStep obs (loadGraphOf s, []) s) as [[st|e] s'] eqn:Hrun;
      cbn [fst snd]; [|exact Hv].
    apply forOf_addObservations_types in Hrun as [Hn Hr].
    now apply (typesValid_same (loadGraphOf s)).
  - rewrite deleteEntities_unfold. cbn [snd loadGraphOf readAndParse].
    split; cbn [entities relations]; now apply Forall_filter_keep.
  - change (snd (deleteObservations deletions s))
      with (FileGraph (fold_left deleteObservationsStep deletions (loadGraphOf s))).
    cbn [loadGraphOf readAndParse]. revert Hv. clear Hes Hrs. generalize (loadGraphOf s).
    induction deletions as [|d r IH]; intros g Hv; [exact Hv|].
    cbn [fold_left]. apply IH.
    destruct (deleteObservationsStep_types g d) as [Hn Hr].
    now apply (typesValid_same g).
  - rewrite deleteRelations_unfold. cbn [snd loadGraphOf readAndParse].
    split; cbn [entities relations]; [exact Hes | now apply Forall_filter_keep].
  - rewrite initialize_unfold. cbn [snd loadGraphOf readAndParse].
    split; cbn [entities relations]; [|exact Hrs].
    apply (fold_ensure_types _ _ ensurePriorityEntity_types).
    apply (fold_ensure_types _ _ ensureStatusEntity_types). exact Hes.
  - rewrite setEntityStatus_unfold.
    destruct (decide (statusValue ∈ VALID_STATUS_VALUES)); [|exact Hv].
    cbn [snd loadGraphOf readAndParse]. split; cbn [entities relations]; [exact Hes|].
    apply Forall_app. split; [now apply Forall_filter_keep | now constructor].
  - rewrite setEntityPriority_unfold.
    destruct (decide (priorityValue ∈ VALID_PRIORITY_VALUES)); [|exact Hv].
    cbn [snd loadGraphOf readAndParse]. split; cbn [entities relations]; [exact Hes|].
    apply Forall_app. split; [now apply Forall_filter_keep | now constructor].
Qed.

(** X24. Every writing operation keeps the types within the
    enumerations: if every stored entity and relation has a type of its
    enumeration, this still holds of the store the operation leaves,
    whatever its arguments and whether it returned or raised. Hence it
    holds of every store reached from an empty one, where each search
    result and each opened subgraph has types of the enumerations as
    well. *)
Theorem operations_keep_types_valid :
  (forall op s, typesValid (loadGraphOf s) -> typesValid (loadGraphOf (perform op s))) /\
  (forall s, reachable s -> typesValid (loadGraphOf s)) /\
  (forall s, reachable s ->
     (forall q found, searchNodes q s = (Ok found, s) -> typesValid found) /\
     (forall names found, openNodes names s = (Ok found, s) -> typesValid found)).
Proof.
  assert (Hreach : forall s, reachable s -> typesValid (loadGraphOf s)).
  { intros s Hs. induction Hs as [s Hempty|s op _ IH].
    - rewrite Hempty. split; constructor.
    - now apply perform_typesValid. }
  split; [exact perform_typesValid|]. split; [exact Hreach|].
  intros s Hs. destruct (Hreach s Hs) as [Hes Hrs]. split.
  - intros q found. rewrite searchNodes_unfold. cbv zeta. intros [= <-].
    split; cbn [entities relations]; now apply Forall_filter_keep.
  - intros names found. rewrite openNodes_unfold. intros [= <-].
    split; cbn [entities relations]; now apply Forall_filter_keep.
Qed.

Lemma operations_keep_types_valid_witness :
  typesValid (loadGraphOf (perform (SetEntityStatus "A" "coded")
                             (perform (CreateEntities [mkEntity "A" "quote" []]) FileAbsent))).
Proof.
  destruct operations_keep_types_valid as (_ & Hreach & _).
  apply Hreach. apply reachable_step, reachable_step, reachable_empty. reflexivity.
Defined.

(** ** The create operations *)





(** ** The chronology *)

Lemma isDateObservation_spec o :
  isDateObservation o = true <->
  exists post, o = "Date:" +:+ post \/ o = "Collected on:" +:+ post \/ o = "Created:" +:+ post.
Proof.
  unfold isDateObservation. rewrite !orb_true_iff, !startsWith_spec. split.
  - intros [[[post ->]|[post ->]]|[post ->]]; exists post; auto.
  - intros (post & [->|[->| ->]]); [left; left | left; right | right]; now exists post.
Qed.

Lemma entityDate_truncates parseDate e pre p v rest post :
  p ∈ ["Date"; "Collected on"; "Created"] ->
  observations e = pre ++ (p +:+ ":" +:+ v +:+ rest) :: post ->
  (forall x, x ∈ pre -> isDateObservation x = false) ->
  colonFree v = true ->
  (rest = EmptyString \/ exists b, rest = String ":" b) ->
  entityDate parseDate e = default 0%Z (parseDate (Str.trim v)).
Proof.
  intros Hp Hobs Hpre Hv Hrest.
  assert (Hfacts : colonFree p = true /\ isDateObservation (p +:+ ":" +:+ v +:+ rest) = true).
  { repeat (apply elem_of_cons in Hp as [->|Hp]); [| | |inversion Hp];
      (split; [reflexivity|]); apply isDateObservation_spec; exists (v +:+ rest); auto. }
  destruct Hfacts as [Hcolon Hdate].
  unfold entityDate. rewrite Hobs, (find_first _ pre _ post Hpre Hdate).
  change (p +:+ ":" +:+ v +:+ rest) with (p +:+ String ":" (v +:+ rest)).
  rewrite (second_segment p v rest Hcolon Hv Hrest).
  now destruct (parseDate (Str.trim v)).
Qed.

Lemma timestamp_timeline parseDate d :
  parseDate "2024-01-05T10" = None -> parseDate "2024-01-01" = Some d -> (0 < d)%Z ->
  timelineNames (getChronologicalData parseDate "Study" None (FileGraph timestampScenario))
  = Some [("I1", 0%Z); ("I2", d)].
Proof.
  intros Hcut Hday Hpos.
  assert (E1 : entityDate parseDate (mkEntity "I1" "interview" ["Date: 2024-01-05T10:30:00Z"])
               = 0%Z).
  { rewrite (entityDate_truncates parseDate _ [] "Date" " 2024-01-05T10" ":30:00Z" []).
    - change (Str.trim " 2024-01-05T10") with "2024-01-05T10". now rewrite Hcut.
    - compute_done.
    - reflexivity.
    - intros x Hx. inversion Hx.
    - reflexivity.
    - right. now exists "30:00Z". }
  assert (E2 : entityDate parseDate (mkEntity "I2" "interview" ["Date: 2024-01-01"]) = d).
  { rewrite (entityDate_truncates parseDate _ [] "Date" " 2024-01-01" "" []).
    - change (Str.trim " 2024-01-01") with "2024-01-01". now rewrite Hday.
    - compute_done.
    - reflexivity.
    - intros x Hx. inversion Hx.
    - reflexivity.
    - now left. }
  rewrite getChronologicalData_unfold. cbv zeta.
  assert (Hfind : arrFind (fun e => name e = "Study" /\ entityType e = "project")
                          (entities (loadGraphOf (FileGraph timestampScenario)))
                  = Some (mkEntity "Study" "project" []))
    by (vm_compute; reflexivity).
  assert (Hdata : dataEntities (loadGraphOf (FileGraph timestampScenario)) "Study" None
                  = [mkEntity "I1" "interview" ["Date: 2024-01-05T10:30:00Z"];
                     mkEntity "I2" "interview" ["Date: 2024-01-01"]])
    by (vm_compute; reflexivity).
  rewrite Hfind, Hdata. unfold timelineNames. cbn [fst fmap list_fmap].
  rewrite E1, E2. unfold sortWith. cbn [foldr insertSorted]. unfold byDate. cbn [snd].
  destruct (Z.leb_spec (0 - d) 0); [|lia].
  reflexivity.
Qed.

(** C7. [getChronologicalData] raises when the project is missing and
    otherwise returns the entities collected through the [part_of]
    relations to the project (of the requested type, or of the three
    data types when none or the empty one is given), each with a date
    read from its first observation that starts with [Date:],
    [Collected on:] or [Created:], in ascending order of that date,
    entities of equal date keeping their order. The date is what the
    host parser makes of the text between the first and the second colon
    of that observation, trimmed, and zero when there is no such
    observation or the parser rejects that text: what follows a second
    colon never reaches the parser, so an observation that gives a time
    of day, as [Date: 2024-01-05T10:30:00Z], is dated by the text
    [2024-01-05T10], and the interview of 5 January, 10:30, comes out
    before the one of 1 January under every parser that rejects that
    text. With a parser of the date-only form, the three interviews of
    the scenario come out undated first, then 2024-01-01, then
    2024-01-05, whatever the order of their relations. *)
Theorem chronological_data_sorted_by_date
    (parseDate : string -> option Z) (projectName : string) (dataType : option string)
    (s : store) :
  let g := loadGraphOf s in
  let isProject := fun e => name e = projectName /\ entityType e = "project" in
  (arrFind isProject (entities g) = None ->
     getChronologicalData parseDate projectName dataType s
     = (Err (ProjectNotFound projectName), s)) /\
  (forall found, arrFind isProject (entities g) = Some found ->
     exists data,
       getChronologicalData parseDate projectName dataType s = (Ok data, s) /\
       project data = found /\
       entity <$> timeline data ≡ₚ dataEntities g projectName dataType /\
       Forall (fun item => date item = entityDate parseDate (entity item) /\
                           quotes item = quotesContainedIn g (name (entity item)))
              (timeline data) /\
       StronglySorted (fun a b => (date a <= date b)%Z) (timeline data) /\
       forall d, filter (fun e => entityDate parseDate e = d) (entity <$> timeline data)
                 = filter (fun e => entityDate parseDate e = d)
                          (dataEntities g projectName dataType)) /\
  (forall e, e ∈ dataEntities g projectName dataType <->
     exists r, (r ∈ relations g) /\
               (relationType r = "part_of" /\ to r = projectName) /\
               arrFind (fun e => name e = from r /\ wantedType dataType e) (entities g)
               = Some e) /\
  (forall e, wantedType None e <->
     entityType e = "interview" \/ entityType e = "observation" \/ entityType e = "document") /\
  (forall e, wantedType (Some EmptyString) e <->
     entityType e = "interview" \/ entityType e = "observation" \/ entityType e = "document") /\
  (forall t e, t <> EmptyString -> (wantedType (Some t) e <-> entityType e = t)) /\
  (forall o, isDateObservation o = true <->
     exists post, o = "Date:" +:+ post \/ o = "Collected on:" +:+ post \/
                  o = "Created:" +:+ post) /\
  (forall e, (forall o, o ∈ observations e -> isDateObservation o = false) ->
     entityDate parseDate e = 0%Z) /\
  (forall e pre o post,
     observations e = pre ++ o :: post ->
     (forall x, x ∈ pre -> isDateObservation x = false) ->
     isDateObservation o = true ->
     exists seg, Str.splitOn ":" o !! 1%nat = Some seg /\
                 entityDate parseDate e = default 0%Z (parseDate (Str.trim seg))) /\
  (forall e pre p v rest post,
     p ∈ ["Date"; "Collected on"; "Created"] ->
     observations e = pre ++ (p +:+ ":" +:+ v +:+ rest) :: post ->
     (forall x, x ∈ pre -> isDateObservation x = false) ->
     colonFree v = true ->
     (rest = EmptyString \/ exists b, rest = String ":" b) ->
     entityDate parseDate e = default 0%Z (parseDate (Str.trim v))) /\
  (forall n t,
     entityDate parseDate (mkEntity n t ["Date: 2024-01-05T10:30:00Z"])
     = default 0%Z (parseDate "2024-01-05T10")) /\
  (parseDate "2024-01-05T10" = None ->
   forall d, parseDate "2024-01-01" = Some d -> (0 < d)%Z ->
     timelineNames (getChronologicalData parseDate "Study" None (FileGraph timestampScenario))
     = Some [("I1", 0%Z); ("I2", d)]) /\
  Forall (fun rels =>
            timelineNames (getChronologicalData IsoDate.parse "Study" None
                             (FileGraph (chronologyScenario rels)))
            = Some [("I3", 0%Z); ("I2", 1704067200000%Z); ("I1", 1704412800000%Z)])
         (permutations [mkRelation "I1" "Study" "part_of";
                        mkRelation "I2" "Study" "part_of";
                        mkRelation "I3" "Study" "part_of"]).
Proof.
  intros g isProject.
  split; [|split; [|split; [|split; [|split; [|split; [|split; [|split; [|split;
    [|split; [|split; [|split]]]]]]]]]]].
  - intros Hnone. rewrite getChronologicalData_unfold. cbv zeta. fold g.
    unfold isProject in Hnone. now rewrite Hnone.
  - intros found Hfound. eexists. rewrite getChronologicalData_unfold. cbv zeta. fold g.
    unfold isProject in Hfound. rewrite Hfound. split; [reflexivity|].
    set (items := (fun e => (e, entityDate parseDate e)) <$> dataEntities g projectName dataType).
    assert (Hfst : fst <$> items = dataEntities g projectName dataType).
    { unfold items. rewrite <- list_fmap_compose. apply list_fmap_id. }
    assert (Hent : entity <$> ((fun item => mkTimelineItem (snd item) (fst item)
                                  (quotesContainedIn g (name (fst item)))) <$>
                               sortWith byDate items) = fst <$> sortWith byDate items).
    { now rewrite <- list_fmap_compose. }
    assert (Hdates : Forall (fun item => snd item = entityDate parseDate (fst item))
                            (sortWith byDate items)).
    { rewrite (sortWith_Permutation byDate items). unfold items.
      apply Forall_fmap, Forall_forall. now intros. }
    cbn [project timeline]. split; [reflexivity|]. split; [|split; [|split]].
    + rewrite Hent, (sortWith_Permutation byDate items). now rewrite Hfst.
    + apply Forall_fmap. eapply Forall_impl; [exact Hdates|].
      intros item Hitem. cbn. split; [exact Hitem | reflexivity].
    + apply (StronglySorted_fmap_impl (fun a b => (byDate a b <= 0)%Z)).
      * intros a b Hab. unfold byDate in Hab. cbn. lia.
      * apply sortWith_sorted; intros; unfold byDate in *; lia.
    + intros d. rewrite Hent, <- Hfst.
      assert (Hfilter : forall l : list (Entity * Z),
                Forall (fun item => snd item = entityDate parseDate (fst item)) l ->
                filter (fun e => entityDate parseDate e = d) (fst <$> l)
                = fst <$> filter (fun item => snd item = d) l).
      { induction l as [|x l IH]; intros Hl; [reflexivity|].
        apply Forall_cons in Hl as [Hx Hl]. rewrite fmap_cons, !filter_cons, IH by exact Hl.
        rewrite <- Hx. now destruct (decide (x.2 = d)). }
      rewrite !Hfilter.
      * f_equal. apply sortWith_stable. intros a b Ha Hb. unfold byDate. lia.
      * unfold items. apply Forall_fmap, Forall_forall. now intros.
      * exact Hdates.
  - intros e. unfold dataEntities. apply collectVia_elem.
  - intros e. reflexivity.
  - intros e. reflexivity.
  - intros t e Ht. destruct t; [contradiction | reflexivity].
  - apply isDateObservation_spec.
  - intros e Hnone. unfold entityDate. rewrite find_none; [reflexivity|exact Hnone].
  - intros e pre o post Hobs Hpre Ho.
    destruct (dateObservation_has_segment o Ho) as [seg Hseg].
    exists seg. split; [exact Hseg|].
    unfold entityDate. rewrite Hobs, (find_first _ pre o post Hpre Ho), Hseg.
    now destruct (parseDate (Str.trim seg)).
  - apply entityDate_truncates.
  - intros n t.
    rewrite (entityDate_truncates parseDate _ [] "Date" " 2024-01-05T10" ":30:00Z" []).
    + reflexivity.
    + compute_done.
    + reflexivity.
    + intros x Hx. inversion Hx.
    + reflexivity.
    + right. now exists "30:00Z".
  - intros Hcut d Hday Hpos. now apply timestamp_timeline.
  - apply (Forall_of_fmap_replicate _ _ _ 6). vm_compute. reflexivity.
Qed.

Lemma chronological_data_sorted_by_date_witness :
  let g := mkGraph [mkEntity "Study" "project" [];
                    mkEntity "I1" "interview" ["Date: 2024-01-05"];
                    mkEntity "D2" "document" ["Kind: letter"; "Created: 2024-01-03"];
                    mkEntity "D1" "document" ["Collected on: 2024-01-02"]]
                   [mkRelation "I1" "Study" "part_of"; mkRelation "D2" "Study" "part_of";
                    mkRelation "D1" "Study" "part_of"] in
  exists data,
    getChronologicalData IsoDate.parse "Study" (Some "document") (FileGraph g)
      = (Ok data, FileGraph g) /\
    StronglySorted (fun a b => (date a <= date b)%Z) (timeline data) /\
    (fun item => (name (entity item), date item)) <$> timeline data
      = [("D1", 1704153600000%Z); ("D2", 1704240000000%Z)] /\
    entityDate IsoDate.parse (mkEntity "D2" "document" ["Kind: letter"; "Created: 2024-01-03"])
      = 1704240000000%Z.
Proof.
  intros g.
  destruct (chronological_data_sorted_by_date IsoDate.parse "Study" (Some "document")
              (FileGraph g))
    as (_ & Hfound & _ & _ & _ & _ & _ & _ & Hdate & _).
  destruct (Hfound (mkEntity "Study" "project" [])) as (data & Hrun & _ & _ & _ & Hsorted & _);
    [reflexivity|].
  destruct (Hdate (mkEntity "D2" "document" ["Kind: letter"; "Created: 2024-01-03"])
                  ["Kind: letter"] "Created: 2024-01-03" [])
    as (seg & Hseg & Hval);
    [reflexivity
    | (intros x Hx; apply list_elem_of_singleton in Hx as ->; reflexivity)
    | reflexivity |].
  exists data. split; [exact Hrun|]. split; [exact Hsorted|]. split.
  - vm_compute in Hrun. injection Hrun as <-. reflexivity.
  - rewrite Hval. injection Hseg as <-. reflexivity.
Defined.
